(** * Mailchimp MCP server: the tool-to-REST gateway

    A shallow embedding of the three TypeScript sources
      - [src/services/mailchimp-client.ts]  (module [Client])
      - [src/index.ts]                      (module [Index])
      - [api/mcp.ts]                        (module [Api])
    and the properties of the gateway that its specification states.

    JavaScript values are an inductive type, numbers are IEEE binary64
    floats (Rocq's primitive floats), objects are association lists in
    insertion order.  A remote answer is such a value, not a record of the
    interfaces [MailchimpList] and [MailchimpCampaign]: the casts [as T]
    of the sources check nothing, and the handlers read it property by
    property.  The network is an oracle from requests to responses;
    every computation returns the list of requests it has issued together
    with its result, so "before any network call" is "the list is empty".
    A request is addressed to the URL that [new URL] makes of the string
    it is given, with the search parameters set on it; the constructor is
    a parameter of the development, and throws on what it does not take
    for a URL. *)

From Stdlib Require Import ZArith NArith String Ascii List Bool Lia.
From Stdlib Require Import Floats DecimalString DecimalPos Permutation.
Import ListNotations.

Set Warnings "-inexact-float".
Local Open Scope list_scope.
Local Open Scope string_scope.

(* ================================================================== *)
(** * Strings, the way the sources use them *)

Module Str.

(** [s.split(sep)] for a one-character separator: never empty, the
    pieces are the maximal runs without the separator. *)
Fixpoint split (sep : ascii) (s : string) : list string :=
  match s with
  | EmptyString => [EmptyString]
  | String c rest =>
      if Ascii.eqb c sep then EmptyString :: split sep rest
      else match split sep rest with
           | [] => [String c EmptyString]
           | piece :: pieces => String c piece :: pieces
           end
  end.

(** [arr.pop()]: the last element, [undefined] (here [None]) on an
    empty array. *)
Fixpoint pop (l : list string) : option string :=
  match l with
  | [] => None
  | [x] => Some x
  | _ :: tl => pop tl
  end.

(** [x || fallback] where [x] is a string or [undefined]: the empty
    string and [undefined] are falsy. *)
Definition or_else (x : option string) (fallback : string) : string :=
  match x with
  | None => fallback
  | Some EmptyString => fallback
  | Some s => s
  end.

(** No occurrence of the character [c]. *)
Fixpoint lacks (c : ascii) (s : string) : bool :=
  match s with
  | EmptyString => true
  | String a rest => negb (Ascii.eqb a c) && lacks c rest
  end.

(** [s.includes(sub)]. *)
Fixpoint includes (sub s : string) : bool :=
  if String.prefix sub s then true
  else match s with
       | EmptyString => false
       | String _ rest => includes sub rest
       end.

(** Decimal rendering of a natural number, as [String(n)] gives it. *)
Definition of_N (n : N) : string := NilEmpty.string_of_uint (N.to_uint n).

Definition of_Z (z : Z) : string :=
  match z with
  | Z0 => "0"
  | Zpos p => of_N (Npos p)
  | Zneg p => "-" ++ of_N (Npos p)
  end.

(** The number that a non-empty string of decimal digits writes. *)
Fixpoint digits_from (acc : N) (s : string) : option N :=
  match s with
  | EmptyString => Some acc
  | String c rest =>
      let d := N_of_ascii c in
      if ((48 <=? d) && (d <=? 57))%N then digits_from (acc * 10 + (d - 48)) rest
      else None
  end.

Definition to_N (s : string) : option N :=
  match s with
  | EmptyString => None
  | _ => digits_from 0 s
  end.

End Str.

(* ================================================================== *)
(** * JavaScript values *)

(** What [new URL(s)] makes of a string, as far as the sources use it:
    the serialisation of the URL up to its query (scheme, host and path,
    as the constructor normalises them), the name-value pairs that
    [url.searchParams] lists, and the fragment. *)
Module URL.

Record t := {
  location : string;
  query : list (string * string);
  fragment : string
}.

End URL.

(** What the engine and the schema library bring and the sources only
    call: number printing outside the safe integers, string-to-number
    conversion, the e-mail pattern of [z.string().email()], and the
    parser of [new URL(s)] ([None] when the constructor throws). *)
Class Builtins := {
  NumberToString_other : float -> string;
  StringToNumber : string -> float;
  email_test : string -> bool;
  URL_parse : string -> option URL.t
}.

#[local] Set Warnings "-register-all".
Inductive JsValue : Type :=
| JUndefined
| JNull
| JBool (b : bool)
| JNum (x : float)
| JStr (s : string)
| JArr (items : list JsValue)
| JObj (fields : list (string * JsValue)).

(** What a JavaScript computation can throw. *)
Inductive JsError : Type :=
| Error (message : string)          (* [throw new Error(message)] *)
| TypeError                         (* property of undefined/null, call of a non-function *)
| SyntaxError                       (* [response.json()] on a body that is not JSON *)
| NetworkError                      (* [fetch] rejects *)
| InvalidParams (issues : list string). (* input rejected by the declared schema *)

Inductive Result (A : Type) : Type :=
| Ok (a : A)
| Err (e : JsError).
Arguments Ok {A} a.
Arguments Err {A} e.

Definition bindR {A B} (r : Result A) (k : A -> Result B) : Result B :=
  match r with
  | Ok a => k a
  | Err e => Err e
  end.

Notation "'let?' x ':=' r 'in' k" := (bindR r (fun x => k))
  (at level 10, x name, r at level 200, k at level 200).

Fixpoint mapR {A B} (f : A -> Result B) (l : list A) : Result (list B) :=
  match l with
  | [] => Ok []
  | a :: tl => let? b := f a in let? bs := mapR f tl in Ok (b :: bs)
  end.

Module Js.

(** Own property of an object literal or of a parsed JSON object. *)
Fixpoint assoc {V} (k : string) (fields : list (string * V)) : option V :=
  match fields with
  | [] => None
  | (k', v) :: tl => if String.eqb k k' then Some v else assoc k tl
  end.

(** [obj[k] = v] on an object: overwrite in place, or append. *)
Fixpoint set {V} (k : string) (v : V) (fields : list (string * V)) : list (string * V) :=
  match fields with
  | [] => [(k, v)]
  | (k', v') :: tl => if String.eqb k k' then (k, v) :: tl else (k', v') :: set k v tl
  end.

(** An array index: a key that is the canonical decimal form of an
    integer below 2^32 - 1. *)
Definition array_index (k : string) : option N :=
  match Str.to_N k with
  | Some n =>
      if (String.eqb (Str.of_N n) k && (n <? 4294967295)%N)%bool then Some n else None
  | None => None
  end.

Fixpoint insert_index {V} (n : N) (kv : string * V) (l : list (N * (string * V)))
  : list (N * (string * V)) :=
  match l with
  | [] => [(n, kv)]
  | (m, kv') :: tl =>
      if (n <? m)%N then (n, kv) :: l else (m, kv') :: insert_index n kv tl
  end.

(** [Object.entries(o)] for an object given by its properties in
    creation order: the array indices first, in ascending order, then
    the other keys in creation order. *)
Definition entries {V} (fields : list (string * V)) : list (string * V) :=
  (map snd (fold_left (fun acc kv => match array_index (fst kv) with
                                     | Some n => insert_index n kv acc
                                     | None => acc
                                     end) fields [])
   ++ filter (fun kv => match array_index (fst kv) with
                        | Some _ => false
                        | None => true
                        end) fields)%list.

(** [v.k] for the data keys the sources read (none of them is a built-in
    of String, Number or Array): throws on [undefined] and [null], is
    [undefined] on a missing key and on primitives. *)
Definition prop (v : JsValue) (k : string) : Result JsValue :=
  match v with
  | JUndefined | JNull => Err TypeError
  | JObj fields => Ok (match assoc k fields with Some w => w | None => JUndefined end)
  | _ => Ok JUndefined
  end.

(** [v?.k] *)
Definition opt_prop (v : JsValue) (k : string) : Result JsValue :=
  match v with
  | JUndefined | JNull => Ok JUndefined
  | _ => prop v k
  end.

(** ToBoolean. *)
Definition truthy (v : JsValue) : bool :=
  match v with
  | JUndefined | JNull => false
  | JBool b => b
  | JNum x => negb (PrimFloat.is_zero x || PrimFloat.is_nan x)
  | JStr s => negb (String.eqb s "")
  | JArr _ | JObj _ => true
  end.

(** [a || b] *)
Definition or (a b : JsValue) : JsValue := if truthy a then a else b.

(** [v.map(f)]: only arrays have [map]. *)
Definition array_map (v : JsValue) (f : JsValue -> Result JsValue) : Result JsValue :=
  match v with
  | JArr items => let? out := mapR f items in Ok (JArr out)
  | _ => Err TypeError
  end.

(** The integer a float denotes, when it denotes one. *)
Definition integer_value (x : float) : option Z :=
  match Prim2SF x with
  | S754_zero _ => Some 0%Z
  | S754_finite neg m e =>
      let signed (z : Z) := if neg then (- z)%Z else z in
      if (0 <=? e)%Z then Some (signed (Zpos m * 2 ^ e)%Z)
      else if (Zpos m mod 2 ^ (- e) =? 0)%Z then Some (signed (Zpos m / 2 ^ (- e))%Z)
      else None
  | _ => None
  end.

(** [Number.isInteger(x)] *)
Definition isInteger (x : float) : bool :=
  match integer_value x with Some _ => true | None => false end.

(** Number::toString: decided here on NaN, the infinities and the safe
    integers (below 2^53 in magnitude, written with all their digits),
    the engine's shortest-digits generation elsewhere. *)
Definition NumberToString `{Builtins} (x : float) : string :=
  if PrimFloat.is_nan x then "NaN"
  else if PrimFloat.eqb x PrimFloat.infinity then "Infinity"
  else if PrimFloat.eqb x PrimFloat.neg_infinity then "-Infinity"
  else match integer_value x with
       | Some z => if (Z.abs z <? 2 ^ 53)%Z then Str.of_Z z else NumberToString_other x
       | None => NumberToString_other x
       end.

(** The magnitude [m * 2^e] is below 10^21. *)
Definition below_1e21 (m : positive) (e : Z) : bool :=
  if (0 <=? e)%Z then (Zpos m * 2 ^ e <? 10 ^ 21)%Z
  else (Zpos m <? 10 ^ 21 * 2 ^ (- e))%Z.

(** The integer nearest to [10 * m * 2^e], the larger one on a tie. *)
Definition nearest_tenths (m : positive) (e : Z) : Z :=
  if (0 <=? e)%Z then (10 * Zpos m * 2 ^ e)%Z
  else ((2 * 10 * Zpos m + 2 ^ (- e)) / (2 * 2 ^ (- e)))%Z.

(** [x.toFixed(1)]: the integer [n] nearest to [10 * |x|], written with
    its last digit after the point; the sign is kept even when [n] is 0;
    not finite or from 10^21 on, Number::toString. *)
Definition toFixed1 `{Builtins} (x : float) : string :=
  match Prim2SF x with
  | S754_zero _ => "0.0"
  | S754_finite neg m e =>
      if below_1e21 m e
      then let n := nearest_tenths m e in
           (if neg then "-" else "")
             ++ Str.of_N (Z.to_N (n / 10)) ++ "." ++ Str.of_N (Z.to_N (n mod 10))
      else NumberToString x
  | _ => NumberToString x
  end.

(** Finite and of magnitude below 10^21: where [toFixed] writes
    fixed-point digits. *)
Definition fixed_range (x : float) : bool :=
  match Prim2SF x with
  | S754_zero _ => true
  | S754_finite _ m e => below_1e21 m e
  | _ => false
  end.

Definition join (sep : string) (l : list string) : string := String.concat sep l.

(** ToString, arrays through [join(",")], plain objects as
    "[object Object]". *)
Fixpoint ToString `{Builtins} (v : JsValue) : string :=
  match v with
  | JUndefined => "undefined"
  | JNull => "null"
  | JBool b => if b then "true" else "false"
  | JNum x => NumberToString x
  | JStr s => s
  | JArr items =>
      join "," (map (fun i => match i with
                              | JUndefined | JNull => ""
                              | _ => ToString i
                              end) items)
  | JObj _ => "[object Object]"
  end.

(** ToNumber. *)
Definition ToNumber `{Builtins} (v : JsValue) : float :=
  match v with
  | JUndefined => PrimFloat.nan
  | JNull => PrimFloat.zero
  | JBool b => if b then PrimFloat.one else PrimFloat.zero
  | JNum x => x
  | JStr s => StringToNumber s
  | JArr _ | JObj _ => StringToNumber (ToString v)
  end.

(** The JSON document that [JSON.stringify(v, null, 2)] writes, as a
    value (the text layout is left out): properties holding [undefined]
    are dropped, [undefined] array items and non-finite numbers become
    [null], and -0 is written 0. *)
Fixpoint json_of (v : JsValue) : JsValue :=
  match v with
  | JNum x =>
      if PrimFloat.is_finite x
      then JNum (if PrimFloat.is_zero x then PrimFloat.zero else x)
      else JNull
  | JArr items =>
      JArr (map (fun i => match json_of i with
                          | JUndefined => JNull
                          | w => w
                          end) items)
  | JObj fields =>
      JObj ((fix props (l : list (string * JsValue)) : list (string * JsValue) :=
               match l with
               | [] => []
               | (k, w) :: tl =>
                   match json_of w with
                   | JUndefined => props tl
                   | w' => (k, w') :: props tl
                   end
               end) fields)
  | other => other
  end.

(** Keys of an object, in order. *)
Definition keys (v : JsValue) : list string :=
  match v with
  | JObj fields => map fst fields
  | _ => []
  end.


End Js.

(* ================================================================== *)
(** * The network, and computations that use it *)

Module Http.

(** What [fetch] is given: the method, the URL ([url.toString()], kept
    as the record it serialises), the headers and the body. *)
Record Request := {
  method : string;
  url : URL.t;
  headers : list (string * string);
  body : option JsValue
}.

(** The search parameters of the URL of a request. *)
Definition searchParams (r : Request) : list (string * string) := URL.query (url r).

(** [searchParams.set(k, v)]: the first pair named [k] takes the value
    and the other pairs named [k] are removed; without such a pair, one
    is appended. *)
Fixpoint searchParams_set (k v : string) (q : list (string * string))
  : list (string * string) :=
  match q with
  | [] => [(k, v)]
  | (k', v') :: tl =>
      if String.eqb k k'
      then (k, v) :: filter (fun kv => negb (String.eqb k (fst kv))) tl
      else (k', v') :: searchParams_set k v tl
  end.

(** What [fetch] resolves to: the status, and the body as
    [response.json()] parses it ([None]: the body is not JSON). *)
Record Response := {
  status : Z;
  json : option JsValue
}.

(** [response.ok] *)
Definition ok (r : Response) : bool :=
  ((200 <=? status r) && (status r <=? 299))%Z.

End Http.

(** The remote platform: [None] when [fetch] rejects. *)
Definition Remote := Http.Request -> option Http.Response.

(** A computation: given the remote, the requests issued, in order,
    and the value returned or the error thrown. *)
Definition M (A : Type) : Type := Remote -> list Http.Request * Result A.

Definition ret {A} (a : A) : M A := fun _ => ([], Ok a).

Definition throw {A} (e : JsError) : M A := fun _ => ([], Err e).

Definition lift {A} (r : Result A) : M A := fun _ => ([], r).

Definition bind {A B} (m : M A) (k : A -> M B) : M B :=
  fun remote =>
    match m remote with
    | (sent, Ok a) => let (sent', r) := k a remote in ((sent ++ sent')%list, r)
    | (sent, Err e) => (sent, Err e)
    end.

Notation "'let!' x ':=' m 'in' k" := (bind m (fun x => k))
  (at level 10, x name, m at level 200, k at level 200).

(** [await fetch(url, init)] *)
Definition fetch (request : Http.Request) : M Http.Response :=
  fun remote =>
    ([request], match remote request with
                | Some response => Ok response
                | None => Err NetworkError
                end).

(** [await response.json()] *)
Definition response_json (response : Http.Response) : M JsValue :=
  match Http.json response with
  | Some data => ret data
  | None => throw SyntaxError
  end.

Definition requests {A} (out : list Http.Request * Result A) : list Http.Request := fst out.
Definition outcome {A} (out : list Http.Request * Result A) : Result A := snd out.

(** [new URL(s)]: the constructor throws a TypeError on what it does
    not take for a URL. *)
Definition new_URL `{Builtins} (s : string) : Result URL.t :=
  match URL_parse s with
  | Some url => Ok url
  | None => Err TypeError
  end.

(** [searchParams.set] for each pair of [entries], in order, on the
    pairs [q]. *)
Definition set_all (entries q : list (string * string)) : list (string * string) :=
  fold_left (fun q kv => Http.searchParams_set (fst kv) (snd kv) q) entries q.

(** A URL with search parameters set on it, one after the other. *)
Definition with_entries (url : URL.t) (entries : list (string * string)) : URL.t :=
  {| URL.location := URL.location url;
     URL.query := set_all entries (URL.query url);
     URL.fragment := URL.fragment url |}.

(** [if (params) for (const [key, value] of Object.entries(params))
    url.searchParams.set(key, value)] *)
Definition with_params (url : URL.t) (params : option (list (string * string))) : URL.t :=
  match params with
  | Some o => with_entries url (Js.entries o)
  | None => url
  end.

(** [...(body ? { body: JSON.stringify(body) } : {})] *)
Definition body_of (body : option JsValue) : option JsValue :=
  match body with
  | Some b => if Js.truthy b then Some (Js.json_of b) else None
  | None => None
  end.

(* ================================================================== *)
(** * src/services/mailchimp-client.ts *)

(** [process.env.MAILCHIMP_API_KEY]: a string, or [undefined]. *)
Definition Env := option string.

Module Client.

(** [const API_KEY = process.env.MAILCHIMP_API_KEY || ""] *)
Definition API_KEY (env : Env) : string := Str.or_else env "".

(** [const DATA_CENTER = API_KEY.split("-").pop() || "us1"] *)
Definition DATA_CENTER (env : Env) : string :=
  Str.or_else (Str.pop (Str.split "-" (API_KEY env))) "us1".

(** [const BASE_URL = `https://${DATA_CENTER}.api.mailchimp.com/3.0`] *)
Definition BASE_URL (env : Env) : string :=
  "https://" ++ DATA_CENTER env ++ ".api.mailchimp.com/3.0".

Record MailchimpRequestOptions := {
  method : string;
  path : string;
  body : option JsValue;
  params : option (list (string * string))
}.

Definition not_set : string :=
  "MAILCHIMP_API_KEY environment variable is not set. Format: <key>-<dc> (e.g., abc123-us14)".

(** [export async function mailchimpRequest<T>(options)].  In
    [data.detail || data.title || "Unknown error"] both properties are
    read here before the choice: reading either throws exactly when
    [data] is [null], so the outcome is the one of the short-circuit. *)
Definition mailchimpRequest `{Builtins} (env : Env) (options : MailchimpRequestOptions)
  : M JsValue :=
  if String.eqb (API_KEY env) "" then throw (Error not_set)
  else
    let! url := lift (new_URL (BASE_URL env ++ path options)) in
    let! response := fetch {|
      Http.method := method options;
      Http.url := with_params url (params options);
      Http.headers := [("Authorization", "Bearer " ++ API_KEY env);
                       ("Content-Type", "application/json")];
      Http.body := body_of (body options) |} in
    if (Http.status response =? 204)%Z then ret (JObj [])
    else
      let! data := response_json response in
      if negb (Http.ok response) then
        let! detail := lift (Js.prop data "detail") in
        let! title := lift (Js.prop data "title") in
        let errorDetail := Js.or (Js.or detail title) (JStr "Unknown error") in
        throw (Error ("Mailchimp API error (" ++ Str.of_Z (Http.status response)
                        ++ "): " ++ Js.ToString errorDetail))
      else ret data.

End Client.

(* ================================================================== *)
(** * Input contracts *)

Definition Args := list (string * JsValue).

Module Zod.

(** A schema reads a value or refuses it. *)
Definition Schema (T : Type) : Type := JsValue -> option T.

(** [z.string()] *)
Definition string : Schema String.string :=
  fun v => match v with JStr s => Some s | _ => None end.

(** [z.string().email()] *)
Definition email `{Builtins} : Schema String.string :=
  fun v => match v with
           | JStr s => if email_test s then Some s else None
           | _ => None
           end.

(** [z.enum(values)] *)
Definition enum (values : list String.string) : Schema String.string :=
  fun v => match v with
           | JStr s => if existsb (String.eqb s) values then Some s else None
           | _ => None
           end.

(** [z.number().int().min(lo).max(hi)] *)
Definition number_int_min_max (lo hi : float) : Schema float :=
  fun v => match v with
           | JNum x =>
               if PrimFloat.is_nan x then None
               else if negb (Js.isInteger x) then None
               else if PrimFloat.ltb x lo then None
               else if PrimFloat.ltb hi x then None
               else Some x
           | _ => None
           end.

(** [z.array(item).min(lo).max(hi)] *)
Definition array_min_max {T} (item : Schema T) (lo hi : nat) : Schema (list T) :=
  fun v => match v with
           | JArr items =>
               if (List.length items <? lo)%nat then None
               else if (hi <? List.length items)%nat then None
               else (fix all (l : list JsValue) : option (list T) :=
                       match l with
                       | [] => Some []
                       | i :: tl =>
                           match item i, all tl with
                           | Some t, Some ts => Some (t :: ts)
                           | _, _ => None
                           end
                       end) items
           | _ => None
           end.

(** [schema.optional()] *)
Definition optional {T} (schema : Schema T) : Schema (option T) :=
  fun v => match v with
           | JUndefined => Some None
           | _ => option_map Some (schema v)
           end.

(** [schema.default(value)] *)
Definition default {T} (schema : Schema T) (value : T) : Schema T :=
  fun v => match v with
           | JUndefined => Some value
           | _ => schema v
           end.

(** Validation of an object shape: the fields refused so far, and the
    value when none was. *)
Definition V (T : Type) : Type := (list String.string * option T)%type.

Definition pure {T} (t : T) : V T := ([], Some t).

Definition ap {A B} (f : V (A -> B)) (a : V A) : V B :=
  ((fst f ++ fst a)%list,
   match snd f, snd a with
   | Some g, Some x => Some (g x)
   | _, _ => None
   end).

(** One entry [name: schema] of the shape, read from the arguments (a
    missing argument is [undefined]). *)
Definition field {T} (args : Args) (name : String.string) (schema : Schema T) : V T :=
  let v := match Js.assoc name args with Some w => w | None => JUndefined end in
  match schema v with
  | Some t => ([], Some t)
  | None => ([name], None)
  end.

Definition safeParse {T} (v : V T) : Result T :=
  match v with
  | (_, Some t) => Ok t
  | (issues, None) => Err (InvalidParams issues)
  end.

End Zod.

Notation "f <*> a" := (Zod.ap f a) (at level 40, left associativity).

(** A registered tool: its input contract is checked, then its handler
    runs on the validated arguments. *)
Definition Tool := Args -> M JsValue.

Definition registerTool {T} (name : string) (inputSchema : Args -> Zod.V T)
  (handler : T -> M JsValue) : string * Tool :=
  (name, fun args => let! input := lift (Zod.safeParse (inputSchema args)) in handler input).

Fixpoint callTool (server : list (string * Tool)) (name : string) (args : Args) : M JsValue :=
  match server with
  | [] => throw (Error ("Tool " ++ name ++ " not found"))
  | (n, tool) :: tl => if String.eqb name n then tool args else callTool tl name args
  end.

(** The text block of a tool result: [JSON.stringify(summary, null, 2)]. *)
Definition content_text (summary : JsValue) : M JsValue := ret (Js.json_of summary).

(** [`${(v * 100).toFixed(1)}%`] *)
Definition percent `{Builtins} (v : JsValue) : string :=
  Js.toFixed1 (PrimFloat.mul (Js.ToNumber v) 100) ++ "%".

(** The operations of the catalog. *)
Inductive Operation : Type :=
| ListAudiences | ListCampaigns | CreateCampaign | SetContent | SendTest
| SendCampaign | ScheduleCampaign | GetReport | DeleteCampaign.

(* ================================================================== *)
(** * src/index.ts: the catalog of the standalone server *)

Module Index.
Section Catalog.
Context `{Builtins}.
Variable env : Env.

Definition request (method path : string) (body : option JsValue)
  (params : option (list (string * string))) : M JsValue :=
  Client.mailchimpRequest env
    {| Client.method := method; Client.path := path;
       Client.body := body; Client.params := params |}.

(** The arrow function mapped over [data.lists]. *)
Definition audience_summary (l : JsValue) : Result JsValue :=
  let? id := Js.prop l "id" in
  let? name := Js.prop l "name" in
  let? stats := Js.prop l "stats" in
  let? member_count := Js.prop stats "member_count" in
  let? open_rate := Js.prop stats "open_rate" in
  let? click_rate := Js.prop stats "click_rate" in
  Ok (JObj [("id", id);
            ("name", name);
            ("subscribers", member_count);
            ("open_rate", JStr (percent open_rate));
            ("click_rate", JStr (percent click_rate))]).

(** Tool: List Audiences *)
Definition list_audiences (_ : unit) : M JsValue :=
  let! data := request "GET" "/lists" None
                 (Some [("count", "100"); ("fields", "lists.id,lists.name,lists.stats")]) in
  let! summary := lift (
    let? lists := Js.prop data "lists" in
    Js.array_map lists audience_summary) in
  content_text summary.

(** The arrow function mapped over [data.campaigns]. *)
Definition campaign_summary (c : JsValue) : Result JsValue :=
  let? id := Js.prop c "id" in
  let? settings := Js.prop c "settings" in
  let? title := Js.prop settings "title" in
  let? subject_line := Js.prop settings "subject_line" in
  let? status := Js.prop c "status" in
  let? create_time := Js.prop c "create_time" in
  let? send_time := Js.prop c "send_time" in
  let? emails_sent := Js.prop c "emails_sent" in
  let? report_summary := Js.prop c "report_summary" in
  let? unique_opens := Js.opt_prop report_summary "unique_opens" in
  let? subscriber_clicks := Js.opt_prop report_summary "subscriber_clicks" in
  Ok (JObj [("id", id);
            ("title", Js.or title (JStr "(untitled)"));
            ("subject", Js.or subject_line (JStr "(no subject)"));
            ("status", status);
            ("created", create_time);
            ("sent", Js.or send_time JNull);
            ("emails_sent", Js.or emails_sent JNull);
            ("opens", Js.or unique_opens JNull);
            ("clicks", Js.or subscriber_clicks JNull)]).

(** Tool: List Campaigns *)
Definition list_campaigns (input : option string * float) : M JsValue :=
  let (status, count) := input in
  let params := [("count", Js.NumberToString count);
                 ("sort_field", "create_time");
                 ("sort_dir", "DESC")] in
  let params := match status with
                | Some s => if Js.truthy (JStr s) then Js.set "status" s params else params
                | None => params
                end in
  let! data := request "GET" "/campaigns" None (Some params) in
  let! summary := lift (
    let? campaigns := Js.prop data "campaigns" in
    Js.array_map campaigns campaign_summary) in
  content_text summary.

(** The body that create-campaign posts. *)
Definition create_campaign_body (list_id subject : string)
  (preview_text title : option string) (from_name reply_to : string) : JsValue :=
  JObj [("type", JStr "regular");
        ("recipients", JObj [("list_id", JStr list_id)]);
        ("settings", JObj [("subject_line", JStr subject);
                           ("preview_text", JStr (Str.or_else preview_text ""));
                           ("title", JStr (Str.or_else title subject));
                           ("from_name", JStr from_name);
                           ("reply_to", JStr reply_to)])].

(** Tool: Create Campaign *)
Definition create_campaign
  (input : string * string * option string * option string * string * string) : M JsValue :=
  let '(list_id, subject, preview_text, title, from_name, reply_to) := input in
  let! campaign := request "POST" "/campaigns"
                     (Some (create_campaign_body list_id subject preview_text title
                              from_name reply_to)) None in
  let! summary := lift (
    let? id := Js.prop campaign "id" in
    let? status := Js.prop campaign "status" in
    let? settings := Js.prop campaign "settings" in
    let? subject_line := Js.prop settings "subject_line" in
    let? title := Js.prop settings "title" in
    Ok (JObj [("campaign_id", id);
              ("status", status);
              ("subject", subject_line);
              ("title", title);
              ("message", JStr "Campaign draft created. Use mailchimp_set_campaign_content to add HTML, then mailchimp_send_test or mailchimp_send_campaign.")])) in
  content_text summary.

(** Tool: Set Campaign Content *)
Definition set_campaign_content (input : string * string) : M JsValue :=
  let (campaign_id, html) := input in
  let! _ := request "PUT" ("/campaigns/" ++ campaign_id ++ "/content")
              (Some (JObj [("html", JStr html)])) None in
  content_text (JObj [("campaign_id", JStr campaign_id);
                      ("message", JStr "HTML content set successfully. Use mailchimp_send_test to preview, or mailchimp_send_campaign to send to your full list.")]).

(** Tool: Send Test Email *)
Definition send_test (input : string * list string * string) : M JsValue :=
  let '(campaign_id, test_emails, send_type) := input in
  let! _ := request "POST" ("/campaigns/" ++ campaign_id ++ "/actions/test")
              (Some (JObj [("test_emails", JArr (map JStr test_emails));
                           ("send_type", JStr send_type)])) None in
  content_text (JObj [("campaign_id", JStr campaign_id);
                      ("sent_to", JArr (map JStr test_emails));
                      ("message", JStr "Test email sent. Check your inbox to preview.")]).

(** Tool: Send Campaign *)
Definition send_campaign (campaign_id : string) : M JsValue :=
  let! _ := request "POST" ("/campaigns/" ++ campaign_id ++ "/actions/send") None None in
  content_text (JObj [("campaign_id", JStr campaign_id);
                      ("message", JStr "Campaign sent! It may take a few minutes to deliver to all subscribers.")]).

(** Tool: Schedule Campaign *)
Definition schedule_campaign (input : string * string) : M JsValue :=
  let (campaign_id, schedule_time) := input in
  let! _ := request "POST" ("/campaigns/" ++ campaign_id ++ "/actions/schedule")
              (Some (JObj [("schedule_time", JStr schedule_time)])) None in
  content_text (JObj [("campaign_id", JStr campaign_id);
                      ("scheduled_for", JStr schedule_time);
                      ("message", JStr "Campaign scheduled successfully.")]).

(** The [summary] object of the report tool. *)
Definition report_summary (campaign_id : string) (report : JsValue) : Result JsValue :=
  let? subject_line := Js.prop report "subject_line" in
  let? emails_sent := Js.prop report "emails_sent" in
  let? opens := Js.prop report "opens" in
  let? unique_opens := Js.opt_prop opens "unique_opens" in
  let? open_rate := Js.opt_prop opens "open_rate" in
  let? clicks := Js.prop report "clicks" in
  let? unique_subscriber_clicks := Js.opt_prop clicks "unique_subscriber_clicks" in
  let? click_rate := Js.opt_prop clicks "click_rate" in
  let? bounces := Js.prop report "bounces" in
  let? unsubscribed := Js.prop report "unsubscribed" in
  Ok (JObj [("campaign_id", JStr campaign_id);
            ("subject", subject_line);
            ("emails_sent", emails_sent);
            ("opens", unique_opens);
            ("open_rate", open_rate);
            ("clicks", unique_subscriber_clicks);
            ("click_rate", click_rate);
            ("bounces", bounces);
            ("unsubscribes", unsubscribed)]).

(** Tool: Get Campaign Report *)
Definition get_campaign_report (campaign_id : string) : M JsValue :=
  let! report := request "GET" ("/reports/" ++ campaign_id) None None in
  let! summary := lift (report_summary campaign_id report) in
  content_text summary.

(** Tool: Delete Campaign *)
Definition delete_campaign (campaign_id : string) : M JsValue :=
  let! _ := request "DELETE" ("/campaigns/" ++ campaign_id) None None in
  content_text (JObj [("campaign_id", JStr campaign_id);
                      ("message", JStr "Campaign deleted.")]).

(** The [server.registerTool] calls, with their [inputSchema]. *)
Definition server : list (string * Tool) :=
  [ registerTool "mailchimp_list_audiences"
      (fun _ => Zod.pure tt)
      list_audiences;
    registerTool "mailchimp_list_campaigns"
      (fun args => Zod.pure pair
         <*> Zod.field args "status"
               (Zod.optional (Zod.enum ["save"; "sent"; "schedule"; "sending"; "paused"]))
         <*> Zod.field args "count"
               (Zod.default (Zod.number_int_min_max 1%float 100%float) 20%float))
      list_campaigns;
    registerTool "mailchimp_create_campaign"
      (fun args => Zod.pure (fun a b c d e f => (a, b, c, d, e, f))
         <*> Zod.field args "list_id" Zod.string
         <*> Zod.field args "subject" Zod.string
         <*> Zod.field args "preview_text" (Zod.optional Zod.string)
         <*> Zod.field args "title" (Zod.optional Zod.string)
         <*> Zod.field args "from_name" Zod.string
         <*> Zod.field args "reply_to" Zod.email)
      create_campaign;
    registerTool "mailchimp_set_campaign_content"
      (fun args => Zod.pure pair
         <*> Zod.field args "campaign_id" Zod.string
         <*> Zod.field args "html" Zod.string)
      set_campaign_content;
    registerTool "mailchimp_send_test"
      (fun args => Zod.pure (fun a b c => (a, b, c))
         <*> Zod.field args "campaign_id" Zod.string
         <*> Zod.field args "test_emails" (Zod.array_min_max Zod.email 1 5)
         <*> Zod.field args "send_type"
               (Zod.default (Zod.enum ["html"; "plaintext"]) "html"))
      send_test;
    registerTool "mailchimp_send_campaign"
      (fun args => Zod.field args "campaign_id" Zod.string)
      send_campaign;
    registerTool "mailchimp_schedule_campaign"
      (fun args => Zod.pure pair
         <*> Zod.field args "campaign_id" Zod.string
         <*> Zod.field args "schedule_time" Zod.string)
      schedule_campaign;
    registerTool "mailchimp_get_campaign_report"
      (fun args => Zod.field args "campaign_id" Zod.string)
      get_campaign_report;
    registerTool "mailchimp_delete_campaign"
      (fun args => Zod.field args "campaign_id" Zod.string)
      delete_campaign ].

Definition name (op : Operation) : string :=
  match op with
  | ListAudiences => "mailchimp_list_audiences"
  | ListCampaigns => "mailchimp_list_campaigns"
  | CreateCampaign => "mailchimp_create_campaign"
  | SetContent => "mailchimp_set_campaign_content"
  | SendTest => "mailchimp_send_test"
  | SendCampaign => "mailchimp_send_campaign"
  | ScheduleCampaign => "mailchimp_schedule_campaign"
  | GetReport => "mailchimp_get_campaign_report"
  | DeleteCampaign => "mailchimp_delete_campaign"
  end.

(** One tool invocation. *)
Definition invoke (op : Operation) (args : Args) : M JsValue :=
  callTool server (name op) args.

End Catalog.
End Index.

(* ================================================================== *)
(** * api/mcp.ts: the catalog of the serverless function *)

Module Api.
Section Catalog.
Context `{Builtins}.
Variable env : Env.

Record ApiConfig := { apiKey : string; baseUrl : string }.

(** [function getApiConfig()] *)
Definition getApiConfig : ApiConfig :=
  let apiKey := Str.or_else env "" in
  let dc := Str.or_else (Str.pop (Str.split "-" apiKey)) "us1" in
  {| apiKey := apiKey;
     baseUrl := "https://" ++ dc ++ ".api.mailchimp.com/3.0" |}.

(** [async function mc(method, path, body?, params?)] *)
Definition mc (method path : string) (body : option JsValue)
  (params : option (list (string * string))) : M JsValue :=
  let (apiKey, baseUrl) := getApiConfig in
  if String.eqb apiKey "" then throw (Error "MAILCHIMP_API_KEY not set. Format: <key>-<dc>")
  else
    let! url := lift (new_URL (baseUrl ++ path)) in
    let! res := fetch {|
      Http.method := method;
      Http.url := with_params url params;
      Http.headers := [("Authorization", "Bearer " ++ apiKey);
                       ("Content-Type", "application/json")];
      Http.body := body_of body |} in
    if (Http.status res =? 204)%Z then ret (JObj [])
    else
      let! data := response_json res in
      if negb (Http.ok res) then
        let! detail := lift (Js.prop data "detail") in
        let! title := lift (Js.prop data "title") in
        throw (Error ("Mailchimp " ++ Str.of_Z (Http.status res) ++ ": "
                        ++ Js.ToString (Js.or (Js.or detail title) (JStr "Error"))))
      else ret data.

Definition audience_summary (l : JsValue) : Result JsValue :=
  let? id := Js.prop l "id" in
  let? name := Js.prop l "name" in
  let? stats := Js.prop l "stats" in
  let? member_count := Js.prop stats "member_count" in
  let? open_rate := Js.prop stats "open_rate" in
  let? click_rate := Js.prop stats "click_rate" in
  Ok (JObj [("id", id); ("name", name); ("subscribers", member_count);
            ("open_rate", JStr (percent open_rate));
            ("click_rate", JStr (percent click_rate))]).

Definition list_audiences (_ : unit) : M JsValue :=
  let! data := mc "GET" "/lists" None
                 (Some [("count", "100"); ("fields", "lists.id,lists.name,lists.stats")]) in
  let! out := lift (
    let? lists := Js.prop data "lists" in
    Js.array_map lists audience_summary) in
  content_text out.

Definition campaign_summary (c : JsValue) : Result JsValue :=
  let? id := Js.prop c "id" in
  let? settings := Js.prop c "settings" in
  let? title := Js.prop settings "title" in
  let? subject_line := Js.prop settings "subject_line" in
  let? status := Js.prop c "status" in
  let? create_time := Js.prop c "create_time" in
  let? send_time := Js.prop c "send_time" in
  let? emails_sent := Js.prop c "emails_sent" in
  let? report_summary := Js.prop c "report_summary" in
  let? unique_opens := Js.opt_prop report_summary "unique_opens" in
  let? subscriber_clicks := Js.opt_prop report_summary "subscriber_clicks" in
  Ok (JObj [("id", id);
            ("title", Js.or title (JStr "(untitled)"));
            ("subject", Js.or subject_line (JStr "(no subject)"));
            ("status", status); ("created", create_time);
            ("sent", Js.or send_time JNull);
            ("emails_sent", Js.or emails_sent JNull);
            ("opens", Js.or unique_opens JNull);
            ("clicks", Js.or subscriber_clicks JNull)]).

Definition list_campaigns (input : option string * float) : M JsValue :=
  let (status, count) := input in
  let p := [("count", Js.NumberToString count);
            ("sort_field", "create_time"); ("sort_dir", "DESC")] in
  let p := match status with
           | Some s => if Js.truthy (JStr s) then Js.set "status" s p else p
           | None => p
           end in
  let! data := mc "GET" "/campaigns" None (Some p) in
  let! out := lift (
    let? campaigns := Js.prop data "campaigns" in
    Js.array_map campaigns campaign_summary) in
  content_text out.

Definition create_campaign_body (list_id subject : string)
  (preview_text title : option string) (from_name reply_to : string) : JsValue :=
  JObj [("type", JStr "regular");
        ("recipients", JObj [("list_id", JStr list_id)]);
        ("settings", JObj [("subject_line", JStr subject);
                           ("preview_text", JStr (Str.or_else preview_text ""));
                           ("title", JStr (Str.or_else title subject));
                           ("from_name", JStr from_name);
                           ("reply_to", JStr reply_to)])].

Definition create_campaign
  (input : string * string * option string * option string * string * string) : M JsValue :=
  let '(list_id, subject, preview_text, title, from_name, reply_to) := input in
  let! c := mc "POST" "/campaigns"
              (Some (create_campaign_body list_id subject preview_text title
                       from_name reply_to)) None in
  let! out := lift (
    let? id := Js.prop c "id" in
    let? status := Js.prop c "status" in
    let? settings := Js.prop c "settings" in
    let? subject_line := Js.prop settings "subject_line" in
    Ok (JObj [("campaign_id", id); ("status", status); ("subject", subject_line);
              ("next", JStr "Use mailchimp_set_content to add HTML, then mailchimp_send_test or mailchimp_send_campaign.")])) in
  content_text out.

Definition set_content (input : string * string) : M JsValue :=
  let (campaign_id, html) := input in
  let! _ := mc "PUT" ("/campaigns/" ++ campaign_id ++ "/content")
              (Some (JObj [("html", JStr html)])) None in
  content_text (JObj [("campaign_id", JStr campaign_id);
                      ("message", JStr "Content set. Use mailchimp_send_test to preview or mailchimp_send_campaign to send.")]).

Definition send_test (input : string * list string * string) : M JsValue :=
  let '(campaign_id, test_emails, send_type) := input in
  let! _ := mc "POST" ("/campaigns/" ++ campaign_id ++ "/actions/test")
              (Some (JObj [("test_emails", JArr (map JStr test_emails));
                           ("send_type", JStr send_type)])) None in
  content_text (JObj [("campaign_id", JStr campaign_id);
                      ("sent_to", JArr (map JStr test_emails));
                      ("message", JStr "Test email sent. Check your inbox.")]).

Definition send_campaign (campaign_id : string) : M JsValue :=
  let! _ := mc "POST" ("/campaigns/" ++ campaign_id ++ "/actions/send") None None in
  content_text (JObj [("campaign_id", JStr campaign_id);
                      ("message", JStr "Campaign sent! Delivery may take a few minutes.")]).

Definition schedule_campaign (input : string * string) : M JsValue :=
  let (campaign_id, schedule_time) := input in
  let! _ := mc "POST" ("/campaigns/" ++ campaign_id ++ "/actions/schedule")
              (Some (JObj [("schedule_time", JStr schedule_time)])) None in
  content_text (JObj [("campaign_id", JStr campaign_id);
                      ("scheduled_for", JStr schedule_time);
                      ("message", JStr "Scheduled.")]).

Definition report_summary (campaign_id : string) (r : JsValue) : Result JsValue :=
  let? subject_line := Js.prop r "subject_line" in
  let? emails_sent := Js.prop r "emails_sent" in
  let? opens := Js.prop r "opens" in
  let? unique_opens := Js.opt_prop opens "unique_opens" in
  let? open_rate := Js.opt_prop opens "open_rate" in
  let? clicks := Js.prop r "clicks" in
  let? unique_subscriber_clicks := Js.opt_prop clicks "unique_subscriber_clicks" in
  let? click_rate := Js.opt_prop clicks "click_rate" in
  let? unsubscribed := Js.prop r "unsubscribed" in
  Ok (JObj [("campaign_id", JStr campaign_id);
            ("subject", subject_line); ("emails_sent", emails_sent);
            ("opens", unique_opens); ("open_rate", open_rate);
            ("clicks", unique_subscriber_clicks); ("click_rate", click_rate);
            ("unsubscribes", unsubscribed)]).

Definition get_report (campaign_id : string) : M JsValue :=
  let! r := mc "GET" ("/reports/" ++ campaign_id) None None in
  let! out := lift (report_summary campaign_id r) in
  content_text out.

Definition delete_campaign (campaign_id : string) : M JsValue :=
  let! _ := mc "DELETE" ("/campaigns/" ++ campaign_id) None None in
  content_text (JObj [("campaign_id", JStr campaign_id); ("message", JStr "Deleted.")]).

(** [function createServer()] *)
Definition createServer : list (string * Tool) :=
  [ registerTool "mailchimp_list_audiences"
      (fun _ => Zod.pure tt)
      list_audiences;
    registerTool "mailchimp_list_campaigns"
      (fun args => Zod.pure pair
         <*> Zod.field args "status"
               (Zod.optional (Zod.enum ["save"; "sent"; "schedule"; "sending"; "paused"]))
         <*> Zod.field args "count"
               (Zod.default (Zod.number_int_min_max 1%float 100%float) 20%float))
      list_campaigns;
    registerTool "mailchimp_create_campaign"
      (fun args => Zod.pure (fun a b c d e f => (a, b, c, d, e, f))
         <*> Zod.field args "list_id" Zod.string
         <*> Zod.field args "subject" Zod.string
         <*> Zod.field args "preview_text" (Zod.optional Zod.string)
         <*> Zod.field args "title" (Zod.optional Zod.string)
         <*> Zod.field args "from_name" Zod.string
         <*> Zod.field args "reply_to" Zod.email)
      create_campaign;
    registerTool "mailchimp_set_content"
      (fun args => Zod.pure pair
         <*> Zod.field args "campaign_id" Zod.string
         <*> Zod.field args "html" Zod.string)
      set_content;
    registerTool "mailchimp_send_test"
      (fun args => Zod.pure (fun a b c => (a, b, c))
         <*> Zod.field args "campaign_id" Zod.string
         <*> Zod.field args "test_emails" (Zod.array_min_max Zod.email 1 5)
         <*> Zod.field args "send_type"
               (Zod.default (Zod.enum ["html"; "plaintext"]) "html"))
      send_test;
    registerTool "mailchimp_send_campaign"
      (fun args => Zod.field args "campaign_id" Zod.string)
      send_campaign;
    registerTool "mailchimp_schedule_campaign"
      (fun args => Zod.pure pair
         <*> Zod.field args "campaign_id" Zod.string
         <*> Zod.field args "schedule_time" Zod.string)
      schedule_campaign;
    registerTool "mailchimp_get_report"
      (fun args => Zod.field args "campaign_id" Zod.string)
      get_report;
    registerTool "mailchimp_delete_campaign"
      (fun args => Zod.field args "campaign_id" Zod.string)
      delete_campaign ].

Definition name (op : Operation) : string :=
  match op with
  | ListAudiences => "mailchimp_list_audiences"
  | ListCampaigns => "mailchimp_list_campaigns"
  | CreateCampaign => "mailchimp_create_campaign"
  | SetContent => "mailchimp_set_content"
  | SendTest => "mailchimp_send_test"
  | SendCampaign => "mailchimp_send_campaign"
  | ScheduleCampaign => "mailchimp_schedule_campaign"
  | GetReport => "mailchimp_get_report"
  | DeleteCampaign => "mailchimp_delete_campaign"
  end.

(** One tool invocation. *)
Definition invoke (op : Operation) (args : Args) : M JsValue :=
  callTool createServer (name op) args.

End Catalog.
End Api.

(* ================================================================== *)
(** * Statements: auxiliary definitions *)

(** Lower-case letters and digits. *)
Definition is_lower (c : ascii) : bool :=
  ((97 <=? nat_of_ascii c) && (nat_of_ascii c <=? 122))%nat.

Definition is_plain (c : ascii) : bool :=
  (is_lower c || ((48 <=? nat_of_ascii c) && (nat_of_ascii c <=? 57))%nat)%bool.

Fixpoint all_plain (s : string) : bool :=
  match s with
  | EmptyString => true
  | String c rest => is_plain c && all_plain rest
  end.

Fixpoint all_lower (s : string) : bool :=
  match s with
  | EmptyString => true
  | String c rest => is_lower c && all_lower rest
  end.

(** A plain address: letters and digits, an at sign, labels of letters
    and digits separated by dots, the last one of two letters or more.
    [z.string().email()] accepts every plain address. *)
Definition plain_address (s : string) : bool :=
  match Str.split "@" s with
  | [local; domain] =>
      let labels := Str.split "." domain in
      negb (String.eqb local "") && all_plain local
      && (2 <=? List.length labels)%nat
      && forallb (fun l => negb (String.eqb l "") && all_plain l) labels
      && match Str.pop labels with
         | Some top => all_lower top && (2 <=? String.length top)%nat
         | None => false
         end
  | _ => false
  end.

(** A plain host, read up to the first slash: labels of letters and
    digits separated by dots, the last one starting with a letter.
    [fresh] says that a label is to start, [named] that the current
    label started with a letter. *)
Fixpoint plain_host (fresh named : bool) (s : string) : bool :=
  match s with
  | EmptyString => false
  | String c rest =>
      if Ascii.eqb c "/" then negb fresh && named
      else if Ascii.eqb c "." then negb fresh && plain_host true false rest
      else is_plain c && plain_host false (if fresh then is_lower c else named) rest
  end.

(** What follows the prefix [pre] in [s]. *)
Fixpoint after (pre s : string) : option string :=
  match pre, s with
  | EmptyString, _ => Some s
  | String a pre', String b s' => if Ascii.eqb a b then after pre' s' else None
  | String _ _, EmptyString => None
  end.

(** The URL of a string that is https, a plain host and a path, kept as
    it stands. *)
Definition plain_URL (s : string) : option URL.t :=
  match after "https://" s with
  | Some rest =>
      if plain_host true false rest
      then Some {| URL.location := s; URL.query := []; URL.fragment := "" |}
      else None
  | None => None
  end.

(** An engine for closed examples.  It accepts the plain addresses only,
    and takes for a URL the strings with a plain host only, which
    [new URL] accepts whatever the path; it then keeps the string as it
    stands, which is what [new URL] does when the path is made of
    letters, digits, slashes and single dots inside a segment, as in
    every closed example.  None of the examples reaches the digit
    generation, the string-to-number conversion, an address that is not
    plain but passes [z.string().email()], or a path that [new URL]
    rewrites. *)
Definition example_builtins : Builtins :=
  {| NumberToString_other := fun _ => "";
     StringToNumber := fun _ => PrimFloat.nan;
     email_test := plain_address;
     URL_parse := plain_URL |}.

(** A remote that answers every request with the same response. *)
Definition always (status : Z) (json : option JsValue) : Remote :=
  fun _ => Some {| Http.status := status; Http.json := json |}.

(** [new URL] takes the endpoint followed by any path for a URL: the
    region names a host.  (The path cannot make the constructor throw,
    it follows the slash that ends the host.) *)
Definition resolves `{Builtins} (env : Env) : Prop :=
  forall path, URL_parse (Client.BASE_URL env ++ path) <> None.

(** The URL that [new URL] makes of the endpoint followed by a path,
    when it makes one. *)
Definition resolved `{Builtins} (env : Env) (path : string) : URL.t :=
  match URL_parse (Client.BASE_URL env ++ path) with
  | Some url => url
  | None => {| URL.location := ""; URL.query := []; URL.fragment := "" |}
  end.

(** The request that the client issues for given options on the URL
    that the constructor gave it. *)
Definition request_with (env : Env) (options : Client.MailchimpRequestOptions)
  (url : URL.t) : Http.Request :=
  {| Http.method := Client.method options;
     Http.url := with_params url (Client.params options);
     Http.headers := [("Authorization", "Bearer " ++ Client.API_KEY env);
                      ("Content-Type", "application/json")];
     Http.body := body_of (Client.body options) |}.

(** The request that the client issues for given options, when it
    issues one. *)
Definition request_of `{Builtins} (env : Env) (options : Client.MailchimpRequestOptions)
  : Http.Request :=
  request_with env options (resolved env (Client.path options)).

(** The field [k] of a value that is neither [null] nor [undefined]:
    [undefined] when missing, and on everything but objects. *)
Definition field_of (data : JsValue) (k : string) : JsValue :=
  match data with
  | JObj fields => match Js.assoc k fields with Some v => v | None => JUndefined end
  | _ => JUndefined
  end.

(** The specification's reading of the failure detail: the body's
    [detail] field, else its [title] field, else a generic message. *)
Definition detail_else_title (data : JsValue) (generic : string) : JsValue :=
  if Js.truthy (field_of data "detail") then field_of data "detail"
  else if Js.truthy (field_of data "title") then field_of data "title"
  else JStr generic.

(** What either client makes of the answer to its request; the two
    differ in the wording of the failure only. *)
Definition settle `{Builtins} (wording : Z -> string -> string) (generic : string)
  (answer : option Http.Response) : Result JsValue :=
  match answer with
  | None => Err NetworkError
  | Some response =>
      if (Http.status response =? 204)%Z then Ok (JObj [])
      else match Http.json response with
           | None => Err SyntaxError
           | Some data =>
               if Http.ok response then Ok data
               else match data with
                    | JUndefined | JNull => Err TypeError
                    | _ => Err (Error (wording (Http.status response)
                                         (Js.ToString (detail_else_title data generic))))
                    end
           end
  end.

(** The wording of a remote failure in the client module ... *)
Definition client_wording (status : Z) (detail : string) : string :=
  "Mailchimp API error (" ++ Str.of_Z status ++ "): " ++ detail.

(** ... and in the serverless function. *)
Definition api_wording (status : Z) (detail : string) : string :=
  "Mailchimp " ++ Str.of_Z status ++ ": " ++ detail.

(** The computation returned a value. *)
Definition succeeds {A} (out : list Http.Request * Result A) : Prop :=
  exists a, outcome out = Ok a.

(** The serverless client's wording of the configuration error. *)
Definition api_not_set : string := "MAILCHIMP_API_KEY not set. Format: <key>-<dc>".

(** The invocation issued no request and was refused on [field]. *)
Definition rejected (field : string) (out : list Http.Request * Result JsValue) : Prop :=
  requests out = []
  /\ exists issues, outcome out = Err (InvalidParams issues) /\ In field issues.

(** The text of a projected answer. *)
Definition shown (summary : Result JsValue) : Result JsValue :=
  let? s := summary in Ok (Js.json_of s).

(** [v === undefined] *)
Definition is_undefined (v : JsValue) : bool :=
  match v with JUndefined => true | _ => false end.






(** A rate as the data model has it: a number of [0, 1]. *)
Definition is_fraction (x : float) : bool :=
  (PrimFloat.leb 0 x && PrimFloat.leb x 1)%bool.

(** A decimal digit, a string of decimal digits. *)
Definition is_digit (c : ascii) : bool :=
  ((48 <=? nat_of_ascii c) && (nat_of_ascii c <=? 57))%nat.

Fixpoint all_digits (s : string) : bool :=
  match s with
  | EmptyString => true
  | String c rest => is_digit c && all_digits rest
  end.

(** Fixed-point notation with one decimal place: an optional sign, at
    least one digit, the point, one digit. *)
Definition one_decimal (s : string) : Prop :=
  exists sign int frac,
    s = sign ++ int ++ String "." (String frac "")
    /\ (sign = "" \/ sign = "-")
    /\ int <> "" /\ all_digits int = true /\ is_digit frac = true.

(** [s] writes, with one decimal place, the whole number of tenths that
    is nearest to the non-negative float [y], the larger one when two
    are as near: with [y = m * 2^e], the number [n] such that
    [n - 1/2 <= 10 * y < n + 1/2], written as the digits of [n / 10], a
    point, and the digit [n mod 10]. *)
Definition writes_tenths (y : float) (s : string) : Prop :=
  exists n : Z,
    s = Str.of_N (Z.to_N (n / 10)) ++ "." ++ Str.of_N (Z.to_N (n mod 10))
    /\ match Prim2SF y with
       | S754_zero _ => n = 0%Z
       | S754_finite false m e =>
           if (0 <=? e)%Z then n = (10 * Zpos m * 2 ^ e)%Z
           else ((2 * n - 1) * 2 ^ (- e) <= 20 * Zpos m < (2 * n + 1) * 2 ^ (- e))%Z
       | _ => False
       end.

(* ================================================================== *)
(** * The annotations of the tools *)

(** The [annotations] object of a [server.registerTool] call. *)
Record ToolAnnotations := {
  readOnlyHint : bool;
  destructiveHint : bool;
  idempotentHint : bool;
  openWorldHint : bool
}.

(** The annotations declared in src/index.ts, tool by tool. *)
Definition index_annotations (op : Operation) : ToolAnnotations :=
  match op with
  | ListAudiences | ListCampaigns | GetReport =>
      {| readOnlyHint := true; destructiveHint := false;
         idempotentHint := true; openWorldHint := false |}
  | CreateCampaign | SendTest =>
      {| readOnlyHint := false; destructiveHint := false;
         idempotentHint := false; openWorldHint := false |}
  | SetContent | ScheduleCampaign =>
      {| readOnlyHint := false; destructiveHint := false;
         idempotentHint := true; openWorldHint := false |}
  | SendCampaign | DeleteCampaign =>
      {| readOnlyHint := false; destructiveHint := true;
         idempotentHint := false; openWorldHint := false |}
  end.

(** The annotations declared in api/mcp.ts, tool by tool. *)
Definition api_annotations (op : Operation) : ToolAnnotations :=
  match op with
  | ListAudiences =>
      {| readOnlyHint := true; destructiveHint := false;
         idempotentHint := true; openWorldHint := false |}
  | ListCampaigns =>
      {| readOnlyHint := true; destructiveHint := false;
         idempotentHint := true; openWorldHint := false |}
  | CreateCampaign =>
      {| readOnlyHint := false; destructiveHint := false;
         idempotentHint := false; openWorldHint := false |}
  | SetContent =>
      {| readOnlyHint := false; destructiveHint := false;
         idempotentHint := true; openWorldHint := false |}
  | SendTest =>
      {| readOnlyHint := false; destructiveHint := false;
         idempotentHint := false; openWorldHint := false |}
  | SendCampaign =>
      {| readOnlyHint := false; destructiveHint := true;
         idempotentHint := false; openWorldHint := false |}
  | ScheduleCampaign =>
      {| readOnlyHint := false; destructiveHint := false;
         idempotentHint := true; openWorldHint := false |}
  | GetReport =>
      {| readOnlyHint := true; destructiveHint := false;
         idempotentHint := true; openWorldHint := false |}
  | DeleteCampaign =>
      {| readOnlyHint := false; destructiveHint := true;
         idempotentHint := false; openWorldHint := false |}
  end.

(* ================================================================== *)
(** * Further statements: auxiliary definitions *)

(** The argument [name] of an invocation, [undefined] when missing. *)
Definition arg (args : Args) (name : string) : JsValue :=
  match Js.assoc name args with Some w => w | None => JUndefined end.

(** The string an argument holds, when it holds one. *)
Definition text_of (v : JsValue) : string :=
  match v with JStr s => s | _ => "" end.

(** The method and the path of each operation, as the catalog table of
    the specification lists them. *)
Definition method_of (op : Operation) : string :=
  match op with
  | ListAudiences | ListCampaigns | GetReport => "GET"
  | CreateCampaign | SendTest | SendCampaign | ScheduleCampaign => "POST"
  | SetContent => "PUT"
  | DeleteCampaign => "DELETE"
  end.

Definition path_of (op : Operation) (campaign_id : string) : string :=
  match op with
  | ListAudiences => "/lists"
  | ListCampaigns => "/campaigns"
  | CreateCampaign => "/campaigns"
  | SetContent => "/campaigns/" ++ campaign_id ++ "/content"
  | SendTest => "/campaigns/" ++ campaign_id ++ "/actions/test"
  | SendCampaign => "/campaigns/" ++ campaign_id ++ "/actions/send"
  | ScheduleCampaign => "/campaigns/" ++ campaign_id ++ "/actions/schedule"
  | GetReport => "/reports/" ++ campaign_id
  | DeleteCampaign => "/campaigns/" ++ campaign_id
  end.

(** The arguments an operation requires to be strings. *)
Definition required_strings (op : Operation) : list string :=
  match op with
  | ListAudiences | ListCampaigns => []
  | CreateCampaign => ["list_id"; "subject"; "from_name"; "reply_to"]
  | SetContent => ["campaign_id"; "html"]
  | SendTest => ["campaign_id"]
  | SendCampaign | GetReport | DeleteCampaign => ["campaign_id"]
  | ScheduleCampaign => ["campaign_id"; "schedule_time"]
  end.

(** A computation whose only failure is a TypeError. *)
Definition only_TypeError {A} (r : Result A) : Prop :=
  forall e, r = Err e -> e = TypeError.

(** An invocation that is one call of the client, with options for this
    operation, followed by code that reads only the answer and can only
    fail on it with a TypeError. *)
Definition one_call `{Builtins} (env : Env) (op : Operation) (args : Args)
  (remote : Remote) (out out' : list Http.Request * Result JsValue) : Prop :=
  exists (options : Client.MailchimpRequestOptions) (k k' : JsValue -> Result JsValue),
    Client.method options = method_of op
    /\ Client.path options = path_of op (text_of (arg args "campaign_id"))
    /\ (forall a, only_TypeError (k a) /\ only_TypeError (k' a))
    /\ out = (requests (Client.mailchimpRequest env options remote),
              bindR (outcome (Client.mailchimpRequest env options remote)) k)
    /\ out' = (requests (Api.mc env (Client.method options) (Client.path options)
                           (Client.body options) (Client.params options) remote),
               bindR (outcome (Api.mc env (Client.method options) (Client.path options)
                                 (Client.body options) (Client.params options) remote)) k').

(** An invocation refused by the input contract before any request. *)
Definition refused (out : list Http.Request * Result JsValue) : Prop :=
  exists issues, out = ([], Err (InvalidParams issues)).

(** An invocation that lets the failures of its client call through
    unchanged and adds none but a TypeError. *)
Definition transparent {A} (call out : list Http.Request * Result A) : Prop :=
  requests out = requests call
  /\ (forall e, outcome call = Err e -> outcome out = Err e)
  /\ (forall e, outcome out = Err e -> outcome call = Err e \/ e = TypeError).


(** The query of list-campaigns for a page size and a status filter. *)
Definition campaigns_query (count : Z) (status : option string) : list (string * string) :=
  [("count", Str.of_Z count); ("sort_field", "create_time"); ("sort_dir", "DESC")]
  ++ match status with Some s => [("status", s)] | None => [] end.

(** The request of list-campaigns for a page size and a status filter:
    a GET on the URL of the endpoint followed by /campaigns, with the
    parameters of the query set on it in their order. *)
Definition campaigns_request `{Builtins} (env : Env) (count : Z) (status : option string)
  : Http.Request :=
  {| Http.method := "GET";
     Http.url := with_entries (resolved env "/campaigns") (campaigns_query count status);
     Http.headers := [("Authorization", "Bearer " ++ Client.API_KEY env);
                      ("Content-Type", "application/json")];
     Http.body := None |}.

(** The pairs of a query under the name [k]. *)
Definition named (k : string) (q : list (string * string)) : list (string * string) :=
  filter (fun kv => String.eqb k (fst kv)) q.

(** The status filters the input contract lists. *)
Definition campaign_statuses : list string :=
  ["save"; "sent"; "schedule"; "sending"; "paused"].

(** The two entry points, and an invocation at either. *)
Inductive EntryPoint : Type := Standalone | Serverless.

Definition invoke_at `{Builtins} (entry : EntryPoint) (env : Env) (op : Operation)
  (args : Args) : M JsValue :=
  match entry with
  | Standalone => Index.invoke env op args
  | Serverless => Api.invoke env op args
  end.

(** The operations that act on a campaign and confirm with a fixed text. *)
Definition is_action (op : Operation) : bool :=
  match op with
  | SetContent | SendTest | SendCampaign | ScheduleCampaign | DeleteCampaign => true
  | ListAudiences | ListCampaigns | CreateCampaign | GetReport => false
  end.

(** The body an operation sends, read off the arguments of the
    invocation (create-campaign and list-campaigns apart). *)
Definition expected_body (op : Operation) (args : Args) : option JsValue :=
  match op with
  | SetContent => Some (JObj [("html", arg args "html")])
  | SendTest =>
      Some (JObj [("test_emails", arg args "test_emails");
                  ("send_type", match arg args "send_type" with
                                | JUndefined => JStr "html"
                                | v => v
                                end)])
  | ScheduleCampaign => Some (JObj [("schedule_time", arg args "schedule_time")])
  | _ => None
  end.

(** The URL an operation fetches, from the URL that the constructor
    made (list-campaigns apart): list-audiences sets two search
    parameters on it, the others leave it as it is. *)
Definition expected_url (op : Operation) (url : URL.t) : URL.t :=
  match op with
  | ListAudiences =>
      with_entries url [("count", "100"); ("fields", "lists.id,lists.name,lists.stats")]
  | _ => url
  end.

(** The remote hands [data] to the client on every request: as the JSON
    body of a success other than 204, or as the empty object that stands
    for a 204. *)
Definition delivers (remote : Remote) (data : JsValue) : Prop :=
  forall request, exists response,
    remote request = Some response
    /\ (Http.status response = 204%Z /\ data = JObj []
        \/ Http.status response <> 204%Z /\ Http.ok response = true
           /\ Http.json response = Some data).

(** The two listings: the key of the answer that holds the entries, the
    key of an entry that is read through, and the projection of an entry
    (the one of src/index.ts; the serverless one is compared with it). *)
Definition is_listing (op : Operation) : bool :=
  match op with ListAudiences | ListCampaigns => true | _ => false end.

Definition listing_key (op : Operation) : string :=
  match op with ListAudiences => "lists" | _ => "campaigns" end.

Definition entry_key (op : Operation) : string :=
  match op with ListAudiences => "stats" | _ => "settings" end.

Definition summary_of `{Builtins} (op : Operation) : JsValue -> Result JsValue :=
  match op with
  | ListAudiences => Index.audience_summary
  | _ => Index.campaign_summary
  end.

(** [v == null] *)
Definition nullish (v : JsValue) : bool :=
  match v with JUndefined | JNull => true | _ => false end.

(** An entry of a listing that its projection can read. *)
Definition readable (op : Operation) (entry : JsValue) : bool :=
  negb (nullish (field_of entry (entry_key op))).

(** The answer hands [data] to the client: a 204, for which the body is
    not read and [data] is the empty object, or another success whose
    body is the JSON document [data]. *)
Definition hands (answer : option Http.Response) (data : JsValue) : Prop :=
  exists response,
    answer = Some response
    /\ (Http.status response = 204%Z /\ data = JObj []
        \/ Http.status response <> 204%Z /\ Http.ok response = true
           /\ Http.json response = Some data).

(** [x || fallback] on an optional string argument. *)
Definition given_or (x : option string) (fallback : string) : string :=
  match x with
  | Some s => if String.eqb s "" then fallback else s
  | None => fallback
  end.
(* ================================================================== *)
(** * Region resolution *)

Section Region.

Lemma split_nonempty sep s : Str.split sep s <> [].
Proof.
  destruct s as [|c rest]; simpl; [discriminate|].
  destruct (Ascii.eqb c sep); [discriminate|].
  destruct (Str.split sep rest); discriminate.
Qed.

(** Without a separator the whole string is the only piece. *)
Lemma split_lacks sep s : Str.lacks sep s = true -> Str.split sep s = [s].
Proof.
  induction s as [|c rest IH]; simpl; [reflexivity|].
  destruct (Ascii.eqb c sep); simpl; [discriminate|].
  intros H. rewrite (IH H). reflexivity.
Qed.

Lemma pop_cons x l : l <> [] -> Str.pop (x :: l) = Str.pop l.
Proof. destruct l; [congruence|reflexivity]. Qed.

(** The last piece of [pre ++ sep ++ suf] is the last piece of [suf]. *)
Lemma pop_split_app sep pre suf :
  Str.pop (Str.split sep (pre ++ String sep suf)) = Str.pop (Str.split sep suf).
Proof.
  induction pre as [|c pre IH]; simpl.
  - rewrite Ascii.eqb_refl. apply pop_cons, split_nonempty.
  - destruct (Ascii.eqb c sep).
    + rewrite pop_cons by apply split_nonempty. exact IH.
    + destruct (Str.split sep (pre ++ String sep suf)) as [|p ps] eqn:E.
      * exfalso. exact (split_nonempty _ _ E).
      * destruct ps as [|q qs].
        -- (* a single piece cannot hold the separator *)
           exfalso.
           assert (L : forall t, List.length (Str.split sep (t ++ String sep suf)) >= 2).
           { clear. induction t as [|d t IHt]; simpl.
             - rewrite Ascii.eqb_refl. simpl.
               pose proof (split_nonempty sep suf).
               destruct (Str.split sep suf); [congruence|simpl; lia].
             - destruct (Ascii.eqb d sep); simpl; [lia|].
               destruct (Str.split sep (t ++ String sep suf)); simpl in *; lia. }
           specialize (L pre). rewrite E in L. simpl in L. lia.
        -- rewrite <- IH. reflexivity.
Qed.

(** With a separator and a non-empty region after the last one, the
    data center is that region. *)
Lemma DATA_CENTER_suffix (key region : string) :
  Str.lacks "-" region = true -> region <> "" ->
  Client.DATA_CENTER (Some (key ++ String "-" region)) = region.
Proof.
  intros Hl Hne. unfold Client.DATA_CENTER, Client.API_KEY.
  assert (K : Str.or_else (Some (key ++ String "-" region)) ""
              = key ++ String "-" region).
  { destruct key; reflexivity. }
  rewrite K, pop_split_app, (split_lacks _ _ Hl). simpl.
  destruct region; [congruence|reflexivity].
Qed.

(** Without any separator the data center is the whole credential. *)
Lemma DATA_CENTER_no_separator (key : string) :
  Str.lacks "-" key = true -> key <> "" ->
  Client.DATA_CENTER (Some key) = key.
Proof.
  intros Hl Hne. unfold Client.DATA_CENTER, Client.API_KEY.
  destruct key as [|c k]; [congruence|].
  cbn [Str.or_else]. rewrite (split_lacks _ _ Hl). reflexivity.
Qed.

(** The fallback region is used exactly when the last piece is empty:
    no credential, or a credential that ends with the separator. *)
Lemma DATA_CENTER_fallback (key : string) :
  Client.DATA_CENTER (Some (key ++ "-")) = "us1"
  /\ Client.DATA_CENTER None = "us1"
  /\ Client.DATA_CENTER (Some "") = "us1".
Proof.
  repeat split; try reflexivity.
  unfold Client.DATA_CENTER, Client.API_KEY.
  assert (K : Str.or_else (Some (key ++ "-")) "" = key ++ "-").
  { destruct key; reflexivity. }
  rewrite K, pop_split_app. reflexivity.
Qed.

(** Both entry points resolve the same endpoint. *)
Lemma getApiConfig_agrees env :
  Api.apiKey (Api.getApiConfig env) = Client.API_KEY env
  /\ Api.baseUrl (Api.getApiConfig env) = Client.BASE_URL env.
Proof. split; reflexivity. Qed.

End Region.

(** C1: the region is the piece after the last '-' ("abc123-us14" gives
    us14), but a credential without separator does not fall back to the
    default region us1: "abc123" is taken whole as the region, in the
    client module and in [getApiConfig] alike. *)
Theorem C1_region_without_separator :
  Client.BASE_URL (Some "abc123-us14") = "https://us14.api.mailchimp.com/3.0"
  /\ Client.DATA_CENTER (Some "abc123") = "abc123"
  /\ Client.BASE_URL (Some "abc123") = "https://abc123.api.mailchimp.com/3.0"
  /\ Api.baseUrl (Api.getApiConfig (Some "abc123"))
     = "https://abc123.api.mailchimp.com/3.0"
  /\ Client.BASE_URL (Some "abc123") <> "https://us1.api.mailchimp.com/3.0".
Proof. repeat split; try reflexivity. discriminate. Qed.

(* ================================================================== *)
(** * The computation monad *)

Section Monad.
Context {A B : Type}.

Lemma bind_Err (m : M A) (k : A -> M B) remote sent e :
  m remote = (sent, Err e) -> bind m k remote = (sent, Err e).
Proof. intros E. unfold bind. rewrite E. reflexivity. Qed.

Lemma bind_Ok (m : M A) (k : A -> M B) remote sent a :
  m remote = (sent, Ok a) ->
  bind m k remote = ((sent ++ requests (k a remote))%list, outcome (k a remote)).
Proof.
  intros E. unfold bind. rewrite E. destruct (k a remote); reflexivity.
Qed.

Lemma bind_ret (a : A) (k : A -> M B) remote :
  bind (ret a) k remote = k a remote.
Proof. unfold bind, ret. destruct (k a remote); reflexivity. Qed.

Lemma bind_lift (r : Result A) (k : A -> M B) remote :
  bind (lift r) k remote
  = match r with Ok a => k a remote | Err e => ([], Err e) end.
Proof. unfold bind, lift. destruct r; [destruct (k a remote)|]; reflexivity. Qed.

End Monad.

Lemma content_text_eq (summary : JsValue) remote :
  content_text summary remote = ([], Ok (Js.json_of summary)).
Proof. reflexivity. Qed.

(* ================================================================== *)
(** * The two clients *)

Section Clients.
Context `{Builtins}.
Variable env : Env.

Lemma prop_field_of data k :
  Js.prop data k
  = match data with
    | JUndefined | JNull => Err TypeError
    | _ => Ok (field_of data k)
    end.
Proof. destruct data; reflexivity. Qed.

Lemma or_detail data generic :
  Js.or (Js.or (field_of data "detail") (field_of data "title")) (JStr generic)
  = detail_else_title data generic.
Proof.
  unfold detail_else_title, Js.or.
  destruct (Js.truthy (field_of data "detail")) eqn:D.
  - rewrite D. reflexivity.
  - destruct (Js.truthy (field_of data "title")); reflexivity.
Qed.

(** Without a credential the client throws at once. *)
Lemma mailchimpRequest_not_set options remote :
  Client.API_KEY env = "" ->
  Client.mailchimpRequest env options remote = ([], Err (Error Client.not_set)).
Proof. intros E. unfold Client.mailchimpRequest. rewrite E. reflexivity. Qed.

Lemma resolved_parsed path :
  resolves env ->
  URL_parse (Client.BASE_URL env ++ path) = Some (resolved env path).
Proof.
  intros R. unfold resolved. specialize (R path).
  destruct (URL_parse (Client.BASE_URL env ++ path)); [reflexivity|contradiction].
Qed.

Lemma parsed_resolved path url :
  URL_parse (Client.BASE_URL env ++ path) = Some url -> resolved env path = url.
Proof. intros P. unfold resolved. now rewrite P. Qed.

(** With a credential and an endpoint that is no URL the client throws
    before it fetches. *)
Lemma mailchimpRequest_unparsed options remote :
  Client.API_KEY env <> "" ->
  URL_parse (Client.BASE_URL env ++ Client.path options) = None ->
  Client.mailchimpRequest env options remote = ([], Err TypeError).
Proof.
  intros E P. unfold Client.mailchimpRequest.
  destruct (String.eqb_spec (Client.API_KEY env) "") as [E'|_]; [contradiction|].
  rewrite bind_lift. unfold new_URL. rewrite P. reflexivity.
Qed.

(** With a credential and a URL it issues exactly its request and
    settles the answer. *)
Lemma mailchimpRequest_parsed options remote url :
  Client.API_KEY env <> "" ->
  URL_parse (Client.BASE_URL env ++ Client.path options) = Some url ->
  Client.mailchimpRequest env options remote
  = ([request_with env options url],
     settle client_wording "Unknown error" (remote (request_with env options url))).
Proof.
  intros E P. unfold Client.mailchimpRequest.
  destruct (String.eqb_spec (Client.API_KEY env) "") as [E'|_]; [contradiction|].
  rewrite bind_lift. unfold new_URL. rewrite P.
  fold (request_with env options url).
  unfold bind at 1, fetch, settle.
  destruct (remote (request_with env options url)) as [response|]; [|reflexivity].
  destruct (Http.status response =? 204)%Z; [reflexivity|].
  unfold response_json.
  destruct (Http.json response) as [data|]; [|reflexivity].
  rewrite bind_ret.
  destruct (Http.ok response); cbn [negb]; [reflexivity|].
  rewrite bind_lift, prop_field_of.
  destruct data; try reflexivity;
    rewrite bind_lift, prop_field_of; unfold throw; rewrite or_detail; reflexivity.
Qed.

Lemma mc_not_set method path body params remote :
  Client.API_KEY env = "" ->
  Api.mc env method path body params remote
  = ([], Err (Error "MAILCHIMP_API_KEY not set. Format: <key>-<dc>")).
Proof.
  intros E. unfold Api.mc, Api.getApiConfig.
  change (Str.or_else env "") with (Client.API_KEY env). rewrite E. reflexivity.
Qed.

Lemma mc_unparsed method path body params remote :
  Client.API_KEY env <> "" ->
  URL_parse (Client.BASE_URL env ++ path) = None ->
  Api.mc env method path body params remote = ([], Err TypeError).
Proof.
  intros E P. unfold Api.mc, Api.getApiConfig.
  change (Str.or_else env "") with (Client.API_KEY env).
  destruct (String.eqb_spec (Client.API_KEY env) "") as [E'|_]; [contradiction|].
  rewrite bind_lift. unfold new_URL.
  change ("https://" ++ _ ++ ".api.mailchimp.com/3.0") with (Client.BASE_URL env).
  rewrite P. reflexivity.
Qed.

Lemma mc_parsed method path body params remote url :
  Client.API_KEY env <> "" ->
  URL_parse (Client.BASE_URL env ++ path) = Some url ->
  let options := {| Client.method := method; Client.path := path;
                    Client.body := body; Client.params := params |} in
  Api.mc env method path body params remote
  = ([request_with env options url],
     settle api_wording "Error" (remote (request_with env options url))).
Proof.
  intros E P options. unfold Api.mc, Api.getApiConfig.
  change (Str.or_else env "") with (Client.API_KEY env).
  destruct (String.eqb_spec (Client.API_KEY env) "") as [E'|_]; [contradiction|].
  rewrite bind_lift. unfold new_URL.
  change ("https://" ++ _ ++ ".api.mailchimp.com/3.0") with (Client.BASE_URL env).
  rewrite P.
  change (Http.Build_Request method _ _ _) with (request_with env options url).
  unfold bind at 1, fetch, settle.
  destruct (remote (request_with env options url)) as [response|]; [|reflexivity].
  destruct (Http.status response =? 204)%Z; [reflexivity|].
  unfold response_json.
  destruct (Http.json response) as [data|]; [|reflexivity].
  rewrite bind_ret.
  destruct (Http.ok response); cbn [negb]; [reflexivity|].
  rewrite bind_lift, prop_field_of.
  destruct data; try reflexivity;
    rewrite bind_lift, prop_field_of; unfold throw; rewrite or_detail; reflexivity.
Qed.

Lemma mailchimpRequest_set options remote :
  Client.API_KEY env <> "" -> resolves env ->
  Client.mailchimpRequest env options remote
  = ([request_of env options],
     settle client_wording "Unknown error" (remote (request_of env options))).
Proof.
  intros E R. apply mailchimpRequest_parsed; [exact E|]. now apply resolved_parsed.
Qed.

Lemma mc_set method path body params remote :
  Client.API_KEY env <> "" -> resolves env ->
  let options := {| Client.method := method; Client.path := path;
                    Client.body := body; Client.params := params |} in
  Api.mc env method path body params remote
  = ([request_of env options],
     settle api_wording "Error" (remote (request_of env options))).
Proof.
  intros E R options.
  apply (mc_parsed method path body params remote _ E), (resolved_parsed path R).
Qed.

End Clients.

(** The endpoint of the closed examples is a URL, whatever the path. *)
Lemma example_resolves : resolves (H := example_builtins) (Some "abc123-us14").
Proof. intros path. vm_compute. discriminate. Qed.

(** A region that is no host: the constructor throws, and either
    client fails with a TypeError before it fetches. *)
Example endpoint_not_a_URL :
  let options := {| Client.method := "GET"; Client.path := "/lists";
                    Client.body := None; Client.params := None |} in
  Client.mailchimpRequest (H := example_builtins) (Some "abc-us 14") options
    (always 200 (Some (JObj [])))
  = ([], Err TypeError)
  /\ Api.mc (H := example_builtins) (Some "abc-us 14") "GET" "/lists" None None
       (always 200 (Some (JObj [])))
     = ([], Err TypeError).
Proof. split; reflexivity. Qed.

(** [Object.entries] puts the array indices first. *)
Example entries_order :
  Js.entries [("b", "x"); ("2", "y"); ("a", "z"); ("1", "w"); ("01", "v")]
  = [("1", "w"); ("2", "y"); ("b", "x"); ("a", "z"); ("01", "v")].
Proof. reflexivity. Qed.

(* ================================================================== *)
(** * Search parameters *)

Section SearchParams.

Lemma named_filter_same k q :
  named k (filter (fun kv => negb (String.eqb k (fst kv))) q) = [].
Proof.
  unfold named. induction q as [|[k' v'] tl IH]; [reflexivity|].
  cbn [filter fst]. destruct (String.eqb k k') eqn:E; cbn [negb]; [exact IH|].
  cbn [filter fst]. now rewrite E.
Qed.

Lemma named_filter_other k k' q :
  k <> k' ->
  named k' (filter (fun kv => negb (String.eqb k (fst kv))) q) = named k' q.
Proof.
  intros D. unfold named. induction q as [|[k'' v''] tl IH]; [reflexivity|].
  cbn [filter fst]. destruct (String.eqb_spec k k'') as [<-|N]; cbn [negb].
  - destruct (String.eqb_spec k' k) as [->|_]; [contradiction|exact IH].
  - cbn [filter fst]. now rewrite IH.
Qed.

(** After [set(k, v)] the pairs named [k] are the pair [(k, v)] alone,
    and the pairs under other names are untouched. *)
Lemma named_set_same k v q : named k (Http.searchParams_set k v q) = [(k, v)].
Proof.
  induction q as [|[k' v'] tl IH]; cbn [Http.searchParams_set].
  - unfold named. cbn [filter fst]. now rewrite String.eqb_refl.
  - destruct (String.eqb k k') eqn:E.
    + unfold named at 1. cbn [filter fst]. rewrite String.eqb_refl.
      f_equal. apply named_filter_same.
    + unfold named at 1. cbn [filter fst]. rewrite E. exact IH.
Qed.

Lemma named_set_other k k' v q :
  k <> k' -> named k' (Http.searchParams_set k v q) = named k' q.
Proof.
  intros D. induction q as [|[k'' v''] tl IH]; cbn [Http.searchParams_set].
  - unfold named. cbn [filter fst].
    destruct (String.eqb_spec k' k) as [->|_]; [contradiction|reflexivity].
  - destruct (String.eqb_spec k k'') as [<-|N].
    + unfold named. cbn [filter fst].
      destruct (String.eqb_spec k' k) as [->|_]; [contradiction|].
      now apply named_filter_other.
    + unfold named in *. cbn [filter fst].
      destruct (String.eqb k' k''); [f_equal|]; exact IH.
Qed.

(** The first pair under a name is the first of the pairs named so. *)
Lemma assoc_named k q :
  Js.assoc k q = match named k q with kv :: _ => Some (snd kv) | [] => None end.
Proof.
  unfold named. induction q as [|[k' v'] tl IH]; [reflexivity|].
  cbn [Js.assoc filter fst]. destruct (String.eqb k k'); [reflexivity|exact IH].
Qed.

Lemma assoc_set_same k v q : Js.assoc k (Http.searchParams_set k v q) = Some v.
Proof. now rewrite assoc_named, named_set_same. Qed.

Lemma assoc_set_other k k' v q :
  k <> k' -> Js.assoc k' (Http.searchParams_set k v q) = Js.assoc k' q.
Proof. intros D. now rewrite !assoc_named, named_set_other. Qed.

(** [Object.entries] keeps the order of an object without array
    indices among its keys. *)
Lemma entries_no_index {V} (fields : list (string * V)) :
  forallb (fun kv => match Js.array_index (fst kv) with
                     | Some _ => false
                     | None => true
                     end) fields = true ->
  Js.entries fields = fields.
Proof.
  intros F. unfold Js.entries.
  assert (A : forall acc,
             fold_left (fun acc kv => match Js.array_index (fst kv) with
                                      | Some n => Js.insert_index n kv acc
                                      | None => acc
                                      end) fields acc = acc).
  { induction fields as [|kv tl IH]; intros acc; [reflexivity|].
    cbn [forallb] in F. apply andb_true_iff in F. destruct F as [K F].
    cbn [fold_left]. destruct (Js.array_index (fst kv)); [discriminate|]. now apply IH. }
  rewrite A. cbn [map app].
  induction fields as [|kv tl IH]; [reflexivity|].
  cbn [forallb] in F. apply andb_true_iff in F. destruct F as [K F].
  cbn [filter]. rewrite K. f_equal. apply IH; [exact F|].
  intros acc. specialize (A acc). cbn [fold_left] in A.
  destruct (Js.array_index (fst kv)); [discriminate|exact A].
Qed.

End SearchParams.

(* ================================================================== *)
(** * Handlers: one request, then a pure projection *)

Section Handlers.
Context {A B C : Type}.

(** A client call followed by a projection and [content_text]. *)
Lemma call_then_project (m : M A) (k : A -> Result B) (f : B -> C) remote sent r :
  m remote = (sent, r) ->
  bind m (fun a => bind (lift (k a)) (fun b => ret (f b))) remote
  = (sent, bindR r (fun a => bindR (k a) (fun b => Ok (f b)))).
Proof.
  intros E. unfold bind at 1. rewrite E.
  destruct r as [a|e]; [|reflexivity].
  rewrite bind_lift. cbn [bindR].
  destruct (k a); cbn [bindR ret]; rewrite app_nil_r; reflexivity.
Qed.

(** A client call whose result is dropped. *)
Lemma call_then_return (m : M A) (c : C) remote sent r :
  m remote = (sent, r) ->
  bind m (fun _ => ret c) remote = (sent, bindR r (fun _ => Ok c)).
Proof.
  intros E. unfold bind. rewrite E.
  destruct r; cbn [bindR ret]; [rewrite app_nil_r|]; reflexivity.
Qed.

End Handlers.

(** Unfolds a tool invocation down to the validation of its input. *)
Ltac enter_tool :=
  cbv [Index.invoke Index.name Index.server Api.invoke Api.name Api.createServer
       callTool registerTool String.eqb Ascii.eqb Bool.eqb fst snd];
  rewrite ?bind_lift.

(** Unfolds a handler down to its client call. *)
Ltac enter_handler :=
  cbv [Index.list_audiences Index.list_campaigns Index.create_campaign
       Index.set_campaign_content Index.send_test Index.send_campaign
       Index.schedule_campaign Index.get_campaign_report Index.delete_campaign
       Index.request
       Api.list_audiences Api.list_campaigns Api.create_campaign
       Api.set_content Api.send_test Api.send_campaign
       Api.schedule_campaign Api.get_report Api.delete_campaign
       content_text].

(* ================================================================== *)
(** * Configuration error (C6) *)

Section NoCredential.
Context `{Builtins}.
Variable env : Env.
Hypothesis not_configured : Client.API_KEY env = "".

Lemma index_handlers_not_set (op : Operation) (args : Args) remote :
  requests (Index.invoke env op args remote) = []
  /\ ~ succeeds (Index.invoke env op args remote).
Proof.
  assert (Fail : forall B (k : JsValue -> M B) o,
             bind (Client.mailchimpRequest env o) k remote
             = ([], Err (Error Client.not_set))).
  { intros. apply bind_Err, mailchimpRequest_not_set, not_configured. }
  unfold succeeds.
  destruct op; enter_tool;
    (destruct (Zod.safeParse _) as [input|e];
     [ enter_handler;
       repeat match goal with p : (_ * _)%type |- _ => destruct p end;
       rewrite Fail
     | ]);
    (split; [reflexivity | intros [a Ha]; discriminate Ha]).
Qed.

Lemma api_handlers_not_set (op : Operation) (args : Args) remote :
  requests (Api.invoke env op args remote) = []
  /\ ~ succeeds (Api.invoke env op args remote).
Proof.
  assert (Fail : forall B (k : JsValue -> M B) m p b ps,
             bind (Api.mc env m p b ps) k remote
             = ([], Err (Error "MAILCHIMP_API_KEY not set. Format: <key>-<dc>"))).
  { intros. apply bind_Err, mc_not_set, not_configured. }
  unfold succeeds.
  destruct op; enter_tool;
    (destruct (Zod.safeParse _) as [input|e];
     [ enter_handler;
       repeat match goal with p : (_ * _)%type |- _ => destruct p end;
       rewrite Fail
     | ]);
    (split; [reflexivity | intros [a Ha]; discriminate Ha]).
Qed.

End NoCredential.

(** C6: with no credential configured (the variable unset or empty),
    every call of either client throws before any request is issued, the
    error states the expected format <key>-<dc>, and no tool invocation
    issues a request or succeeds. *)
Theorem C6_no_credential_no_request `{Builtins} (env : Env) (remote : Remote) :
  Client.API_KEY env = "" ->
  (forall options,
      Client.mailchimpRequest env options remote = ([], Err (Error Client.not_set)))
  /\ (forall method path body params,
      Api.mc env method path body params remote = ([], Err (Error api_not_set)))
  /\ Str.includes "Format: <key>-<dc>" Client.not_set = true
  /\ Str.includes "Format: <key>-<dc>" api_not_set = true
  /\ (forall op args,
        requests (Index.invoke env op args remote) = []
        /\ ~ succeeds (Index.invoke env op args remote))
  /\ (forall op args,
        requests (Api.invoke env op args remote) = []
        /\ ~ succeeds (Api.invoke env op args remote)).
Proof.
  intros E. repeat split.
  - intros options. apply mailchimpRequest_not_set, E.
  - intros. apply mc_not_set, E.
  - apply index_handlers_not_set, E.
  - apply index_handlers_not_set, E.
  - apply api_handlers_not_set, E.
  - apply api_handlers_not_set, E.
Qed.

Lemma C6_witness :
  Client.API_KEY None = ""
  /\ Client.mailchimpRequest (H := example_builtins) None
       {| Client.method := "GET"; Client.path := "/lists";
          Client.body := None; Client.params := None |}
       (always 200 (Some (JObj [])))
     = ([], Err (Error Client.not_set)).
Proof.
  split; [reflexivity|].
  apply (C6_no_credential_no_request (H := example_builtins) None
           (always 200 (Some (JObj []))) eq_refl).
Defined.

(* ================================================================== *)
(** * No content (C5) *)

Section NoContent.
Context `{Builtins}.
Variables (env : Env) (remote : Remote).
Hypothesis configured : Client.API_KEY env <> "".
Hypothesis endpoint : resolves env.
Hypothesis no_content :
  forall request, exists response,
    remote request = Some response /\ Http.status response = 204%Z.

Lemma settle_no_content wording generic request :
  settle wording generic (remote request) = Ok (JObj []).
Proof.
  destruct (no_content request) as [response [E S]].
  unfold settle. rewrite E, S. reflexivity.
Qed.

Lemma mailchimpRequest_no_content options :
  Client.mailchimpRequest env options remote = ([request_of env options], Ok (JObj [])).
Proof. rewrite mailchimpRequest_set by assumption. now rewrite settle_no_content. Qed.

Lemma mc_no_content method path body params :
  outcome (Api.mc env method path body params remote) = Ok (JObj []).
Proof. rewrite mc_set by assumption. cbn. now rewrite settle_no_content. Qed.

Lemma index_actions_no_content id emails type time :
  succeeds (Index.send_campaign env id remote)
  /\ succeeds (Index.schedule_campaign env (id, time) remote)
  /\ succeeds (Index.send_test env (id, emails, type) remote)
  /\ succeeds (Index.delete_campaign env id remote).
Proof.
  unfold succeeds. enter_handler.
  repeat split; eexists;
    erewrite call_then_return by (apply mailchimpRequest_no_content); reflexivity.
Qed.

Lemma api_actions_no_content id emails type time :
  succeeds (Api.send_campaign env id remote)
  /\ succeeds (Api.schedule_campaign env (id, time) remote)
  /\ succeeds (Api.send_test env (id, emails, type) remote)
  /\ succeeds (Api.delete_campaign env id remote).
Proof.
  unfold succeeds. enter_handler.
  repeat split; eexists;
    (erewrite call_then_return
      by (rewrite mc_set by assumption; rewrite settle_no_content; reflexivity));
    reflexivity.
Qed.

End NoContent.

(** C5: when the remote answers 204, every call of either client
    returns the empty object (whatever the body), and the send, schedule,
    test and delete tools of both entry points succeed.  The remote
    answers the requests that are sent: the credential is set and
    [new URL] takes its endpoint for a URL. *)
Theorem C5_no_content_is_success `{Builtins} (env : Env) (remote : Remote) :
  Client.API_KEY env <> "" -> resolves env ->
  (forall request, exists response,
      remote request = Some response /\ Http.status response = 204%Z) ->
  (forall options, outcome (Client.mailchimpRequest env options remote) = Ok (JObj []))
  /\ (forall method path body params,
        outcome (Api.mc env method path body params remote) = Ok (JObj []))
  /\ (forall id emails type time,
        succeeds (Index.send_campaign env id remote)
        /\ succeeds (Index.schedule_campaign env (id, time) remote)
        /\ succeeds (Index.send_test env (id, emails, type) remote)
        /\ succeeds (Index.delete_campaign env id remote))
  /\ (forall id emails type time,
        succeeds (Api.send_campaign env id remote)
        /\ succeeds (Api.schedule_campaign env (id, time) remote)
        /\ succeeds (Api.send_test env (id, emails, type) remote)
        /\ succeeds (Api.delete_campaign env id remote)).
Proof.
  intros K U R. split; [|split; [|split]].
  - intros options. now rewrite mailchimpRequest_no_content.
  - intros. now apply mc_no_content.
  - intros. now apply index_actions_no_content.
  - intros. now apply api_actions_no_content.
Qed.

Lemma C5_witness :
  outcome (Client.mailchimpRequest (H := example_builtins) (Some "abc123-us14")
             {| Client.method := "POST"; Client.path := "/campaigns/c1/actions/send";
                Client.body := None; Client.params := None |}
             (always 204 None))
  = Ok (JObj []).
Proof.
  apply (C5_no_content_is_success (H := example_builtins)
           (Some "abc123-us14") (always 204 None)).
  - discriminate.
  - exact example_resolves.
  - intros request. eexists. split; reflexivity.
Defined.

(* ================================================================== *)
(** * Remote failures (C4) *)

Section Substrings.






End Substrings.

Section RemoteFailure.
Context `{Builtins}.
Variables (env : Env) (remote : Remote).
Hypothesis configured : Client.API_KEY env <> "".
Hypothesis endpoint : resolves env.


End RemoteFailure.



(** The report tool of both entry points on that 404. *)
Example report_not_found :
  let remote := always 404 (Some (JObj [("detail", JStr "Campaign not found")])) in
  let args := [("campaign_id", JStr "c1")] in
  outcome (Index.invoke (H := example_builtins) (Some "abc123-us14") GetReport args remote)
    = Err (Error "Mailchimp API error (404): Campaign not found")
  /\ outcome (Api.invoke (H := example_builtins) (Some "abc123-us14") GetReport args remote)
    = Err (Error "Mailchimp 404: Campaign not found").
Proof. split; reflexivity. Qed.


(* ================================================================== *)
(** * Create campaign (C7) *)



(** Omitted arguments reach the handler as [undefined]: the invocation
    with only the required arguments is the handler without title and
    preview text. *)
Lemma create_campaign_omitted `{Builtins} (env : Env) (remote : Remote)
  (list_id subject from_name reply_to : string) :
  email_test reply_to = true ->
  let args := [("list_id", JStr list_id); ("subject", JStr subject);
               ("from_name", JStr from_name); ("reply_to", JStr reply_to)] in
  Index.invoke env CreateCampaign args remote
    = Index.create_campaign env (list_id, subject, None, None, from_name, reply_to) remote
  /\ Api.invoke env CreateCampaign args remote
    = Api.create_campaign env (list_id, subject, None, None, from_name, reply_to) remote.
Proof.
  intros E args. subst args. enter_tool.
  cbv [Zod.field Zod.email Zod.string Zod.optional Zod.ap Zod.pure Zod.safeParse
       Js.assoc String.eqb Ascii.eqb Bool.eqb fst snd option_map].
  rewrite E. split; reflexivity.
Qed.

(* ================================================================== *)
(** * Input bounds (C9) *)

Section Validation.
Context {T U : Type}.

Lemma field_refused (args : Args) name (schema : Zod.Schema T) v :
  Js.assoc name args = Some v -> schema v = None ->
  Zod.field args name schema = ([name], None).
Proof. intros A S. unfold Zod.field. rewrite A, S. reflexivity. Qed.

Lemma ap_refused_r (f : Zod.V (T -> U)) (a : Zod.V T) name :
  a = ([name], None) -> snd (f <*> a) = None /\ In name (fst (f <*> a)).
Proof.
  intros ->. unfold Zod.ap. cbn [fst snd]. split.
  - destruct (snd f); reflexivity.
  - apply in_or_app. right. left. reflexivity.
Qed.

Lemma ap_refused_l (f : Zod.V (T -> U)) (a : Zod.V T) name :
  snd f = None /\ In name (fst f) -> snd (f <*> a) = None /\ In name (fst (f <*> a)).
Proof.
  intros [S I]. unfold Zod.ap. cbn [fst snd]. rewrite S. split; [reflexivity|].
  apply in_or_app. left. exact I.
Qed.

Lemma safeParse_refused (v : Zod.V T) name (k : T -> M JsValue) remote :
  snd v = None /\ In name (fst v) ->
  rejected name (match Zod.safeParse v with
                 | Ok input => k input remote
                 | Err e => ([], Err e)
                 end).
Proof.
  intros [S I]. destruct v as [issues [t|]]; [discriminate|].
  split; [reflexivity|]. exists issues. split; [reflexivity|exact I].
Qed.

End Validation.

Lemma count_out_of_bounds (x : float) :
  PrimFloat.ltb x 1%float = true \/ PrimFloat.ltb 100%float x = true ->
  Zod.default (Zod.number_int_min_max 1%float 100%float) 20%float (JNum x) = None.
Proof.
  intros O. cbn [Zod.default Zod.number_int_min_max].
  destruct (PrimFloat.is_nan x); [reflexivity|].
  destruct (Js.isInteger x); [|reflexivity]. cbn [negb].
  destruct O as [-> | ->]; [reflexivity|].
  destruct (PrimFloat.ltb x 1%float); reflexivity.
Qed.

Lemma emails_out_of_bounds `{Builtins} (items : list JsValue) :
  (List.length items < 1 \/ 5 < List.length items)%nat ->
  Zod.array_min_max Zod.email 1 5 (JArr items) = None.
Proof.
  intros O. cbn [Zod.array_min_max].
  destruct (Nat.ltb_spec (List.length items) 1); [reflexivity|].
  destruct (Nat.ltb_spec 5 (List.length items)); [reflexivity|lia].
Qed.

(** C9: a campaign count below 1 or above 100, and a list of test
    addresses with no entry or more than 5, are refused by the input
    contract of either entry point, on that field, with no request
    issued; an omitted count is 20 in the request that is sent (with a
    credential whose endpoint [new URL] takes for a URL). *)
Theorem C9_bounds_rejected `{Builtins} (env : Env) (remote : Remote) (args : Args) :
  (forall x,
      Js.assoc "count" args = Some (JNum x) ->
      PrimFloat.ltb x 1%float = true \/ PrimFloat.ltb 100%float x = true ->
      rejected "count" (Index.invoke env ListCampaigns args remote)
      /\ rejected "count" (Api.invoke env ListCampaigns args remote))
  /\ (forall items,
      Js.assoc "test_emails" args = Some (JArr items) ->
      (List.length items < 1 \/ 5 < List.length items)%nat ->
      rejected "test_emails" (Index.invoke env SendTest args remote)
      /\ rejected "test_emails" (Api.invoke env SendTest args remote))
  /\ (Js.assoc "count" args = None ->
      Js.assoc "status" args = None ->
      Client.API_KEY env <> "" -> resolves env ->
      exists request,
        requests (Index.invoke env ListCampaigns args remote) = [request]
        /\ requests (Api.invoke env ListCampaigns args remote) = [request]
        /\ Js.assoc "count" (Http.searchParams request) = Some "20").
Proof.
  split; [|split].
  - intros x A O.
    pose proof (field_refused args "count" _ _ A (count_out_of_bounds x O)) as F.
    split; enter_tool; apply safeParse_refused, ap_refused_r, F.
  - intros items A O.
    pose proof (field_refused args "test_emails" _ _ A (emails_out_of_bounds items O)) as F.
    split; enter_tool; apply safeParse_refused, ap_refused_l, ap_refused_r, F.
  - intros C S K U. eexists.
    enter_tool.
    cbv [Zod.field Zod.optional Zod.default Zod.ap Zod.pure Zod.safeParse fst snd].
    rewrite C, S. cbv beta iota.
    enter_handler. cbv beta iota zeta.
    split; [|split].
    + unfold bind at 1. rewrite mailchimpRequest_set by assumption.
      destruct (settle _ _ _); [|reflexivity].
      rewrite bind_lift.
      match goal with |- context [bindR ?r ?k] => destruct (bindR r k) end; reflexivity.
    + unfold bind at 1. rewrite mc_set by assumption.
      destruct (settle _ _ _); [|reflexivity].
      rewrite bind_lift.
      match goal with |- context [bindR ?r ?k] => destruct (bindR r k) end; reflexivity.
    + unfold Http.searchParams, request_of, request_with.
      cbn [Http.url Client.params with_params with_entries URL.query].
      rewrite entries_no_index by reflexivity.
      unfold set_all. cbn [fold_left fst snd].
      rewrite !assoc_set_other by discriminate.
      rewrite assoc_set_same. vm_compute. reflexivity.
Qed.

Lemma C9_witness :
  rejected "count"
    (Index.invoke (H := example_builtins) (Some "abc123-us14") ListCampaigns
       [("count", JNum 101%float); ("test_emails", JArr [])] (always 200 (Some (JObj []))))
  /\ rejected "test_emails"
    (Index.invoke (H := example_builtins) (Some "abc123-us14") SendTest
       [("count", JNum 101%float); ("test_emails", JArr [])] (always 200 (Some (JObj [])))).
Proof.
  destruct (C9_bounds_rejected (H := example_builtins) (Some "abc123-us14")
              (always 200 (Some (JObj [])))
              [("count", JNum 101%float); ("test_emails", JArr [])])
    as (count & emails & _).
  split.
  - apply (count 101%float); [reflexivity | right; reflexivity].
  - apply (emails []); [reflexivity | left; simpl; lia].
Defined.

(** Inside the bounds the contract lets the invocation through. *)
Example count_in_bounds :
  exists request,
    requests (Index.invoke (H := example_builtins) (Some "abc123-us14") ListCampaigns
                [("count", JNum 100%float); ("status", JStr "sent")]
                (always 200 (Some (JObj [("campaigns", JArr [])])))) = [request]
    /\ Http.searchParams request
       = [("count", "100"); ("sort_field", "create_time"); ("sort_dir", "DESC");
          ("status", "sent")].
Proof. eexists. split; reflexivity. Qed.

(* ================================================================== *)
(** * What the handlers return on a successful answer *)

Section Answers.
Context `{Builtins}.
Variables (env : Env) (data : JsValue).
Hypothesis configured : Client.API_KEY env <> "".
Hypothesis endpoint : resolves env.

Let remote : Remote := always 200 (Some data).

Lemma index_answer options :
  Client.mailchimpRequest env options remote = ([request_of env options], Ok data).
Proof. now rewrite mailchimpRequest_set by assumption. Qed.

Lemma api_answer method path body params :
  exists request, Api.mc env method path body params remote = ([request], Ok data).
Proof. eexists. now rewrite mc_set by assumption. Qed.

Lemma list_audiences_answer :
  outcome (Index.list_audiences env tt remote)
    = shown (let? lists := Js.prop data "lists" in
             Js.array_map lists Index.audience_summary)
  /\ outcome (Api.list_audiences env tt remote)
    = shown (let? lists := Js.prop data "lists" in
             Js.array_map lists Api.audience_summary).
Proof.
  enter_handler. split.
  - erewrite call_then_project by apply index_answer. reflexivity.
  - destruct (api_answer "GET" "/lists" None
                (Some [("count", "100"); ("fields", "lists.id,lists.name,lists.stats")]))
      as [request E].
    erewrite call_then_project by exact E. reflexivity.
Qed.



End Answers.

(* ================================================================== *)
(** * Serialization keeps what is defined *)

Lemma json_of_undefined v : is_undefined (Js.json_of v) = is_undefined v.
Proof.
  destruct v; try reflexivity.
  cbn [Js.json_of]. destruct (PrimFloat.is_finite x); reflexivity.
Qed.



(** A defined property of an object is serialized under its key. *)
Lemma prop_json_of fields k v :
  Js.assoc k fields = Some v -> is_undefined v = false ->
  Js.assoc k (match Js.json_of (JObj fields) with JObj out => out | _ => [] end)
  = Some (Js.json_of v).
Proof.
  cbn [Js.json_of].
  induction fields as [|[k' w] tl IH]; [discriminate|].
  cbn [Js.assoc]. destruct (String.eqb k k') eqn:E.
  - intros [= ->] D. rewrite <- json_of_undefined in D.
    destruct (Js.json_of v); try discriminate D; cbn [Js.assoc]; rewrite E; reflexivity.
  - intros A D. specialize (IH A D).
    destruct (Js.json_of w); cbn [Js.assoc]; rewrite ?E; exact IH.
Qed.

(* ================================================================== *)
(** * Projections of list-campaigns and get-report (C3, C10) *)

Lemma opt_prop_field_of v k : Js.opt_prop v k = Ok (field_of v k).
Proof. destruct v; reflexivity. Qed.


Lemma campaign_summary_agree c : Api.campaign_summary c = Index.campaign_summary c.
Proof. reflexivity. Qed.










Section Report.
Variables (campaign_id : string) (fields : list (string * JsValue)).




End Report.





(* ================================================================== *)
(** * Zero counts in list-campaigns (C10) *)




(** Through the whole tool: a campaign with zero counts and one without
    counts are shown alike. *)
Example zero_counts_shown_as_absent :
  let shown_for campaign :=
    outcome (Index.invoke (H := example_builtins) (Some "abc123-us14") ListCampaigns []
               (always 200 (Some (JObj [("campaigns", JArr [campaign])])))) in
  let row := JObj [("id", JStr "c1"); ("title", JStr "T"); ("subject", JStr "(no subject)");
                   ("sent", JNull); ("emails_sent", JNull);
                   ("opens", JNull); ("clicks", JNull)] in
  shown_for (JObj [("id", JStr "c1"); ("settings", JObj [("title", JStr "T")]);
                   ("emails_sent", JNum 0%float);
                   ("report_summary", JObj [("unique_opens", JNum 0%float);
                                            ("subscriber_clicks", JNum 0%float)])])
  = Ok (JArr [row])
  /\ shown_for (JObj [("id", JStr "c1"); ("settings", JObj [("title", JStr "T")])])
  = Ok (JArr [row]).
Proof. split; reflexivity. Qed.

(* ================================================================== *)
(** * Rates as percentages (C8) *)

Section Digits.

Lemma string_of_uint_digits d : all_digits (NilEmpty.string_of_uint d) = true.
Proof. induction d; cbn; auto. Qed.

Lemma of_N_digits n : all_digits (Str.of_N n) = true /\ Str.of_N n <> "".
Proof.
  split; [apply string_of_uint_digits|].
  unfold Str.of_N. destruct n as [|p]; [discriminate|].
  cbn [N.to_uint]. pose proof (DecimalPos.Unsigned.to_uint_nonnil p) as NN.
  destruct (Pos.to_uint p); [congruence| | | | | | | | | |]; discriminate.
Qed.

Lemma of_N_digit r :
  (r < 10)%N -> exists c, Str.of_N r = String c "" /\ is_digit c = true.
Proof.
  intros L.
  assert (C : (r = 0 \/ r = 1 \/ r = 2 \/ r = 3 \/ r = 4 \/ r = 5 \/ r = 6
               \/ r = 7 \/ r = 8 \/ r = 9)%N) by lia.
  repeat (destruct C as [->|C]; [eexists; split; reflexivity|]).
  subst r. eexists; split; reflexivity.
Qed.

Context `{Builtins}.

(** In its fixed-point range [toFixed(1)] writes one decimal place. *)
Lemma toFixed1_one_decimal x : Js.fixed_range x = true -> one_decimal (Js.toFixed1 x).
Proof.
  unfold Js.fixed_range, Js.toFixed1.
  destruct (Prim2SF x) as [s| | |s m e]; try discriminate.
  - intros _. exists "", "0", "0"%char. repeat split; auto. discriminate.
  - intros ->.
    set (n := Js.nearest_tenths m e).
    destruct (of_N_digit (Z.to_N (n mod 10))) as [c [E D]].
    { pose proof (Z.mod_pos_bound n 10 ltac:(lia)). lia. }
    destruct (of_N_digits (Z.to_N (n / 10))) as [A NE].
    exists (if s then "-" else ""), (Str.of_N (Z.to_N (n / 10))), c.
    rewrite E. repeat split; auto.
    destruct s; auto.
Qed.

(** In its fixed-point range [toFixed(1)] writes the nearest number of
    tenths of a float that is not negative. *)
Lemma toFixed1_writes_tenths x :
  Js.fixed_range x = true ->
  match Prim2SF x with S754_finite true _ _ => False | _ => True end ->
  writes_tenths x (Js.toFixed1 x).
Proof.
  unfold Js.fixed_range, Js.toFixed1, writes_tenths.
  destruct (Prim2SF x) as [s| | |s m e]; try discriminate.
  - intros _ _. exists 0%Z. split; reflexivity.
  - intros -> P. destruct s; [contradiction|].
    exists (Js.nearest_tenths m e). split; [reflexivity|].
    unfold Js.nearest_tenths. destruct (0 <=? e)%Z eqn:E; [reflexivity|].
    apply Z.leb_gt in E.
    assert (Q : (0 < 2 ^ (- e))%Z) by (apply Z.pow_pos_nonneg; lia).
    set (q := (2 ^ (- e))%Z) in *.
    pose proof (Z.div_mod (2 * 10 * Zpos m + q) (2 * q) ltac:(lia)) as D.
    pose proof (Z.mod_pos_bound (2 * 10 * Zpos m + q) (2 * q) ltac:(lia)) as B.
    set (n := ((2 * 10 * Zpos m + q) / (2 * q))%Z) in *.
    set (r := ((2 * 10 * Zpos m + q) mod (2 * q))%Z) in *.
    clearbody n r q. nia.
Qed.

Lemma percent_one_decimal x :
  Js.fixed_range (PrimFloat.mul x 100%float) = true ->
  match Prim2SF (PrimFloat.mul x 100%float) with
  | S754_finite true _ _ => False
  | _ => True
  end ->
  exists s, percent (JNum x) = s ++ "%" /\ one_decimal s
            /\ writes_tenths (PrimFloat.mul x 100%float) s.
Proof.
  intros R P. exists (Js.toFixed1 (PrimFloat.mul x 100%float)). split; [reflexivity|].
  split; [now apply toFixed1_one_decimal|now apply toFixed1_writes_tenths].
Qed.

End Digits.

(* ================================================================== *)
(** * The hundredfold of a fraction

    Binary64 multiplication, as the library specifies it, keeps the
    product of a number of [0, 1] and 100 finite and far below 10^21. *)

Section Rounding.
Local Open Scope Z_scope.


Lemma digits2_size p : digits2_pos p = Pos.size p.
Proof. induction p; simpl; congruence. Qed.

Lemma Zdigits2_gt m : 0 <= m -> m < 2 ^ Zdigits2 m.
Proof.
  destruct m as [|p|p]; intros N; [reflexivity| |lia].
  cbn [Zdigits2]. rewrite digits2_size.
  pose proof (Pos.size_gt p) as G. rewrite <- Pos2Z.inj_pow. lia.
Qed.

Lemma Zdigits2_le m k : 0 <= m -> 0 <= k -> m < 2 ^ k -> Zdigits2 m <= k.
Proof.
  destruct m as [|p|p]; intros N K L; [exact K| |lia].
  cbn [Zdigits2]. rewrite digits2_size.
  pose proof (Pos.size_le p) as G.
  assert (2 ^ Zpos (Pos.size p) <= 2 * Zpos p).
  { rewrite <- Pos2Z.inj_pow. lia. }
  destruct (Z_lt_le_dec k (Zpos (Pos.size p))) as [Lt|]; [|assumption].
  assert (2 ^ (k + 1) <= 2 ^ Zpos (Pos.size p)) by (apply Z.pow_le_mono_r; lia).
  rewrite Z.pow_add_r in * by lia. lia.
Qed.

Lemma Zdigits2_nonneg m : 0 <= Zdigits2 m.
Proof. destruct m; cbn; lia. Qed.

Lemma shr_1_m mrs : 0 <= shr_m mrs -> shr_m (shr_1 mrs) = shr_m mrs / 2.
Proof.
  destruct mrs as [m r s]. cbn [shr_m]. intros N.
  destruct m as [|[p|p|]|p]; cbn [shr_1 shr_m]; try lia; try reflexivity.
  - apply Z.div_unique with (r := 1); lia.
  - apply Z.div_unique with (r := 0); lia.
Qed.

Lemma pow2_xO p : 2 ^ Zpos p~0 = 2 ^ Zpos p * 2 ^ Zpos p.
Proof.
  replace (Zpos p~0) with (Zpos p + Zpos p) by lia.
  apply Z.pow_add_r; lia.
Qed.

Lemma pow2_xI p : 2 ^ Zpos p~1 = 2 * (2 ^ Zpos p * 2 ^ Zpos p).
Proof.
  replace (Zpos p~1) with (1 + Zpos p~0) by lia.
  rewrite Z.pow_add_r by lia. change (2 ^ 1) with 2. f_equal. apply pow2_xO.
Qed.

Lemma iter_shr_m p : forall mrs,
  0 <= shr_m mrs -> shr_m (iter_pos shr_1 p mrs) = shr_m mrs / 2 ^ Zpos p.
Proof.
  induction p as [p IH|p IH|]; intros mrs N; cbn [iter_pos].
  - assert (P : 0 < 2 ^ Zpos p) by (apply Z.pow_pos_nonneg; lia).
    assert (N1 : 0 <= shr_m (shr_1 mrs)).
    { rewrite shr_1_m by lia. apply Z.div_pos; lia. }
    assert (N2 : 0 <= shr_m (iter_pos shr_1 p (shr_1 mrs))).
    { rewrite IH by lia. apply Z.div_pos; lia. }
    rewrite (IH _ N2), (IH _ N1), shr_1_m by lia.
    rewrite !Z.div_div by lia. now rewrite pow2_xI, Z.mul_assoc.
  - assert (P : 0 < 2 ^ Zpos p) by (apply Z.pow_pos_nonneg; lia).
    assert (N2 : 0 <= shr_m (iter_pos shr_1 p mrs)).
    { rewrite IH by lia. apply Z.div_pos; lia. }
    rewrite (IH _ N2), (IH _ N).
    rewrite !Z.div_div by lia. now rewrite pow2_xO.
  - rewrite shr_1_m by lia. reflexivity.
Qed.

Lemma shr_record_m m l : shr_m (shr_record_of_loc m l) = m.
Proof. destruct l as [|[]]; reflexivity. Qed.

Lemma shr_fexp_small m e l B :
  0 <= m -> Zdigits2 m + e <= B -> e <= -44 -> -44 <= B <= 9 ->
  let out := shr_fexp prec emax m e l in
  0 <= shr_m (fst out) /\ Zdigits2 (shr_m (fst out)) + snd out <= B /\ snd out <= -44.
Proof.
  intros N D E HB. unfold shr_fexp, shr.
  change (fexp prec emax (Zdigits2 m + e))
    with (Z.max (Zdigits2 m + e - 53) (-1074)).
  remember (Z.max (Zdigits2 m + e - 53) (-1074) - e) as n eqn:En.
  destruct n as [|p|p]; cbn [fst snd]; rewrite ?shr_record_m;
    try (repeat split; lia).
  rewrite iter_shr_m by (rewrite shr_record_m; lia). rewrite shr_record_m.
  assert (P : 0 < 2 ^ Zpos p) by (apply Z.pow_pos_nonneg; lia).
  pose proof (Zdigits2_gt m N) as G. pose proof (Zdigits2_nonneg m) as NN.
  assert (Q : 0 <= m / 2 ^ Zpos p) by (apply Z.div_pos; lia).
  split; [exact Q|]. split; [|lia].
  destruct (Z_le_gt_dec (Zpos p) (Zdigits2 m)) as [L|L].
  - assert (U : m / 2 ^ Zpos p < 2 ^ (Zdigits2 m - Zpos p)).
    { apply Z.div_lt_upper_bound; [lia|]. rewrite <- Z.pow_add_r by lia.
      replace (Zpos p + (Zdigits2 m - Zpos p)) with (Zdigits2 m) by lia. exact G. }
    pose proof (Zdigits2_le _ (Zdigits2 m - Zpos p) Q ltac:(lia) U). lia.
  - assert (U : m < 2 ^ Zpos p).
    { eapply Z.lt_le_trans; [exact G|]. apply Z.pow_le_mono_r; lia. }
    rewrite Z.div_small by lia. cbn [Zdigits2]. lia.
Qed.

Lemma round_small m l :
  0 <= m ->
  0 <= round_nearest_even m l
  /\ Zdigits2 (round_nearest_even m l) <= Zdigits2 m + 1.
Proof.
  intros N. pose proof (Zdigits2_nonneg m) as NN. pose proof (Zdigits2_gt m N) as G.
  assert (S : Zdigits2 (m + 1) <= Zdigits2 m + 1).
  { apply Zdigits2_le; [lia|lia|]. rewrite Z.pow_add_r by lia.
    change (2 ^ 1) with 2. lia. }
  destruct l as [|[]]; cbn [round_nearest_even]; try destruct (Z.even m);
    split; lia.
Qed.

(** Rounding a small non-negative product gives zero or a small finite
    number. *)
Lemma binary_round_aux_small m e :
  0 <= m -> Zdigits2 m + e <= 8 -> e <= -44 ->
  match binary_round_aux prec emax false m e loc_Exact with
  | S754_zero _ => True
  | S754_finite _ q e' => Zdigits2 (Zpos q) + e' <= 9
  | _ => False
  end.
Proof.
  intros N D E. unfold binary_round_aux.
  pose proof (shr_fexp_small m e loc_Exact 8 N D E ltac:(lia)) as S1.
  destruct (shr_fexp prec emax m e loc_Exact) as [mrs' e'].
  cbn [fst snd] in S1. destruct S1 as (N1 & D1 & E1).
  pose proof (round_small (shr_m mrs') (loc_of_shr_record mrs') N1) as (N2 & D2).
  remember (round_nearest_even (shr_m mrs') (loc_of_shr_record mrs')) as r.
  pose proof (shr_fexp_small r e' loc_Exact 9 N2 ltac:(lia) E1 ltac:(lia)) as S2.
  destruct (shr_fexp prec emax r e' loc_Exact) as [mrs'' e''].
  cbn [fst snd] in S2. destruct S2 as (N3 & D3 & E3).
  destruct (shr_m mrs'') as [|q|q]; [exact I| |lia].
  change (emax - prec) with 971.
  destruct (Z.leb_spec e'' 971); [exact D3|lia].
Qed.

Lemma below_of_digits q e : Zdigits2 (Zpos q) + e <= 69 -> Js.below_1e21 q e = true.
Proof.
  intros D. pose proof (Zdigits2_gt (Zpos q) ltac:(lia)) as G.
  pose proof (Zdigits2_nonneg (Zpos q)) as NN.
  assert (B : 2 ^ 69 < 10 ^ 21) by reflexivity.
  unfold Js.below_1e21. destruct (Z.leb_spec 0 e) as [P|P].
  - apply Z.ltb_lt.
    assert (Zpos q * 2 ^ e < 2 ^ (Zdigits2 (Zpos q) + e)).
    { rewrite Z.pow_add_r by lia. apply Z.mul_lt_mono_pos_r; [apply Z.pow_pos_nonneg; lia|exact G]. }
    assert (2 ^ (Zdigits2 (Zpos q) + e) <= 2 ^ 69) by (apply Z.pow_le_mono_r; lia).
    lia.
  - apply Z.ltb_lt.
    assert (2 ^ Zdigits2 (Zpos q) <= 2 ^ (69 + - e)) by (apply Z.pow_le_mono_r; lia).
    rewrite Z.pow_add_r in * by lia.
    assert (0 < 2 ^ (- e)) by (apply Z.pow_pos_nonneg; lia).
    nia.
Qed.

(** The hundredfold of a fraction is in the fixed-point range. *)
Lemma fraction_fixed_range x :
  (0 <=? x)%float = true -> (x <=? 1)%float = true ->
  Js.fixed_range (x * 100)%float = true.
Proof.
  rewrite !leb_spec. unfold Js.fixed_range. rewrite mul_spec.
  pose proof (Prim2SF_valid x) as V.
  change (Prim2SF 0) with (S754_zero false).
  change (Prim2SF 1) with (S754_finite false 4503599627370496 (-52)).
  change (Prim2SF 100) with (S754_finite false 7036874417766400 (-46)).
  destruct (Prim2SF x) as [s|s| |s m e].
  - reflexivity.
  - intros Z O. destruct s; [discriminate Z|discriminate O].
  - intros Z. discriminate Z.
  - intros Z O. destruct s; [discriminate Z|]. clear Z.
    cbn [SF64mul SFmul xorb].
    cbn [valid_binary] in V. unfold bounded, canonical_mantissa in V.
    apply andb_true_iff in V. destruct V as [C _]. apply Z.eqb_eq in C.
    change (fexp prec emax (Zpos (digits2_pos m) + e))
      with (Z.max (Zpos (digits2_pos m) + e - 53) (-1074)) in C.
    pose proof (Zdigits2_gt (Zpos m) ltac:(lia)) as G. cbn [Zdigits2] in G.
    assert (DM : Zpos (digits2_pos m) + e <= 1).
    { unfold SFleb, SFcompare in O.
      destruct (Z.compare_spec e (-52)) as [->|L|L]; [|lia|discriminate O].
      rewrite Pos.compare_cont_spec in O. cbn [Pos.switch_Eq] in O.
      destruct (Pos.compare_spec m 4503599627370496) as [->|L|L];
        [now vm_compute| |discriminate O].
      apply Pos2Z.pos_lt_pos in L.
      assert (L53 : Zpos m < 2 ^ 53).
      { change (2 ^ 53) with 9007199254740992. clear - L. lia. }
      pose proof (Zdigits2_le (Zpos m) 53 ltac:(clear; lia) ltac:(clear; lia) L53) as U.
      cbn [Zdigits2] in U. clear - U. lia. }
    clear O.
    assert (U : Zpos (m * 7036874417766400) < 2 ^ (Zpos (digits2_pos m) + 53)).
    { rewrite Z.pow_add_r, Pos2Z.inj_mul by (clear; lia || (pose proof (Pos2Z.is_pos (digits2_pos m)); lia)).
      change (2 ^ 53) with 9007199254740992. clear - G. lia. }
    pose proof (Pos2Z.is_pos (digits2_pos m)) as PD.
    pose proof (Zdigits2_le (Zpos (m * 7036874417766400)) (Zpos (digits2_pos m) + 53)
                  (Pos2Z.pos_is_nonneg _) ltac:(clear - PD; lia) U) as DP.
    assert (D8 : Zdigits2 (Zpos (m * 7036874417766400)) + (e + -46) <= 8)
      by (clear - DP DM; lia).
    assert (E44 : e + -46 <= -44) by (clear - DM PD; lia).
    pose proof (binary_round_aux_small (Zpos (m * 7036874417766400)) (e + -46)
                  (Pos2Z.pos_is_nonneg _) D8 E44) as R.
    destruct (binary_round_aux prec emax false (Zpos (m * 7036874417766400))
                (e + -46) loc_Exact) as [s|s| |s q e'];
      [reflexivity | contradiction | contradiction |].
    apply below_of_digits. clear - R. lia.
Qed.

Lemma binary_round_aux_sign s m e l :
  match binary_round_aux prec emax s m e l with
  | S754_zero s' | S754_infinity s' | S754_finite s' _ _ => s' = s
  | S754_nan => True
  end.
Proof.
  unfold binary_round_aux.
  destruct (shr_fexp prec emax m e l) as [mrs' e'].
  destruct (shr_fexp prec emax _ e' loc_Exact) as [mrs'' e''].
  destruct (shr_m mrs'') as [|q|q]; [reflexivity| |exact I].
  destruct (e'' <=? emax - prec); reflexivity.
Qed.

(** The hundredfold of a fraction is not negative. *)
Lemma fraction_product_sign x :
  (0 <=? x)%float = true ->
  match Prim2SF (x * 100)%float with
  | S754_finite true _ _ => False
  | _ => True
  end.
Proof.
  rewrite leb_spec, mul_spec.
  change (Prim2SF 0) with (S754_zero false).
  change (Prim2SF 100) with (S754_finite false 7036874417766400 (-46)).
  destruct (Prim2SF x) as [s|s| |s m e]; try (intros _; exact I).
  intros Z. destruct s; [discriminate Z|]. clear Z.
  cbn [SF64mul SFmul xorb].
  pose proof (binary_round_aux_sign false (Zpos (m * 7036874417766400)) (e + -46)
                loc_Exact) as S.
  destruct (binary_round_aux prec emax false (Zpos (m * 7036874417766400))
              (e + -46) loc_Exact) as [s|s| |s q e']; try exact I.
  now subst s.
Qed.

End Rounding.

(** C8: list-audiences shows each audience's open and click rate, a
    fraction of [0, 1], as a percentage in fixed-point notation with one
    decimal place, and the member count as subscribers: the string shown
    is digits, a point, one digit and "%", and it writes the number of
    tenths nearest to the hundredfold of the rate (the binary64 product,
    the larger number when two are as near).  Stats
    {member_count: 250, open_rate: 0.423, click_rate: 0.081} are shown as
    subscribers 250, open_rate "42.3%", click_rate "8.1%" (on the answer
    to the request sent with the credential abc123-us14). *)
Theorem C8_rates_as_percentages `{Builtins} :
  (forall fields stats open_rate click_rate,
      Js.assoc "stats" fields = Some (JObj stats) ->
      Js.assoc "open_rate" stats = Some (JNum open_rate) ->
      Js.assoc "click_rate" stats = Some (JNum click_rate) ->
      is_fraction open_rate = true ->
      is_fraction click_rate = true ->
      exists row o c,
        Index.audience_summary (JObj fields) = Ok row
        /\ Api.audience_summary (JObj fields) = Ok row
        /\ Js.prop row "subscribers" = Ok (field_of (JObj stats) "member_count")
        /\ Js.prop row "open_rate" = Ok (JStr (o ++ "%")) /\ one_decimal o
        /\ writes_tenths (open_rate * 100)%float o
        /\ Js.prop row "click_rate" = Ok (JStr (c ++ "%")) /\ one_decimal c
        /\ writes_tenths (click_rate * 100)%float c)
  /\ (forall id name : string,
      resolves (Some "abc123-us14") ->
      let remote :=
        always 200
          (Some (JObj [("lists",
                        JArr [JObj [("id", JStr id); ("name", JStr name);
                                    ("stats", JObj [("member_count", JNum 250%float);
                                                    ("open_rate", JNum 0.423%float);
                                                    ("click_rate", JNum 0.081%float)])]])])) in
      let shown := Ok (JArr [JObj [("id", JStr id); ("name", JStr name);
                                   ("subscribers", JNum 250%float);
                                   ("open_rate", JStr "42.3%");
                                   ("click_rate", JStr "8.1%")]]) in
      outcome (Index.invoke (Some "abc123-us14") ListAudiences [] remote) = shown
      /\ outcome (Api.invoke (Some "abc123-us14") ListAudiences [] remote) = shown).
Proof.
  split.
  - intros fields stats open_rate click_rate S O C FO FC.
    apply andb_true_iff in FO, FC.
    destruct (percent_one_decimal open_rate) as (o & EO & DO & WO);
      [apply fraction_fixed_range; tauto|apply fraction_product_sign; tauto|].
    destruct (percent_one_decimal click_rate) as (c & EC & DC & WC);
      [apply fraction_fixed_range; tauto|apply fraction_product_sign; tauto|].
    exists (JObj [("id", field_of (JObj fields) "id");
                  ("name", field_of (JObj fields) "name");
                  ("subscribers", field_of (JObj stats) "member_count");
                  ("open_rate", JStr (o ++ "%"));
                  ("click_rate", JStr (c ++ "%"))]), o, c.
    assert (E : Index.audience_summary (JObj fields)
                = Ok (JObj [("id", field_of (JObj fields) "id");
                            ("name", field_of (JObj fields) "name");
                            ("subscribers", field_of (JObj stats) "member_count");
                            ("open_rate", JStr (o ++ "%"));
                            ("click_rate", JStr (c ++ "%"))])).
    { unfold Index.audience_summary. cbn [Js.prop bindR field_of].
      rewrite S. cbn [Js.prop bindR]. rewrite O, C. cbn [bindR].
      rewrite EO, EC. reflexivity. }
    repeat split; try exact E; auto.
  - intros id name U remote shown. subst remote shown.
    assert (K : Client.API_KEY (Some "abc123-us14") <> "") by discriminate.
    match goal with |- context [always 200 (Some ?d)] =>
      destruct (list_audiences_answer (Some "abc123-us14") d K U) as [I A] end.
    split; enter_tool; cbv [Zod.safeParse Zod.pure]; [rewrite I|rewrite A];
      vm_compute; reflexivity.
Qed.

Lemma C8_witness :
  exists row o,
    Index.audience_summary (H := example_builtins)
      (JObj [("id", JStr "a1"); ("name", JStr "News");
             ("stats", JObj [("member_count", JNum 250%float);
                             ("open_rate", JNum 0.423%float);
                             ("click_rate", JNum 0.081%float)])]) = Ok row
    /\ Js.prop row "open_rate" = Ok (JStr (o ++ "%"))
    /\ one_decimal o
    /\ writes_tenths (0.423 * 100)%float o.
Proof.
  destruct (C8_rates_as_percentages (H := example_builtins)) as [general _].
  destruct (general
              [("id", JStr "a1"); ("name", JStr "News");
               ("stats", JObj [("member_count", JNum 250%float);
                               ("open_rate", JNum 0.423%float);
                               ("click_rate", JNum 0.081%float)])]
              [("member_count", JNum 250%float);
               ("open_rate", JNum 0.423%float);
               ("click_rate", JNum 0.081%float)]
              0.423%float 0.081%float
              eq_refl eq_refl eq_refl eq_refl eq_refl)
    as (row & o & c & I & _ & _ & O & D & W & _).
  exists row, o. repeat split; assumption.
Defined.

(* ================================================================== *)
(** * The two entry points side by side (C2) *)

Section SideBySide.
Context `{Builtins}.
Variables (env : Env) (remote : Remote).









End SideBySide.




(* ================================================================== *)
(** * Every invocation: refused, or one call of the client *)

Section Calls.
Context {A B C : Type}.

Lemma call_then_project_eq (m : M A) (k : A -> Result B) (f : B -> C) remote :
  bind m (fun a => bind (lift (k a)) (fun b => ret (f b))) remote
  = (requests (m remote),
     bindR (outcome (m remote)) (fun a => bindR (k a) (fun b => Ok (f b)))).
Proof. apply call_then_project. destruct (m remote); reflexivity. Qed.

Lemma call_then_return_eq (m : M A) (c : C) remote :
  bind m (fun _ => ret c) remote
  = (requests (m remote), bindR (outcome (m remote)) (fun _ => Ok c)).
Proof. apply call_then_return. destruct (m remote); reflexivity. Qed.

End Calls.

Lemma string_Some v s : Zod.string v = Some s -> v = JStr s.
Proof. destruct v; cbn; congruence. Qed.

Lemma email_Some `{Builtins} v s : Zod.email v = Some s -> v = JStr s.
Proof. destruct v; cbn; try congruence. destruct (email_test s0); congruence. Qed.

(** Splits the validation of an input into the verdicts on its fields. *)
Ltac verdicts :=
  cbv [Zod.safeParse Zod.ap Zod.pure Zod.field fst snd];
  repeat match goal with
    | |- context [Zod.string ?v] =>
        let E := fresh "E" in destruct (Zod.string v) eqn:E
    | |- context [Zod.email ?v] =>
        let E := fresh "E" in destruct (Zod.email v) eqn:E
    | |- context [Zod.optional ?s ?v] =>
        let E := fresh "E" in destruct (Zod.optional s v) eqn:E
    | |- context [Zod.default ?s ?d ?v] =>
        let E := fresh "E" in destruct (Zod.default s d v) eqn:E
    | |- context [Zod.array_min_max ?s ?a ?b ?v] =>
        let E := fresh "E" in destruct (Zod.array_min_max s a b v) eqn:E
    end.

(** Reads the campaign id that passed validation back from the arguments. *)
Ltac campaign_id_read :=
  cbn [path_of]; unfold arg;
  repeat match goal with
    | E : Zod.string ?v = Some ?s |- context [text_of ?v] =>
        rewrite (string_Some v s E); cbn [text_of]
    end.

Lemma only_Ok {T} (t : T) : only_TypeError (Ok t).
Proof. intros e E. discriminate E. Qed.

Lemma only_bindR {A B} (r : Result A) (k : A -> Result B) :
  only_TypeError r -> (forall a, only_TypeError (k a)) -> only_TypeError (bindR r k).
Proof.
  intros R K e. destruct r as [a|e']; cbn [bindR].
  - apply K.
  - intros [= <-]. now apply R.
Qed.

Lemma only_mapR {A B} (f : A -> Result B) (l : list A) :
  (forall a, only_TypeError (f a)) -> only_TypeError (mapR f l).
Proof.
  intros F. induction l as [|a tl IH]; cbn [mapR]; [apply only_Ok|].
  apply only_bindR; [apply F|]. intros b.
  apply only_bindR; [exact IH|]. intros bs. apply only_Ok.
Qed.

Lemma only_prop v k : only_TypeError (Js.prop v k).
Proof. intros e. destruct v; cbn; congruence. Qed.

Lemma only_opt_prop v k : only_TypeError (Js.opt_prop v k).
Proof. intros e. destruct v; cbn; congruence. Qed.

Lemma only_array_map v f :
  (forall a, only_TypeError (f a)) -> only_TypeError (Js.array_map v f).
Proof.
  intros F. destruct v; cbn [Js.array_map]; try (intros e; congruence).
  apply only_bindR; [now apply only_mapR|]. intros out. apply only_Ok.
Qed.

(** Settles that a projection can only fail with a TypeError. *)
Ltac only_type_error :=
  repeat first
    [ apply only_Ok
    | apply only_prop
    | apply only_opt_prop
    | apply only_array_map; intros ?
    | apply only_bindR; [|intros ?] ].

Section Shape.
Context `{Builtins}.
Variables (env : Env) (remote : Remote).

Lemma invoke_shape (op : Operation) (args : Args) :
  (refused (Index.invoke env op args remote) /\ refused (Api.invoke env op args remote))
  \/ one_call env op args remote
       (Index.invoke env op args remote) (Api.invoke env op args remote).
Proof.
  destruct op; enter_tool; verdicts;
    first
      [ left; split; eexists; reflexivity
      | right; enter_handler; cbv zeta;
        unfold one_call; do 3 eexists;
        split; [|split; [|split; [|split]]]; cycle 3;
        [ first [ apply call_then_project_eq | apply call_then_return_eq ]
        | cbn [Client.method Client.path Client.body Client.params];
          first [ apply call_then_project_eq | apply call_then_return_eq ]
        | reflexivity
        | cbn [Client.path]; campaign_id_read; reflexivity
        | intros a; split;
          unfold Index.audience_summary, Index.campaign_summary, Index.report_summary,
            Api.audience_summary, Api.campaign_summary, Api.report_summary;
          only_type_error ] ].
Qed.

End Shape.

Section OneCall.
Context `{Builtins}.
Variables (env : Env) (remote : Remote).

Lemma client_requests options :
  requests (Client.mailchimpRequest env options remote) = []
  \/ exists url,
       Client.API_KEY env <> ""
       /\ URL_parse (Client.BASE_URL env ++ Client.path options) = Some url
       /\ requests (Client.mailchimpRequest env options remote)
          = [request_with env options url].
Proof.
  destruct (String.eqb_spec (Client.API_KEY env) "") as [E|K].
  - left. now rewrite mailchimpRequest_not_set.
  - destruct (URL_parse (Client.BASE_URL env ++ Client.path options)) as [url|] eqn:P.
    + right. exists url. split; [exact K|]. split; [reflexivity|].
      now rewrite (mailchimpRequest_parsed env options remote url K P).
    + left. now rewrite mailchimpRequest_unparsed.
Qed.

Lemma mc_requests options :
  requests (Api.mc env (Client.method options) (Client.path options)
              (Client.body options) (Client.params options) remote) = []
  \/ exists url,
       Client.API_KEY env <> ""
       /\ URL_parse (Client.BASE_URL env ++ Client.path options) = Some url
       /\ requests (Api.mc env (Client.method options) (Client.path options)
                      (Client.body options) (Client.params options) remote)
          = [request_with env options url].
Proof.
  destruct options as [m p b ps]. cbn [Client.method Client.path Client.body Client.params].
  destruct (String.eqb_spec (Client.API_KEY env) "") as [E|K].
  - left. now rewrite mc_not_set.
  - destruct (URL_parse (Client.BASE_URL env ++ p)) as [url|] eqn:P.
    + right. exists url. split; [exact K|]. split; [reflexivity|].
      now rewrite (mc_parsed env m p b ps remote url K P).
    + left. now rewrite mc_unparsed.
Qed.

(** The requests of an invocation: none, or the one of its client call. *)
Lemma invoke_requests (op : Operation) (args : Args) :
  (requests (Index.invoke env op args remote) = []
   \/ exists options url,
        Client.API_KEY env <> ""
        /\ Client.method options = method_of op
        /\ Client.path options = path_of op (text_of (arg args "campaign_id"))
        /\ URL_parse (Client.BASE_URL env ++ Client.path options) = Some url
        /\ requests (Index.invoke env op args remote) = [request_with env options url])
  /\ (requests (Api.invoke env op args remote) = []
      \/ exists options url,
           Client.API_KEY env <> ""
           /\ Client.method options = method_of op
           /\ Client.path options = path_of op (text_of (arg args "campaign_id"))
           /\ URL_parse (Client.BASE_URL env ++ Client.path options) = Some url
           /\ requests (Api.invoke env op args remote) = [request_with env options url]).
Proof.
  destruct (invoke_shape env remote op args)
    as [[[i ->] [j ->]] | (options & k & k' & Hm & Hp & _ & -> & ->)].
  - split; left; reflexivity.
  - cbn [requests fst]. split.
    + destruct (client_requests options) as [E|(url & K & P & E)]; [now left|].
      right. now exists options, url.
    + destruct (mc_requests options) as [E|(url & K & P & E)]; [now left|].
      right. now exists options, url.
Qed.

Lemma with_params_location url params :
  URL.location (with_params url params) = URL.location url
  /\ URL.fragment (with_params url params) = URL.fragment url.
Proof. destruct params; split; reflexivity. Qed.

Lemma bindR_failures {A B} (r : Result A) (k : A -> Result B) :
  (forall a, only_TypeError (k a)) ->
  (forall e, r = Err e -> bindR r k = Err e)
  /\ (forall e, bindR r k = Err e -> r = Err e \/ e = TypeError).
Proof.
  intros K. split.
  - intros e ->. reflexivity.
  - intros e. destruct r as [a|e']; cbn [bindR].
    + intros E. right. exact (K a e E).
    + intros [= <-]. now left.
Qed.

End OneCall.

(** X1: a tool invocation issues at most one request, in both entry
    points: nothing is retried and nothing is fetched twice. *)
Theorem X1_at_most_one_request `{Builtins} (env : Env) (remote : Remote)
  (op : Operation) (args : Args) :
  (List.length (requests (Index.invoke env op args remote)) <= 1)%nat
  /\ (List.length (requests (Api.invoke env op args remote)) <= 1)%nat.
Proof.
  destruct (invoke_requests env remote op args) as [I A].
  split.
  - destruct I as [->|(options & url & _ & _ & _ & _ & ->)]; cbn; lia.
  - destruct A as [->|(options & url & _ & _ & _ & _ & ->)]; cbn; lia.
Qed.

(** X2: every request that an invocation issues, in either entry point,
    carries the configured credential as a bearer authorization and
    declares a JSON content type; no request is issued with an empty
    credential. *)
Theorem X2_requests_carry_credential `{Builtins} (env : Env) (remote : Remote)
  (op : Operation) (args : Args) (request : Http.Request) :
  In request (requests (Index.invoke env op args remote))
  \/ In request (requests (Api.invoke env op args remote)) ->
  Client.API_KEY env <> ""
  /\ Http.headers request = [("Authorization", "Bearer " ++ Client.API_KEY env);
                             ("Content-Type", "application/json")].
Proof.
  destruct (invoke_requests env remote op args) as [I A].
  intros [R|R].
  - destruct I as [E|(options & url & K & _ & _ & _ & E)]; rewrite E in R;
      [contradiction|].
    destruct R as [<-|[]]. split; [exact K|reflexivity].
  - destruct A as [E|(options & url & K & _ & _ & _ & E)]; rewrite E in R;
      [contradiction|].
    destruct R as [<-|[]]. split; [exact K|reflexivity].
Qed.

Lemma X2_witness :
  let request :=
    {| Http.method := "DELETE";
       Http.url := {| URL.location := "https://us14.api.mailchimp.com/3.0/campaigns/c1";
                      URL.query := []; URL.fragment := "" |};
       Http.headers := [("Authorization", "Bearer abc123-us14");
                        ("Content-Type", "application/json")];
       Http.body := None |} in
  In request (requests (Index.invoke (H := example_builtins) (Some "abc123-us14")
                          DeleteCampaign [("campaign_id", JStr "c1")] (always 204 None)))
  /\ Http.headers request = [("Authorization", "Bearer abc123-us14");
                             ("Content-Type", "application/json")].
Proof.
  split; [left; reflexivity|].
  apply (X2_requests_carry_credential (H := example_builtins) (Some "abc123-us14")
           (always 204 None) DeleteCampaign [("campaign_id", JStr "c1")]).
  left. left. reflexivity.
Defined.

(** X3: every request of an invocation, in either entry point, has the
    method of its operation and goes to the URL that [new URL] makes of
    the base endpoint followed by the path of the operation, in which
    the campaign id of the arguments is put as it is: the handlers encode
    nothing, so it is the constructor that decides what of a campaign id
    is path, query or fragment.  The request is a GET exactly for the
    tools annotated read-only, and the two entry points annotate every
    tool alike. *)
Theorem X3_request_mapping `{Builtins} (env : Env) (remote : Remote)
  (op : Operation) (args : Args) (request : Http.Request) :
  In request (requests (Index.invoke env op args remote))
  \/ In request (requests (Api.invoke env op args remote)) ->
  Http.method request = method_of op
  /\ (exists url,
        URL_parse (Client.BASE_URL env ++ path_of op (text_of (arg args "campaign_id")))
        = Some url
        /\ URL.location (Http.url request) = URL.location url
        /\ URL.fragment (Http.url request) = URL.fragment url)
  /\ (Http.method request = "GET" <-> readOnlyHint (index_annotations op) = true)
  /\ index_annotations op = api_annotations op.
Proof.
  destruct (invoke_requests env remote op args) as [I A].
  assert (G : (method_of op = "GET" <-> readOnlyHint (index_annotations op) = true)
              /\ index_annotations op = api_annotations op).
  { destruct op; cbn; repeat split; intros E; try reflexivity; discriminate E. }
  assert (Q : forall options url,
             Client.method options = method_of op ->
             Client.path options = path_of op (text_of (arg args "campaign_id")) ->
             URL_parse (Client.BASE_URL env ++ Client.path options) = Some url ->
             Http.method (request_with env options url) = method_of op
             /\ (exists url',
                   URL_parse (Client.BASE_URL env
                              ++ path_of op (text_of (arg args "campaign_id")))
                   = Some url'
                   /\ URL.location (Http.url (request_with env options url))
                      = URL.location url'
                   /\ URL.fragment (Http.url (request_with env options url))
                      = URL.fragment url')
             /\ (Http.method (request_with env options url) = "GET"
                 <-> readOnlyHint (index_annotations op) = true)
             /\ index_annotations op = api_annotations op).
  { intros options url Hm Hp P. unfold request_with. cbn [Http.method Http.url].
    rewrite Hm. rewrite Hp in P. split; [reflexivity|]. split; [|exact G].
    exists url. split; [exact P|]. apply with_params_location. }
  intros [R|R].
  - destruct I as [E|(options & url & _ & Hm & Hp & P & E)]; rewrite E in R;
      [contradiction|].
    destruct R as [<-|[]]. now apply Q.
  - destruct A as [E|(options & url & _ & Hm & Hp & P & E)]; rewrite E in R;
      [contradiction|].
    destruct R as [<-|[]]. now apply Q.
Qed.

Lemma X3_witness :
  let request :=
    {| Http.method := "PUT";
       Http.url := {| URL.location :=
                        "https://us14.api.mailchimp.com/3.0/campaigns/c1/content";
                      URL.query := []; URL.fragment := "" |};
       Http.headers := [("Authorization", "Bearer abc123-us14");
                        ("Content-Type", "application/json")];
       Http.body := Some (JObj [("html", JStr "<p>Hi</p>")]) |} in
  In request (requests (Api.invoke (H := example_builtins) (Some "abc123-us14")
                          SetContent
                          [("campaign_id", JStr "c1"); ("html", JStr "<p>Hi</p>")]
                          (always 204 None)))
  /\ Http.method request = "PUT"
  /\ exists url,
       URL_parse (Builtins := example_builtins)
         (Client.BASE_URL (Some "abc123-us14")
          ++ path_of SetContent
               (text_of (arg [("campaign_id", JStr "c1"); ("html", JStr "<p>Hi</p>")]
                           "campaign_id")))
       = Some url
       /\ URL.location (Http.url request) = URL.location url
       /\ URL.fragment (Http.url request) = URL.fragment url.
Proof.
  split; [left; reflexivity|].
  destruct (X3_request_mapping (H := example_builtins) (Some "abc123-us14")
              (always 204 None) SetContent
              [("campaign_id", JStr "c1"); ("html", JStr "<p>Hi</p>")]
              {| Http.method := "PUT";
                 Http.url := {| URL.location :=
                                  "https://us14.api.mailchimp.com/3.0/campaigns/c1/content";
                                URL.query := []; URL.fragment := "" |};
                 Http.headers := [("Authorization", "Bearer abc123-us14");
                                  ("Content-Type", "application/json")];
                 Http.body := Some (JObj [("html", JStr "<p>Hi</p>")]) |})
    as (M & U & _).
  - right. left. reflexivity.
  - split; [exact M|exact U].
Defined.

(** X4: an invocation is either refused by its input contract, or it is
    transparent for its one client call, in both entry points: a failure
    of the call (configuration, network, parse or remote error) is the
    failure of the invocation, unchanged, and the only failure the
    handler adds is a TypeError on an answer of unexpected shape. *)
Theorem X4_failures_pass_through `{Builtins} (env : Env) (remote : Remote)
  (op : Operation) (args : Args) :
  (refused (Index.invoke env op args remote) /\ refused (Api.invoke env op args remote))
  \/ exists options,
       transparent (Client.mailchimpRequest env options remote)
                   (Index.invoke env op args remote)
       /\ transparent (Api.mc env (Client.method options) (Client.path options)
                         (Client.body options) (Client.params options) remote)
                      (Api.invoke env op args remote).
Proof.
  destruct (invoke_shape env remote op args)
    as [R | (options & k & k' & _ & _ & K & -> & ->)]; [now left|].
  right. exists options. unfold transparent. cbn [requests outcome fst snd].
  split.
  - destruct (bindR_failures (snd (Client.mailchimpRequest env options remote)) k
                (fun a => proj1 (K a))) as (P & Q).
    repeat split; assumption.
  - destruct (bindR_failures
                (snd (Api.mc env (Client.method options) (Client.path options)
                        (Client.body options) (Client.params options) remote)) k'
                (fun a => proj2 (K a))) as (P & Q).
    repeat split; assumption.
Qed.

(* ================================================================== *)
(** * Required arguments *)

Section Required.
Context `{Builtins}.
Variable args : Args.

Lemma field_not_string name :
  (forall s, arg args name <> JStr s) ->
  Zod.field args name Zod.string = ([name], None)
  /\ Zod.field args name Zod.email = ([name], None).
Proof.
  intros N. unfold Zod.field. fold (arg args name).
  destruct (arg args name) as [| | | |s| |] eqn:E; try (split; reflexivity).
  exfalso. now apply (N s).
Qed.

Lemma field_alone {T} name (schema : Zod.Schema T) :
  Zod.field args name schema = ([name], None) ->
  snd (Zod.field args name schema) = None /\ In name (fst (Zod.field args name schema)).
Proof. intros ->. split; [reflexivity|left; reflexivity]. Qed.

End Required.

(** Finds the refused field among the fields of a shape. *)
Ltac refuse F F' :=
  first
    [ apply ap_refused_r; first [exact F | exact F']
    | apply ap_refused_l; refuse F F'
    | apply field_alone; first [exact F | exact F'] ].

(** X5: an invocation whose argument for a required string parameter
    (list_id, subject, from_name, reply_to, campaign_id, html,
    schedule_time, as the operation requires) is missing or is not a
    string is refused on that parameter by both entry points, before any
    request. *)
Theorem X5_required_argument `{Builtins} (env : Env) (remote : Remote)
  (op : Operation) (args : Args) (name : string) :
  In name (required_strings op) ->
  (forall s, arg args name <> JStr s) ->
  rejected name (Index.invoke env op args remote)
  /\ rejected name (Api.invoke env op args remote).
Proof.
  intros R N. destruct (field_not_string args name N) as [F F'].
  destruct op; cbn [required_strings In] in R;
    repeat (destruct R as [<-|R]); try contradiction;
    (split; enter_tool; apply safeParse_refused; refuse F F').
Qed.

Lemma X5_witness :
  rejected "html"
    (Index.invoke (H := example_builtins) (Some "abc123-us14") SetContent
       [("campaign_id", JStr "c1")] (always 204 None))
  /\ rejected "html"
    (Api.invoke (H := example_builtins) (Some "abc123-us14") SetContent
       [("campaign_id", JStr "c1")] (always 204 None)).
Proof.
  apply (X5_required_argument (H := example_builtins) (Some "abc123-us14")
           (always 204 None) SetContent [("campaign_id", JStr "c1")] "html").
  - right. left. reflexivity.
  - intros s E. discriminate E.
Defined.

(* ================================================================== *)
(** * The page size of list-campaigns *)

Section Counts.
Local Open Scope Z_scope.

Lemma Zdigits2_lower p : 2 ^ Zpos (digits2_pos p) <= 2 * Zpos p.
Proof.
  rewrite digits2_size. pose proof (Pos.size_le p) as G.
  rewrite <- Pos2Z.inj_pow. lia.
Qed.

(** A float that is an integer between 1 and 100 denotes an integer of
    that range. *)
Lemma integer_in_range (x : float) :
  Js.isInteger x = true ->
  (x <? 1)%float = false -> (100 <? x)%float = false ->
  exists z, 1 <= z <= 100 /\ Js.integer_value x = Some z.
Proof.
  rewrite !ltb_spec. unfold Js.isInteger, Js.integer_value.
  pose proof (Prim2SF_valid x) as V.
  change (Prim2SF 1) with (S754_finite false 4503599627370496 (-52)).
  change (Prim2SF 100) with (S754_finite false 7036874417766400 (-46)).
  destruct (Prim2SF x) as [s|s| |s m e].
  - intros _ L1. discriminate L1.
  - intros I. discriminate I.
  - intros I. discriminate I.
  - intros I L1 L2. destruct s; [discriminate L1|].
    cbn [valid_binary] in V. unfold bounded, canonical_mantissa in V.
    apply andb_true_iff in V. destruct V as [C _]. apply Z.eqb_eq in C.
    change (fexp prec emax (Zpos (digits2_pos m) + e))
      with (Z.max (Zpos (digits2_pos m) + e - 53) (-1074)) in C.
    unfold SFltb, SFcompare in L1, L2.
    assert (E1 : -52 <= e).
    { destruct (Z.compare_spec e (-52)) as [->|L|L]; [lia|discriminate L1|lia]. }
    clear L1.
    assert (D : Zpos (digits2_pos m) = 53) by (clear - C E1; lia).
    pose proof (Zdigits2_gt (Zpos m) (Pos2Z.pos_is_nonneg m)) as G.
    cbn [Zdigits2] in G. rewrite D in G.
    pose proof (Zdigits2_lower m) as W. rewrite D in W.
    change (2 ^ 53) with 9007199254740992 in G, W.
    assert (E2 : e < -46 \/ e = -46 /\ Zpos m <= 7036874417766400).
    { destruct (Z.compare_spec (-46) e) as [<-|L|L]; [|discriminate L2|left; lia].
      right. split; [reflexivity|].
      rewrite Pos.compare_cont_spec in L2. cbn [Pos.switch_Eq] in L2.
      destruct (Pos.compare_spec 7036874417766400 m) as [<-|L|L];
        [clear; lia|discriminate L2|].
      apply Pos2Z.pos_lt_pos in L. clear - L. lia. }
    clear L2 C D.
    destruct (0 <=? e) eqn:P; [apply Z.leb_le in P; lia|]. clear P.
    destruct (Zpos m mod 2 ^ (- e) =? 0) eqn:R; [|discriminate I]. clear I R.
    eexists. split; [|reflexivity].
    assert (K : e = -52 \/ e = -51 \/ e = -50 \/ e = -49 \/ e = -48 \/ e = -47
                \/ e = -46 /\ Zpos m <= 7036874417766400) by (clear - E1 E2; lia).
    clear E1 E2.
    destruct K as [->|[->|[->|[->|[->|[->|[-> M]]]]]]]; cbn [Z.opp].
    + change (2 ^ 52) with 4503599627370496.
      split; [apply Z.div_le_lower_bound|apply Z.lt_succ_r, Z.div_lt_upper_bound];
        clear - G W; lia.
    + change (2 ^ 51) with 2251799813685248.
      split; [apply Z.div_le_lower_bound|apply Z.lt_succ_r, Z.div_lt_upper_bound];
        clear - G W; lia.
    + change (2 ^ 50) with 1125899906842624.
      split; [apply Z.div_le_lower_bound|apply Z.lt_succ_r, Z.div_lt_upper_bound];
        clear - G W; lia.
    + change (2 ^ 49) with 562949953421312.
      split; [apply Z.div_le_lower_bound|apply Z.lt_succ_r, Z.div_lt_upper_bound];
        clear - G W; lia.
    + change (2 ^ 48) with 281474976710656.
      split; [apply Z.div_le_lower_bound|apply Z.lt_succ_r, Z.div_lt_upper_bound];
        clear - G W; lia.
    + change (2 ^ 47) with 140737488355328.
      split; [apply Z.div_le_lower_bound|apply Z.lt_succ_r, Z.div_lt_upper_bound];
        clear - G W; lia.
    + change (2 ^ 46) with 70368744177664.
      split; [apply Z.div_le_lower_bound|apply Z.lt_succ_r, Z.div_lt_upper_bound];
        clear - G W M; lia.
Qed.

(** Number::toString on a float that denotes a safe integer writes the
    integer's decimal digits. *)
Lemma NumberToString_integer `{Builtins} (x : float) (z : Z) :
  Js.integer_value x = Some z -> Z.abs z < 2 ^ 53 ->
  Js.NumberToString x = Str.of_Z z.
Proof.
  intros I S. unfold Js.NumberToString. rewrite I.
  apply Z.ltb_lt in S. rewrite S.
  unfold Js.integer_value in I.
  assert (N : PrimFloat.is_nan x = false).
  { unfold PrimFloat.is_nan. rewrite FloatAxioms.eqb_spec.
    unfold SFeqb, SFcompare.
    destruct (Prim2SF x) as [s|s| |s m e]; try discriminate I.
    - reflexivity.
    - destruct s; rewrite Z.compare_refl, Pos.compare_cont_spec, Pos.compare_refl;
        reflexivity. }
  rewrite N, !FloatAxioms.eqb_spec.
  change (Prim2SF infinity) with (S754_infinity false).
  change (Prim2SF neg_infinity) with (S754_infinity true).
  destruct (Prim2SF x) as [s|s| |s m e]; try discriminate I.
  - destruct s; reflexivity.
  - destruct s; reflexivity.
Qed.

End Counts.

Section Query.
Context `{Builtins}.

Lemma status_accepted values v o :
  Zod.optional (Zod.enum values) v = Some o ->
  (v = JUndefined /\ o = None) \/ (exists s, v = JStr s /\ o = Some s /\ In s values).
Proof.
  destruct v as [| | | |s| |]; cbn; try discriminate.
  - intros [= <-]. now left.
  - destruct (existsb (String.eqb s) values) eqn:X; cbn; [|discriminate].
    intros [= <-]. right. exists s.
    apply existsb_exists in X. destruct X as (s' & I & E).
    apply String.eqb_eq in E. subst s'. auto.
Qed.

Lemma count_accepted v x :
  Zod.default (Zod.number_int_min_max 1%float 100%float) 20%float v = Some x ->
  exists z, (1 <= z <= 100)%Z /\ Js.integer_value x = Some z
            /\ (v = JUndefined /\ z = 20%Z \/ v = JNum x).
Proof.
  destruct v as [| | |y| | |]; cbn [Zod.default Zod.number_int_min_max]; try discriminate.
  - intros [= <-]. exists 20%Z. split; [lia|]. split; [vm_compute; reflexivity|]. now left.
  - destruct (PrimFloat.is_nan y); [discriminate|].
    destruct (Js.isInteger y) eqn:I; cbn [negb]; [|discriminate].
    destruct (y <? 1)%float eqn:L1; [discriminate|].
    destruct (100 <? y)%float eqn:L2; [discriminate|].
    intros [= <-].
    destruct (integer_in_range y I L1 L2) as (z & B & V).
    exists z. split; [exact B|]. split; [exact V|]. now right.
Qed.

End Query.

(** X6: with a credential and an endpoint that is a URL, a
    list-campaigns invocation is either refused by the input contract or
    issues exactly one GET, on the URL of the endpoint followed by
    /campaigns, on which it sets count, the page size, an integer from 1
    to 100 (20 when count is not given) written in decimal digits, then
    sort_field=create_time and sort_dir=DESC, then status exactly when
    one of the listed statuses is given; both entry points issue the
    same request. *)
Theorem X6_list_campaigns_query `{Builtins} (env : Env) (remote : Remote) (args : Args) :
  Client.API_KEY env <> "" -> resolves env ->
  (refused (Index.invoke env ListCampaigns args remote)
   /\ refused (Api.invoke env ListCampaigns args remote))
  \/ exists (count : Z) (status : option string),
       (1 <= count <= 100)%Z
       /\ (arg args "count" = JUndefined /\ count = 20%Z
           \/ exists x, arg args "count" = JNum x /\ Js.integer_value x = Some count)
       /\ (arg args "status" = JUndefined /\ status = None
           \/ exists s, arg args "status" = JStr s /\ status = Some s
                        /\ In s campaign_statuses)
       /\ requests (Index.invoke env ListCampaigns args remote)
          = [campaigns_request env count status]
       /\ requests (Api.invoke env ListCampaigns args remote)
          = [campaigns_request env count status].
Proof.
  intros K U. enter_tool. verdicts;
    try (left; split; eexists; reflexivity).
  right.
  match goal with E : Zod.optional _ _ = Some _ |- _ =>
    apply status_accepted in E; fold (arg args "status") in E; rename E into S end.
  match goal with E : Zod.default _ _ _ = Some _ |- _ =>
    apply count_accepted in E; fold (arg args "count") in E;
    destruct E as (z & B & V & C) end.
  assert (N : Js.NumberToString f = Str.of_Z z).
  { apply NumberToString_integer; [exact V|].
    change (2 ^ 53)%Z with 9007199254740992%Z. clear - B. lia. }
  exists z, o. split; [exact B|]. split.
  { destruct C as [C|C]; [now left|]. right. now exists f. }
  split; [exact S|].
  enter_handler. cbv zeta. rewrite N.
  rewrite !call_then_project_eq. cbn [requests fst].
  rewrite mailchimpRequest_set, (mc_set env _ _ _ _ remote K U) by assumption.
  cbn [fst]. unfold request_of, request_with, campaigns_request, campaigns_query.
  cbn [Client.method Client.path Client.body Client.params body_of with_params].
  destruct S as [[_ ->]|(s & _ & -> & I)].
  - rewrite entries_no_index by reflexivity. split; reflexivity.
  - unfold campaign_statuses in I. cbn [In] in I.
    destruct I as [<-|[<-|[<-|[<-|[<-|[]]]]]];
      rewrite entries_no_index by reflexivity; split; reflexivity.
Qed.

Lemma X6_witness :
  Client.API_KEY (Some "abc123-us14") <> ""
  /\ exists (count : Z) (status : option string),
       (1 <= count <= 100)%Z
       /\ (arg [("count", JNum 50%float); ("status", JStr "sent")] "count" = JUndefined
           /\ count = 20%Z
           \/ exists x, arg [("count", JNum 50%float); ("status", JStr "sent")] "count" = JNum x
                        /\ Js.integer_value x = Some count)
       /\ (arg [("count", JNum 50%float); ("status", JStr "sent")] "status" = JUndefined
           /\ status = None
           \/ exists s, arg [("count", JNum 50%float); ("status", JStr "sent")] "status" = JStr s
                        /\ status = Some s /\ In s campaign_statuses)
       /\ requests (Index.invoke (H := example_builtins) (Some "abc123-us14") ListCampaigns
                      [("count", JNum 50%float); ("status", JStr "sent")] (always 200 None))
          = [campaigns_request (H := example_builtins) (Some "abc123-us14") count status]
       /\ requests (Api.invoke (H := example_builtins) (Some "abc123-us14") ListCampaigns
                      [("count", JNum 50%float); ("status", JStr "sent")] (always 200 None))
          = [campaigns_request (H := example_builtins) (Some "abc123-us14") count status].
Proof.
  split; [discriminate|].
  destruct (X6_list_campaigns_query (H := example_builtins) (Some "abc123-us14")
              (always 200 None) [("count", JNum 50%float); ("status", JStr "sent")])
    as [[[issues R] _]|Q].
  - discriminate.
  - exact example_resolves.
  - discriminate R.
  - exact Q.
Defined.

(* ================================================================== *)
(** * Refusals of the input contracts *)

Section Refusals.
Context `{Builtins}.
Variable args : Args.

Lemma status_refused :
  arg args "status" <> JUndefined ->
  (forall s, In s campaign_statuses -> arg args "status" <> JStr s) ->
  Zod.field args "status" (Zod.optional (Zod.enum campaign_statuses)) = (["status"], None).
Proof.
  intros U N. unfold Zod.field. fold (arg args "status").
  destruct (arg args "status") as [| | | |s| |] eqn:E; try reflexivity.
  - now contradiction U.
  - cbn [Zod.optional Zod.enum].
    destruct (existsb (String.eqb s) campaign_statuses) eqn:X; [|reflexivity].
    apply existsb_exists in X. destruct X as (s' & I & Q).
    apply String.eqb_eq in Q. subst s'. now contradiction (N s I).
Qed.

Lemma count_refused :
  arg args "count" <> JUndefined ->
  (forall x, arg args "count" = JNum x -> Js.isInteger x = false) ->
  Zod.field args "count"
    (Zod.default (Zod.number_int_min_max 1%float 100%float) 20%float) = (["count"], None).
Proof.
  intros U N. unfold Zod.field. fold (arg args "count").
  destruct (arg args "count") as [| | |x| | |] eqn:E; try reflexivity.
  - now contradiction U.
  - cbn [Zod.default Zod.number_int_min_max]. rewrite (N x eq_refl). cbn [negb].
    destruct (PrimFloat.is_nan x); reflexivity.
Qed.

Lemma all_refused (items : list JsValue) (i : JsValue) :
  In i items -> Zod.email i = None ->
  (fix all (l : list JsValue) : option (list string) :=
     match l with
     | [] => Some []
     | i :: tl =>
         match Zod.email i, all tl with
         | Some t, Some ts => Some (t :: ts)
         | _, _ => None
         end
     end) items = None.
Proof.
  intros I E. induction items as [|j tl IH]; [contradiction|].
  destruct I as [->|I].
  - rewrite E. reflexivity.
  - rewrite (IH I). destruct (Zod.email j); reflexivity.
Qed.

Lemma addresses_refused (items : list JsValue) (i : JsValue) :
  arg args "test_emails" = JArr items ->
  In i items -> (forall s, i = JStr s -> email_test s = false) ->
  Zod.field args "test_emails" (Zod.array_min_max Zod.email 1 5) = (["test_emails"], None).
Proof.
  intros A I N. unfold Zod.field. fold (arg args "test_emails"). rewrite A.
  assert (E : Zod.email i = None).
  { destruct i as [| | | |s| |]; try reflexivity. cbn. now rewrite (N s eq_refl). }
  cbn [Zod.array_min_max].
  destruct (List.length items <? 1)%nat; [reflexivity|].
  destruct (5 <? List.length items)%nat; [reflexivity|].
  now rewrite (all_refused items i I E).
Qed.

Lemma reply_to_refused s :
  arg args "reply_to" = JStr s -> email_test s = false ->
  Zod.field args "reply_to" Zod.email = (["reply_to"], None).
Proof.
  intros A N. unfold Zod.field. fold (arg args "reply_to"). rewrite A.
  cbn. now rewrite N.
Qed.

End Refusals.

(** X7: a list-campaigns invocation whose status argument is given and
    is not one of the five listed statuses (or is not a string) is
    refused on status by both entry points, before any request. *)
Theorem X7_status_outside_list `{Builtins} (env : Env) (remote : Remote) (args : Args) :
  arg args "status" <> JUndefined ->
  (forall s, In s campaign_statuses -> arg args "status" <> JStr s) ->
  rejected "status" (Index.invoke env ListCampaigns args remote)
  /\ rejected "status" (Api.invoke env ListCampaigns args remote).
Proof.
  intros U N. pose proof (status_refused args U N) as F.
  unfold campaign_statuses in F.
  split; enter_tool; apply safeParse_refused; refuse F F.
Qed.

Lemma X7_witness :
  rejected "status"
    (Index.invoke (H := example_builtins) (Some "abc123-us14") ListCampaigns
       [("status", JStr "draft")] (always 200 None))
  /\ rejected "status"
    (Api.invoke (H := example_builtins) (Some "abc123-us14") ListCampaigns
       [("status", JStr "draft")] (always 200 None)).
Proof.
  apply (X7_status_outside_list (H := example_builtins) (Some "abc123-us14")
           (always 200 None) [("status", JStr "draft")]).
  - discriminate.
  - intros s I E. cbv in E. injection E as <-.
    cbv in I. repeat (destruct I as [I|I]; [discriminate I|]). exact I.
Defined.

(** X8: a list-campaigns invocation whose count argument is given and is
    not an integer (a fraction, or not a number at all: text is not
    converted) is refused on count by both entry points, before any
    request. *)
Theorem X8_count_not_integer `{Builtins} (env : Env) (remote : Remote) (args : Args) :
  arg args "count" <> JUndefined ->
  (forall x, arg args "count" = JNum x -> Js.isInteger x = false) ->
  rejected "count" (Index.invoke env ListCampaigns args remote)
  /\ rejected "count" (Api.invoke env ListCampaigns args remote).
Proof.
  intros U N. pose proof (count_refused args U N) as F.
  split; enter_tool; apply safeParse_refused; refuse F F.
Qed.

Lemma X8_witness :
  rejected "count"
    (Index.invoke (H := example_builtins) (Some "abc123-us14") ListCampaigns
       [("count", JNum 2.5%float)] (always 200 None))
  /\ rejected "count"
    (Api.invoke (H := example_builtins) (Some "abc123-us14") ListCampaigns
       [("count", JNum 2.5%float)] (always 200 None)).
Proof.
  apply (X8_count_not_integer (H := example_builtins) (Some "abc123-us14")
           (always 200 None) [("count", JNum 2.5%float)]).
  - discriminate.
  - intros x E. cbv in E. injection E as <-. vm_compute. reflexivity.
Defined.

(** X9: the addresses of a send-test invocation are checked against
    the address pattern before any request: when an entry of test_emails
    is not a string matching the pattern, the invocation is refused on
    test_emails by both entry points, whatever the number of entries. *)
Theorem X9_test_address_pattern `{Builtins} (env : Env) (remote : Remote) (args : Args)
  (items : list JsValue) (i : JsValue) :
  arg args "test_emails" = JArr items -> In i items ->
  (forall s, i = JStr s -> email_test s = false) ->
  rejected "test_emails" (Index.invoke env SendTest args remote)
  /\ rejected "test_emails" (Api.invoke env SendTest args remote).
Proof.
  intros A I N. pose proof (addresses_refused args items i A I N) as F.
  split; enter_tool; apply safeParse_refused; refuse F F.
Qed.

Lemma X9_witness :
  rejected "test_emails"
    (Index.invoke (H := example_builtins) (Some "abc123-us14") SendTest
       [("campaign_id", JStr "c1");
        ("test_emails", JArr [JStr "a@example.com"; JStr "nobody"])] (always 204 None))
  /\ rejected "test_emails"
    (Api.invoke (H := example_builtins) (Some "abc123-us14") SendTest
       [("campaign_id", JStr "c1");
        ("test_emails", JArr [JStr "a@example.com"; JStr "nobody"])] (always 204 None)).
Proof.
  apply (X9_test_address_pattern (H := example_builtins) (Some "abc123-us14")
           (always 204 None)
           [("campaign_id", JStr "c1");
            ("test_emails", JArr [JStr "a@example.com"; JStr "nobody"])]
           [JStr "a@example.com"; JStr "nobody"] (JStr "nobody")).
  - reflexivity.
  - right. left. reflexivity.
  - intros s E. injection E as <-. reflexivity.
Defined.

(** X10: the reply-to address of a create-campaign invocation is checked
    against the address pattern before any request: a reply_to that does
    not match it is refused on reply_to by both entry points. *)
Theorem X10_reply_to_pattern `{Builtins} (env : Env) (remote : Remote) (args : Args)
  (s : string) :
  arg args "reply_to" = JStr s -> email_test s = false ->
  rejected "reply_to" (Index.invoke env CreateCampaign args remote)
  /\ rejected "reply_to" (Api.invoke env CreateCampaign args remote).
Proof.
  intros A N. pose proof (reply_to_refused args s A N) as F.
  split; enter_tool; apply safeParse_refused; refuse F F.
Qed.

Lemma X10_witness :
  rejected "reply_to"
    (Index.invoke (H := example_builtins) (Some "abc123-us14") CreateCampaign
       [("list_id", JStr "l1"); ("subject", JStr "Hello"); ("from_name", JStr "Team");
        ("reply_to", JStr "nobody")] (always 200 None))
  /\ rejected "reply_to"
    (Api.invoke (H := example_builtins) (Some "abc123-us14") CreateCampaign
       [("list_id", JStr "l1"); ("subject", JStr "Hello"); ("from_name", JStr "Team");
        ("reply_to", JStr "nobody")] (always 200 None)).
Proof.
  apply (X10_reply_to_pattern (H := example_builtins) (Some "abc123-us14")
           (always 200 None)
           [("list_id", JStr "l1"); ("subject", JStr "Hello"); ("from_name", JStr "Team");
            ("reply_to", JStr "nobody")] "nobody").
  - reflexivity.
  - reflexivity.
Defined.

(* ================================================================== *)
(** * What the requests carry *)

Section Carried.
Context `{Builtins}.

Lemma all_Some (items : list JsValue) : forall l,
  (fix all (l : list JsValue) : option (list string) :=
     match l with
     | [] => Some []
     | i :: tl =>
         match Zod.email i, all tl with
         | Some t, Some ts => Some (t :: ts)
         | _, _ => None
         end
     end) items = Some l ->
  items = map JStr l /\ Forall (fun s => email_test s = true) l.
Proof.
  induction items as [|i tl IH]; intros l.
  - intros [= <-]. split; [reflexivity|constructor].
  - destruct (Zod.email i) as [t|] eqn:E; [|discriminate].
    match goal with |- match ?a with _ => _ end = _ -> _ => destruct a as [ts|] end;
      [|discriminate].
    intros [= <-]. destruct (IH ts eq_refl) as [-> F].
    pose proof (email_Some i t E) as ->.
    split; [reflexivity|]. constructor; [|exact F].
    cbn in E. destruct (email_test t); [reflexivity|discriminate].
Qed.

Lemma addresses_Some v l :
  Zod.array_min_max Zod.email 1 5 v = Some l ->
  v = JArr (map JStr l) /\ (1 <= List.length l <= 5)%nat
  /\ Forall (fun s => email_test s = true) l.
Proof.
  destruct v as [| | | | |items|]; cbn [Zod.array_min_max]; try discriminate.
  destruct (List.length items <? 1)%nat eqn:L1; [discriminate|].
  destruct (5 <? List.length items)%nat eqn:L2; [discriminate|].
  intros A. destruct (all_Some items l A) as [-> F].
  rewrite length_map in L1, L2.
  apply Nat.ltb_ge in L1, L2. repeat split; [lia|lia|exact F].
Qed.

Lemma send_type_Some v t :
  Zod.default (Zod.enum ["html"; "plaintext"]) "html" v = Some t ->
  (v = JUndefined /\ t = "html") \/ (v = JStr t /\ In t ["html"; "plaintext"]).
Proof.
  destruct v as [| | | |s| |]; cbn [Zod.default Zod.enum]; try discriminate.
  - intros [= <-]. now left.
  - destruct (existsb (String.eqb s) ["html"; "plaintext"]) eqn:X; [|discriminate].
    intros [= <-]. right. split; [reflexivity|].
    apply existsb_exists in X. destruct X as (s' & I & Q).
    apply String.eqb_eq in Q. now subst s'.
Qed.

Lemma json_of_strings (l : list string) :
  map (fun i => match Js.json_of i with
                | JUndefined => JNull
                | w => w
                end) (map JStr l) = map JStr l.
Proof.
  induction l as [|s tl IH]; [reflexivity|].
  cbn [map Js.json_of]. f_equal. exact IH.
Qed.

End Carried.

Section Sent.
Context `{Builtins}.
Variables (env : Env) (remote : Remote).

Lemma sent_by_client options r :
  In r (requests (Client.mailchimpRequest env options remote)) ->
  exists url,
    URL_parse (Client.BASE_URL env ++ Client.path options) = Some url
    /\ r = request_with env options url.
Proof.
  destruct (client_requests env remote options) as [->|(url & _ & P & ->)]; [intros []|].
  intros [<-|[]]. now exists url.
Qed.

Lemma sent_by_mc method path body params r :
  In r (requests (Api.mc env method path body params remote)) ->
  exists url,
    URL_parse (Client.BASE_URL env ++ path) = Some url
    /\ r = request_with env {| Client.method := method; Client.path := path;
                              Client.body := body; Client.params := params |} url.
Proof.
  destruct (mc_requests env remote
              {| Client.method := method; Client.path := path;
                 Client.body := body; Client.params := params |})
    as [E|(url & _ & P & E)];
    cbn [Client.method Client.path Client.body Client.params] in *; rewrite E;
    [intros []|].
  intros [<-|[]]. now exists url.
Qed.

End Sent.

(** Reads the arguments that passed validation back from the invocation. *)
Ltac arguments_read :=
  unfold arg;
  repeat match goal with
    | E : Zod.string ?v = Some ?s |- _ =>
        apply string_Some in E; rewrite E
    | E : Zod.array_min_max Zod.email 1 5 ?v = Some ?l |- _ =>
        apply addresses_Some in E; destruct E as [E _]; rewrite E
    | E : Zod.default (Zod.enum _) _ ?v = Some ?t |- _ =>
        apply send_type_Some in E; destruct E as [[E ->]|[E _]]; rewrite E
    end.

(** X11: what the requests carry.  Set-content sends the html
    argument, schedule sends the schedule_time argument (any text: it is
    not checked to be a date), and send-test sends the addresses in the
    order given with the send type, "html" when none is given, all as
    they stand in the arguments; send, delete, the report and
    list-audiences send no body.  List-audiences sets count=100 and
    fields=lists.id,lists.name,lists.stats on the URL that [new URL]
    made of the endpoint and the path; the other operations fetch that
    URL as it is, without setting a search parameter.  The same holds at
    both entry points. *)
Theorem X11_request_content `{Builtins} (entry : EntryPoint) (env : Env) (remote : Remote)
  (op : Operation) (args : Args) (r : Http.Request) :
  op <> ListCampaigns -> op <> CreateCampaign ->
  In r (requests (invoke_at entry env op args remote)) ->
  Http.body r = expected_body op args
  /\ exists url,
       URL_parse (Client.BASE_URL env ++ path_of op (text_of (arg args "campaign_id")))
       = Some url
       /\ Http.url r = expected_url op url.
Proof.
  intros NL NC.
  destruct op; try contradiction; clear NL NC;
    destruct entry; unfold invoke_at; enter_tool; verdicts;
    try (intros []);
    enter_handler; cbv zeta;
    rewrite ?call_then_project_eq, ?call_then_return_eq; cbn [requests fst];
    intros I; first [apply sent_by_client in I | apply sent_by_mc in I];
    destruct I as (url & P & ->); cbn [Client.path] in P;
    unfold request_with;
    cbn [Http.body Http.url Client.body Client.params body_of Js.truthy with_params
         expected_body expected_url path_of];
    arguments_read; cbn [Js.json_of text_of]; rewrite ?json_of_strings;
    (split; [reflexivity|]); exists url; (split; [exact P|]);
    rewrite ?entries_no_index by reflexivity; reflexivity.
Qed.

Lemma X11_witness :
  let args := [("campaign_id", JStr "c1"); ("schedule_time", JStr "tomorrow")] in
  let r :=
    {| Http.method := "POST";
       Http.url :=
         {| URL.location :=
              "https://us14.api.mailchimp.com/3.0/campaigns/c1/actions/schedule";
            URL.query := []; URL.fragment := "" |};
       Http.headers := [("Authorization", "Bearer abc123-us14");
                        ("Content-Type", "application/json")];
       Http.body := Some (JObj [("schedule_time", JStr "tomorrow")]) |} in
  In r (requests (invoke_at (H := example_builtins) Standalone (Some "abc123-us14")
                    ScheduleCampaign args (always 204 None)))
  /\ Http.body r = expected_body ScheduleCampaign args
  /\ exists url,
       URL_parse (Builtins := example_builtins)
         (Client.BASE_URL (Some "abc123-us14")
          ++ path_of ScheduleCampaign (text_of (arg args "campaign_id")))
       = Some url
       /\ Http.url r = expected_url ScheduleCampaign url.
Proof.
  split; [left; reflexivity|].
  apply (X11_request_content (H := example_builtins) Standalone (Some "abc123-us14")
           (always 204 None) ScheduleCampaign
           [("campaign_id", JStr "c1"); ("schedule_time", JStr "tomorrow")]).
  - discriminate.
  - discriminate.
  - left. reflexivity.
Defined.

(* ================================================================== *)
(** * The confirmations of the actions *)

Lemma confirmation_fixed {A B} (call call' : list Http.Request * Result A) (c : B) out :
  bindR (outcome call) (fun _ => Ok c) = Ok out ->
  (exists a, bindR (outcome call') (fun _ => Ok c) = Ok a) ->
  bindR (outcome call') (fun _ => Ok c) = Ok out /\ out = c.
Proof.
  destruct (outcome call); cbn [bindR]; [|discriminate]. intros [= <-].
  destruct (outcome call'); cbn [bindR]; intros [x E]; [|discriminate].
  split; reflexivity.
Qed.

(** X12: the confirmation of an action (set content, send test, send,
    schedule, delete) does not depend on what the platform answered:
    whenever two invocations with the same arguments both succeed, they
    return the same text, and its campaign_id is the argument given. *)
Theorem X12_confirmation_fixed `{Builtins} (entry : EntryPoint) (env : Env)
  (remote remote' : Remote) (op : Operation) (args : Args) (out : JsValue) :
  is_action op = true ->
  outcome (invoke_at entry env op args remote) = Ok out ->
  succeeds (invoke_at entry env op args remote') ->
  outcome (invoke_at entry env op args remote') = Ok out
  /\ field_of out "campaign_id" = arg args "campaign_id".
Proof.
  intros A. unfold succeeds.
  destruct op; try discriminate A; clear A;
    destruct entry; unfold invoke_at; enter_tool; verdicts;
    try (intros O; discriminate O);
    enter_handler; cbv zeta;
    rewrite !call_then_return_eq; cbn [outcome snd];
    intros O S; destruct (confirmation_fixed _ _ _ _ O S) as [O' ->];
    (split; [exact O'|]); arguments_read; reflexivity.
Qed.

Lemma X12_witness :
  outcome (invoke_at (H := example_builtins) Standalone (Some "abc123-us14") DeleteCampaign
             [("campaign_id", JStr "c1")] (always 200 (Some (JObj [("id", JStr "c1")]))))
  = Ok (JObj [("campaign_id", JStr "c1"); ("message", JStr "Campaign deleted.")])
  /\ field_of (JObj [("campaign_id", JStr "c1"); ("message", JStr "Campaign deleted.")])
       "campaign_id"
     = arg [("campaign_id", JStr "c1")] "campaign_id".
Proof.
  apply (X12_confirmation_fixed (H := example_builtins) Standalone (Some "abc123-us14")
           (always 204 None) (always 200 (Some (JObj [("id", JStr "c1")])))
           DeleteCampaign [("campaign_id", JStr "c1")]).
  - reflexivity.
  - reflexivity.
  - eexists. reflexivity.
Defined.
(* ================================================================== *)
(** * The listings, entry by entry *)

Section MapR.
Context {A B : Type}.
Variable f : A -> Result B.

Lemma mapR_Forall2 (l : list A) : forall out,
  mapR f l = Ok out -> Forall2 (fun a b => f a = Ok b) l out.
Proof.
  induction l as [|a tl IH]; cbn [mapR]; intros out E.
  - injection E as <-. constructor.
  - destruct (f a) as [b|] eqn:Fa; cbn [bindR] in E; [|discriminate].
    destruct (mapR f tl) as [bs|]; cbn [bindR] in E; [|discriminate].
    injection E as <-. constructor; [exact Fa | apply IH; reflexivity].
Qed.



End MapR.

Section Entries.
Context `{Builtins}.

Lemma summary_agree op i :
  summary_of op i
  = match op with
    | ListAudiences => Api.audience_summary i
    | _ => Api.campaign_summary i
    end.
Proof. destruct op; reflexivity. Qed.

(** The projection of an entry is defined exactly on the readable
    entries, fails with a TypeError on the others, and yields an object. *)
Lemma summary_readable op i :
  is_listing op = true ->
  if readable op i
  then exists fields, summary_of op i = Ok (JObj fields)
  else summary_of op i = Err TypeError.
Proof.
  intros L. unfold readable.
  destruct op; try discriminate L; clear L;
    cbn [entry_key summary_of];
    unfold Index.audience_summary, Index.campaign_summary;
    rewrite !prop_field_of;
    destruct i as [| | | | | |fields]; try reflexivity; cbn [field_of nullish negb bindR];
    rewrite ?prop_field_of, ?opt_prop_field_of;
    try (destruct (Js.assoc _ fields) as [[| | | | | |]|]; cbn [nullish negb bindR];
         rewrite ?opt_prop_field_of; cbn [bindR];
         first [reflexivity | eexists; reflexivity]).
Qed.


Lemma listing_no_array (data : JsValue) op :
  (forall items, field_of data (listing_key op) <> JArr items) ->
  shown (let? entries := Js.prop data (listing_key op) in
         Js.array_map entries (summary_of op)) = Err TypeError.
Proof.
  intros N. rewrite prop_field_of.
  destruct data as [| | | | | |fields]; try reflexivity; cbn [bindR];
    destruct (field_of _ (listing_key op)) as [| | | | |items|] eqn:F; try reflexivity;
    now contradiction (N items).
Qed.

Lemma listing_array (data : JsValue) op items :
  is_listing op = true ->
  field_of data (listing_key op) = JArr items ->
  shown (let? entries := Js.prop data (listing_key op) in
         Js.array_map entries (summary_of op))
  = let? rows := mapR (summary_of op) items in Ok (JArr (map Js.json_of rows)).
Proof.
  intros L F. rewrite prop_field_of.
  destruct data as [| | | | | |fields]; try discriminate F.
  cbn [bindR]. rewrite F. unfold shown, Js.array_map.
  destruct (mapR (summary_of op) items) as [rows|] eqn:Mp; cbn [bindR]; [|reflexivity].
  cbn [Js.json_of]. do 2 f_equal.
  apply mapR_Forall2 in Mp. clear F.
  revert Mp. generalize items. induction rows as [|row tl IH]; intros its Mp.
  - reflexivity.
  - inversion Mp as [|i row' its' tl' E Mp']; subst. cbn [map]. f_equal.
    + pose proof (summary_readable op i L) as R. rewrite E in R.
      destruct (readable op i); [|discriminate R].
      destruct R as [fields' [= ->]]. reflexivity.
    + exact (IH its' Mp').
Qed.

End Entries.

Section Listing.
Context `{Builtins}.
Variables (env : Env) (remote : Remote) (data : JsValue).
Hypothesis configured : Client.API_KEY env <> "".
Hypothesis delivered : delivers remote data.

Lemma settle_delivered wording generic request :
  settle wording generic (remote request) = Ok data.
Proof.
  destruct (delivered request) as (response & E & [[S ->]|(S & O & J)]);
    unfold settle; rewrite E.
  - rewrite S. reflexivity.
  - destruct (Z.eqb_spec (Http.status response) 204); [contradiction|].
    rewrite J, O. reflexivity.
Qed.

Lemma client_delivered options :
  resolves env ->
  Client.mailchimpRequest env options remote = ([request_of env options], Ok data).
Proof. intros U. rewrite mailchimpRequest_set by assumption. now rewrite settle_delivered. Qed.

Lemma mc_delivered method path body params :
  resolves env ->
  exists request, Api.mc env method path body params remote = ([request], Ok data).
Proof.
  intros U. eexists. rewrite mc_set by assumption. cbv zeta.
  now rewrite settle_delivered.
Qed.

(** What a client call comes to on such a remote: the data, after one
    request, or a TypeError before any when the endpoint is no URL. *)
Lemma client_answers options :
  (exists request, Client.mailchimpRequest env options remote = ([request], Ok data))
  \/ (URL_parse (Client.BASE_URL env ++ Client.path options) = None
      /\ Client.mailchimpRequest env options remote = ([], Err TypeError)).
Proof.
  destruct (URL_parse (Client.BASE_URL env ++ Client.path options)) as [url|] eqn:P.
  - left. eexists. rewrite (mailchimpRequest_parsed env options remote url configured P).
    now rewrite settle_delivered.
  - right. split; [reflexivity|]. now apply mailchimpRequest_unparsed.
Qed.

Lemma mc_answers method path body params :
  (exists request, Api.mc env method path body params remote = ([request], Ok data))
  \/ (URL_parse (Client.BASE_URL env ++ path) = None
      /\ Api.mc env method path body params remote = ([], Err TypeError)).
Proof.
  destruct (URL_parse (Client.BASE_URL env ++ path)) as [url|] eqn:P.
  - left. eexists.
    rewrite (mc_parsed env method path body params remote url configured P). cbv zeta.
    now rewrite settle_delivered.
  - right. split; [reflexivity|]. now apply mc_unparsed.
Qed.

(** A listing that is not refused shows the projection of the entries,
    unless the endpoint is no URL. *)
Lemma invoke_listing entry op args :
  is_listing op = true ->
  refused (invoke_at entry env op args remote)
  \/ (URL_parse (Client.BASE_URL env ++ path_of op "") = None
      /\ outcome (invoke_at entry env op args remote) = Err TypeError)
  \/ outcome (invoke_at entry env op args remote)
     = shown (let? entries := Js.prop data (listing_key op) in
              Js.array_map entries (summary_of op)).
Proof.
  intros L. destruct op; try discriminate L; clear L;
    destruct entry; unfold invoke_at; enter_tool; verdicts;
    try (left; eexists; reflexivity);
    right; enter_handler; cbv zeta;
    match goal with
    | |- context [Api.mc env ?m ?p ?b ?ps] =>
        destruct (mc_answers m p b ps) as [[request Mc]|[P Mc]]
    | |- context [Client.mailchimpRequest env ?o] =>
        destruct (client_answers o) as [[request Mc]|[P Mc]]
    end;
    erewrite call_then_project by exact Mc;
    first [right; reflexivity | left; split; [exact P|reflexivity]].
Qed.

End Listing.


(** X13: a listing needs the array of entries.  When the platform
    answers list-audiences or list-campaigns with a success whose body
    does not hold an array under lists (campaigns), among them a 204 and
    a body that is null, the invocation fails with a TypeError unless it
    was refused; it does not show an empty list. *)
Theorem X13_listing_needs_array `{Builtins} (entry : EntryPoint) (env : Env)
  (remote : Remote) (op : Operation) (args : Args) (data : JsValue) :
  Client.API_KEY env <> "" -> delivers remote data -> is_listing op = true ->
  (forall items, field_of data (listing_key op) <> JArr items) ->
  refused (invoke_at entry env op args remote)
  \/ outcome (invoke_at entry env op args remote) = Err TypeError.
Proof.
  intros K D L N.
  destruct (invoke_listing env remote data K D entry op args L) as [R|[[_ E]|E]];
    [now left|now right|].
  right. rewrite E. now apply listing_no_array.
Qed.

Lemma X13_witness :
  refused (invoke_at (H := example_builtins) Serverless (Some "abc123-us14")
             ListAudiences [] (always 204 None))
  \/ outcome (invoke_at (H := example_builtins) Serverless (Some "abc123-us14")
                ListAudiences [] (always 204 None)) = Err TypeError.
Proof.
  apply (X13_listing_needs_array (H := example_builtins) Serverless (Some "abc123-us14")
           (always 204 None) ListAudiences [] (JObj [])).
  - discriminate.
  - intros request. eexists. split; [reflexivity|]. left. split; reflexivity.
  - reflexivity.
  - intros items E. discriminate E.
Defined.



(** X15: a listing shows one row per entry, in the order of the answer:
    when an invocation of list-audiences or list-campaigns returns, what
    it returns is an array whose rows are, entry by entry, the projection
    of the entries of the answer; both entry points project alike. *)
Theorem X15_listing_rows `{Builtins} (entry : EntryPoint) (env : Env)
  (remote : Remote) (op : Operation) (args : Args) (data : JsValue)
  (items : list JsValue) (out : JsValue) :
  Client.API_KEY env <> "" -> delivers remote data -> is_listing op = true ->
  field_of data (listing_key op) = JArr items ->
  outcome (invoke_at entry env op args remote) = Ok out ->
  exists rows,
    out = JArr rows
    /\ Forall2 (fun i row => exists s, summary_of op i = Ok s /\ row = Js.json_of s)
         items rows.
Proof.
  intros K D L F.
  destruct (invoke_listing env remote data K D entry op args L)
    as [[issues R]|[[_ E]|E]].
  - rewrite R. discriminate.
  - rewrite E. discriminate.
  - rewrite E, (listing_array data op items L F).
    destruct (mapR (summary_of op) items) as [rows|] eqn:Mp; cbn [bindR]; [|discriminate].
    intros [= <-]. eexists. split; [reflexivity|].
    apply mapR_Forall2 in Mp. clear - Mp.
    induction Mp as [|i s its ss E Mp IH]; cbn [map]; constructor; [|exact IH].
    exists s. split; [exact E|reflexivity].
Qed.

Lemma X15_witness :
  exists rows,
    JArr [JObj [("id", JStr "a1"); ("name", JStr "News");
                ("subscribers", JNum 250%float);
                ("open_rate", JStr "42.3%"); ("click_rate", JStr "8.1%")]] = JArr rows
    /\ Forall2 (fun i row => exists s, summary_of (H := example_builtins) ListAudiences i = Ok s
                                       /\ row = Js.json_of s)
         [JObj [("id", JStr "a1"); ("name", JStr "News");
                ("stats", JObj [("member_count", JNum 250%float);
                                ("open_rate", JNum 0.423%float);
                                ("click_rate", JNum 0.081%float)])]]
         rows.
Proof.
  apply (X15_listing_rows (H := example_builtins) Serverless (Some "abc123-us14")
           (always 200
              (Some (JObj [("lists",
                            JArr [JObj [("id", JStr "a1"); ("name", JStr "News");
                                        ("stats", JObj [("member_count", JNum 250%float);
                                                        ("open_rate", JNum 0.423%float);
                                                        ("click_rate", JNum 0.081%float)])]])])))
           ListAudiences []
           (JObj [("lists",
                   JArr [JObj [("id", JStr "a1"); ("name", JStr "News");
                               ("stats", JObj [("member_count", JNum 250%float);
                                               ("open_rate", JNum 0.423%float);
                                               ("click_rate", JNum 0.081%float)])]])])).
  - discriminate.
  - intros request. eexists. split; [reflexivity|]. right.
    split; [discriminate|]. split; reflexivity.
  - reflexivity.
  - reflexivity.
  - vm_compute. reflexivity.
Defined.

(* ================================================================== *)
(** * The query of a request *)

Section Entries.
Context {V : Type}.

Lemma insert_index_perm n (kv : string * V) acc :
  Permutation (map snd (Js.insert_index n kv acc)) (kv :: map snd acc).
Proof.
  induction acc as [|[m kv'] tl IH]; cbn [Js.insert_index map snd]; [reflexivity|].
  destruct (n <? m)%N; cbn [map snd]; [reflexivity|].
  rewrite IH. apply perm_swap.
Qed.

(** [Object.entries] lists every property once. *)
Lemma entries_perm (fields : list (string * V)) : Permutation (Js.entries fields) fields.
Proof.
  unfold Js.entries.
  assert (A : forall acc,
             Permutation
               (map snd (fold_left (fun acc kv => match Js.array_index (fst kv) with
                                                  | Some n => Js.insert_index n kv acc
                                                  | None => acc
                                                  end) fields acc))
               (map snd acc
                ++ filter (fun kv => match Js.array_index (fst kv) with
                                     | Some _ => true
                                     | None => false
                                     end) fields)).
  { induction fields as [|kv tl IH]; intros acc; cbn [fold_left filter].
    - now rewrite app_nil_r.
    - destruct (Js.array_index (fst kv)) as [n|].
      + rewrite IH, insert_index_perm. apply Permutation_middle.
      + apply IH. }
  rewrite A. cbn [map app].
  clear A. induction fields as [|kv tl IH]; [reflexivity|].
  cbn [filter]. destruct (Js.array_index (fst kv)).
  - cbn [app]. now apply perm_skip.
  - rewrite <- Permutation_middle. now apply perm_skip.
Qed.

Lemma assoc_In k (v : V) l :
  NoDup (map fst l) -> (Js.assoc k l = Some v <-> In (k, v) l).
Proof.
  induction l as [|[k' v'] tl IH]; cbn [Js.assoc map fst In].
  - intros _. split; [discriminate|intros []].
  - intros N. inversion N as [|? ? X N']; subst.
    destruct (String.eqb_spec k k') as [->|D].
    + split.
      * intros [= ->]. now left.
      * intros [[= ->]|I]; [reflexivity|].
        exfalso. apply X. now apply (in_map fst) in I.
    + rewrite (IH N'). split; [now right|].
      intros [[= -> ->]|I]; [contradiction|exact I].
Qed.

Lemma assoc_perm k (l l' : list (string * V)) :
  Permutation l l' -> NoDup (map fst l) -> Js.assoc k l = Js.assoc k l'.
Proof.
  intros P N.
  assert (N' : NoDup (map fst l')).
  { eapply Permutation_NoDup; [|exact N]. now apply Permutation_map. }
  destruct (Js.assoc k l) as [v|] eqn:E.
  - symmetry. apply (assoc_In k v l' N'). eapply Permutation_in; [exact P|].
    now apply (assoc_In k v l N).
  - destruct (Js.assoc k l') as [v'|] eqn:E'; [|reflexivity].
    apply (assoc_In k v' l' N') in E'.
    apply (Permutation_in _ (Permutation_sym P)) in E'.
    apply (assoc_In k v' l N) in E'. congruence.
Qed.

Lemma assoc_notin k (l : list (string * V)) : ~ In k (map fst l) -> Js.assoc k l = None.
Proof.
  induction l as [|[k' v'] tl IH]; cbn [Js.assoc map fst In]; [reflexivity|].
  intros N. destruct (String.eqb_spec k k') as [->|_]; [exfalso; apply N; now left|].
  apply IH. intros I. apply N. now right.
Qed.

End Entries.

(** After the parameters are set, the pairs under the name of a
    parameter are that parameter alone, and the pairs under another
    name are untouched. *)
Lemma set_all_named (entries : list (string * string)) : forall q k,
  NoDup (map fst entries) ->
  named k (set_all entries q)
  = match Js.assoc k entries with
    | Some v => [(k, v)]
    | None => named k q
    end.
Proof.
  unfold set_all.
  induction entries as [|[k0 v0] tl IH]; intros q k N; [reflexivity|].
  cbn [fold_left fst snd Js.assoc map] in *.
  inversion N as [|? ? X N']; subst.
  rewrite (IH _ k N').
  destruct (String.eqb_spec k k0) as [->|D].
  - rewrite (assoc_notin k0 tl X). apply named_set_same.
  - destruct (Js.assoc k tl); [reflexivity|].
    apply named_set_other. congruence.
Qed.

(** X16: the query of a request holds every parameter of the client's
    options exactly once, with its value, whatever the URL that
    [new URL] made already held under that name, and the pairs under
    other names are those of that URL; without parameters the URL is
    fetched as the constructor made it.  This holds for the client
    module and for the serverless client. *)
Theorem X16_query_as_given `{Builtins} (env : Env) (remote : Remote)
  (options : Client.MailchimpRequestOptions) (r : Http.Request) :
  In r (requests (Client.mailchimpRequest env options remote))
  \/ In r (requests (Api.mc env (Client.method options) (Client.path options)
                       (Client.body options) (Client.params options) remote)) ->
  exists url,
    URL_parse (Client.BASE_URL env ++ Client.path options) = Some url
    /\ (Client.params options = None -> Http.url r = url)
    /\ (forall o,
          Client.params options = Some o -> NoDup (map fst o) ->
          forall k,
            named k (Http.searchParams r)
            = match Js.assoc k o with
              | Some v => [(k, v)]
              | None => named k (URL.query url)
              end).
Proof.
  intros I.
  assert (E : exists url,
             URL_parse (Client.BASE_URL env ++ Client.path options) = Some url
             /\ r = request_with env options url).
  { destruct I as [I|I]; [now apply sent_by_client in I|].
    apply sent_by_mc in I. now destruct options. }
  destruct E as (url & P & ->). exists url. split; [exact P|].
  unfold Http.searchParams, request_with. cbn [Http.url]. split.
  - intros ->. reflexivity.
  - intros o -> N k. cbn [with_params with_entries URL.query].
    assert (N' : NoDup (map fst (Js.entries o))).
    { eapply Permutation_NoDup; [|exact N].
      apply Permutation_map, Permutation_sym, entries_perm. }
    rewrite (set_all_named _ _ k N').
    now rewrite (assoc_perm k _ _ (entries_perm o) N').
Qed.

Lemma X16_witness :
  let options :=
    {| Client.method := "GET"; Client.path := "/lists"; Client.body := None;
       Client.params := Some [("fields", "lists.id"); ("7", "x"); ("count", "100")] |} in
  let r :=
    {| Http.method := "GET";
       Http.url := {| URL.location := "https://us14.api.mailchimp.com/3.0/lists";
                      URL.query := [("7", "x"); ("fields", "lists.id"); ("count", "100")];
                      URL.fragment := "" |};
       Http.headers := [("Authorization", "Bearer abc123-us14");
                        ("Content-Type", "application/json")];
       Http.body := None |} in
  In r (requests (Client.mailchimpRequest (H := example_builtins) (Some "abc123-us14")
                    options (always 204 None)))
  /\ exists url,
       URL_parse (Builtins := example_builtins)
         (Client.BASE_URL (Some "abc123-us14") ++ Client.path options) = Some url
       /\ (Client.params options = None -> Http.url r = url)
       /\ (forall o,
             Client.params options = Some o -> NoDup (map fst o) ->
             forall k,
               named k (Http.searchParams r)
               = match Js.assoc k o with
                 | Some v => [(k, v)]
                 | None => named k (URL.query url)
                 end).
Proof.
  split; [left; reflexivity|].
  apply (X16_query_as_given (H := example_builtins) (Some "abc123-us14") (always 204 None)
           {| Client.method := "GET"; Client.path := "/lists"; Client.body := None;
              Client.params := Some [("fields", "lists.id"); ("7", "x"); ("count", "100")] |}).
  left. left. reflexivity.
Defined.

(* ================================================================== *)
(** * The region, for every credential *)

Section Pieces.
Variable sep : ascii.

Lemma split_pieces_lack s : Forall (fun p => Str.lacks sep p = true) (Str.split sep s).
Proof.
  induction s as [|c rest IH]; cbn [Str.split].
  - repeat constructor.
  - destruct (Ascii.eqb c sep) eqn:C.
    + constructor; [reflexivity|exact IH].
    + destruct (Str.split sep rest) as [|piece pieces].
      * constructor; [|constructor]. cbn [Str.lacks]. now rewrite C.
      * inversion IH as [|? ? P Ps]; subst. constructor; [|exact Ps].
        cbn [Str.lacks]. now rewrite C, P.
Qed.

Lemma pop_In l p : Str.pop l = Some p -> In p l.
Proof.
  induction l as [|x tl IH]; [discriminate|]. cbn [Str.pop].
  destruct tl as [|y tl'].
  - intros [= <-]. now left.
  - intros E. right. exact (IH E).
Qed.

End Pieces.

(** X17: for every credential, set or not, the region is not empty and
    holds no '-', so that the endpoint always names a host; the region
    is us1 exactly when the last piece of the credential is empty; and
    [getApiConfig] resolves the endpoint of the client module. *)
Theorem X17_region_invariant (env : Env) :
  Client.DATA_CENTER env <> ""
  /\ Str.lacks "-" (Client.DATA_CENTER env) = true
  /\ (forall piece, Str.pop (Str.split "-" (Client.API_KEY env)) = Some piece ->
        Client.DATA_CENTER env = if String.eqb piece "" then "us1" else piece)
  /\ Api.baseUrl (Api.getApiConfig env) = Client.BASE_URL env.
Proof.
  unfold Client.DATA_CENTER.
  pose proof (split_pieces_lack "-" (Client.API_KEY env)) as L.
  destruct (Str.pop (Str.split "-" (Client.API_KEY env))) as [piece|] eqn:P.
  - apply pop_In in P. rewrite Forall_forall in L. specialize (L piece P).
    destruct piece as [|c rest]; cbn [Str.or_else].
    + repeat split; try discriminate. now intros piece [= <-].
    + repeat split; [discriminate|exact L|]. now intros piece [= <-].
  - cbn [Str.or_else]. repeat split; discriminate.
Qed.

(* ================================================================== *)
(** * When the clients return *)

Lemma settle_Ok `{Builtins} wording generic answer data :
  settle wording generic answer = Ok data <-> hands answer data.
Proof.
  unfold settle, hands. split.
  - destruct answer as [response|]; [|discriminate].
    destruct (Z.eqb_spec (Http.status response) 204) as [S|S].
    + intros [= <-]. exists response. split; [reflexivity|]. now left.
    + destruct (Http.json response) as [d|] eqn:J; [|discriminate].
      destruct (Http.ok response) eqn:O.
      * intros [= <-]. exists response. split; [reflexivity|]. now right.
      * destruct d; discriminate.
  - intros (response & -> & [[S ->]|(S & O & J)]).
    + rewrite S. reflexivity.
    + destruct (Z.eqb_spec (Http.status response) 204) as [S'|_]; [contradiction|].
      now rewrite J, O.
Qed.

(** X18: with a credential, either client returns exactly when
    [new URL] takes the endpoint followed by the path for a URL and the
    platform answers the request on it with a 204, for which the client
    returns the empty object without reading the body, or with another
    status from 200 to 299 and a body that is JSON, which it returns as
    it is; no other answer, no failure to reach the platform and no
    endpoint that is not a URL makes it return. *)
Theorem X18_client_returns `{Builtins} (env : Env) (remote : Remote)
  (options : Client.MailchimpRequestOptions) (data : JsValue) :
  Client.API_KEY env <> "" ->
  (outcome (Client.mailchimpRequest env options remote) = Ok data
   <-> exists url,
         URL_parse (Client.BASE_URL env ++ Client.path options) = Some url
         /\ hands (remote (request_with env options url)) data)
  /\ (outcome (Api.mc env (Client.method options) (Client.path options)
                 (Client.body options) (Client.params options) remote) = Ok data
      <-> exists url,
            URL_parse (Client.BASE_URL env ++ Client.path options) = Some url
            /\ hands (remote (request_with env options url)) data).
Proof.
  intros K.
  destruct (URL_parse (Client.BASE_URL env ++ Client.path options)) as [url|] eqn:P.
  - rewrite (mailchimpRequest_parsed env options remote url K P).
    destruct options as [m p b ps].
    cbn [Client.method Client.path Client.body Client.params] in *.
    rewrite (mc_parsed env m p b ps remote url K P).
    cbn [outcome snd].
    split; (split; [intros E; exists url; split; [reflexivity|now apply settle_Ok in E]
                   |intros (url' & [= <-] & Hd); now apply settle_Ok]).
  - rewrite (mailchimpRequest_unparsed env options remote K P).
    destruct options as [m p b ps].
    cbn [Client.method Client.path Client.body Client.params] in *.
    rewrite (mc_unparsed env m p b ps remote K P).
    cbn [outcome snd].
    split; (split; [intros E; discriminate E|intros (url' & E & _); discriminate E]).
Qed.

Lemma X18_witness :
  let options := {| Client.method := "DELETE"; Client.path := "/campaigns/c1";
                    Client.body := None; Client.params := None |} in
  Client.API_KEY (Some "abc123-us14") <> ""
  /\ (outcome (Client.mailchimpRequest (H := example_builtins) (Some "abc123-us14")
                 options (always 204 None)) = Ok (JObj [])
      <-> exists url,
            URL_parse (Builtins := example_builtins)
              (Client.BASE_URL (Some "abc123-us14") ++ Client.path options) = Some url
            /\ hands (always 204 None (request_with (Some "abc123-us14") options url))
                 (JObj [])).
Proof.
  split; [discriminate|].
  apply (X18_client_returns (H := example_builtins) (Some "abc123-us14") (always 204 None)
           {| Client.method := "DELETE"; Client.path := "/campaigns/c1";
              Client.body := None; Client.params := None |} (JObj [])).
  discriminate.
Defined.

(* ================================================================== *)
(** * Create campaign, beyond the defaults *)

(** X19: the body that create-campaign posts carries list_id, subject,
    from_name and reply_to as given; a title or preview text that is
    given and not empty is sent as given, and an empty one is treated as
    absent (the title falls back to the subject, the preview text to the
    empty string).  Both entry points post the same request, the one
    sent with a credential whose endpoint [new URL] takes for a URL. *)
Theorem X19_create_campaign_fields `{Builtins} (env : Env) (remote : Remote)
  (list_id subject : string) (preview_text title : option string)
  (from_name reply_to : string) :
  Client.API_KEY env <> "" -> resolves env ->
  let input := (list_id, subject, preview_text, title, from_name, reply_to) in
  exists request body recipients settings,
    requests (Index.create_campaign env input remote) = [request]
    /\ requests (Api.create_campaign env input remote) = [request]
    /\ Http.body request = Some body
    /\ Js.keys body = ["type"; "recipients"; "settings"]
    /\ Js.prop body "recipients" = Ok recipients
    /\ Js.prop recipients "list_id" = Ok (JStr list_id)
    /\ Js.prop body "settings" = Ok settings
    /\ Js.prop settings "subject_line" = Ok (JStr subject)
    /\ Js.prop settings "title" = Ok (JStr (given_or title subject))
    /\ Js.prop settings "preview_text" = Ok (JStr (given_or preview_text ""))
    /\ Js.prop settings "from_name" = Ok (JStr from_name)
    /\ Js.prop settings "reply_to" = Ok (JStr reply_to).
Proof.
  intros K U input. subst input. enter_handler.
  rewrite !call_then_project_eq. cbn [requests fst].
  rewrite mailchimpRequest_set, (mc_set env _ _ _ _ remote K U) by assumption.
  cbn [fst]. do 4 eexists. split; [reflexivity|]. split; [reflexivity|].
  unfold request_of, request_with. cbn [Http.body Client.body body_of].
  unfold Index.create_campaign_body. cbn [Js.truthy Js.json_of].
  split; [reflexivity|]. split; [reflexivity|].
  split; [reflexivity|]. split; [reflexivity|].
  split; [reflexivity|]. split; [reflexivity|].
  split; [|split; [|split; reflexivity]]; cbn; f_equal; f_equal.
  - destruct title as [[|c t]|]; reflexivity.
  - destruct preview_text as [[|c t]|]; reflexivity.
Qed.

Lemma X19_witness :
  exists request body recipients settings,
    requests (Index.create_campaign (H := example_builtins) (Some "abc123-us14")
                ("list1", "Hello", Some "", Some "", "Team", "a@b.co")
                (always 200 (Some (JObj [])))) = [request]
    /\ Http.body request = Some body
    /\ Js.prop body "recipients" = Ok recipients
    /\ Js.prop body "settings" = Ok settings
    /\ Js.prop settings "title" = Ok (JStr "Hello")
    /\ Js.prop settings "preview_text" = Ok (JStr "").
Proof.
  destruct (X19_create_campaign_fields (H := example_builtins) (Some "abc123-us14")
              (always 200 (Some (JObj [])))
              "list1" "Hello" (Some "") (Some "") "Team" "a@b.co")
    as (request & body & recipients & settings & R & _ & B & _ & Rc & _ & S & _ & T & P & _).
  - discriminate.
  - exact example_resolves.
  - exists request, body, recipients, settings.
    repeat split; [exact R | exact B | exact Rc | exact S | exact T | exact P].
Defined.

(** Settles a projection that reads through missing settings. *)
Ltac no_settings N :=
  match goal with
  | |- context [Js.prop ?data "settings"] =>
      destruct data as [| | | | | |fields]; try reflexivity;
      cbn [Js.prop bindR field_of] in *;
      destruct (Js.assoc "settings" fields) as [[| | | | | |]|];
      try discriminate N; reflexivity
  end.

(** X20: create-campaign reads the settings of the answer.  When the
    platform answers with a success whose body holds no settings (a 204
    among them), an invocation that is not refused fails with a
    TypeError although its one POST was sent (the credential is set and
    [new URL] takes its endpoint for a URL, or nothing is answered). *)
Theorem X20_create_needs_settings `{Builtins} (entry : EntryPoint) (env : Env)
  (remote : Remote) (args : Args) (data : JsValue) :
  Client.API_KEY env <> "" -> resolves env -> delivers remote data ->
  nullish (field_of data "settings") = true ->
  refused (invoke_at entry env CreateCampaign args remote)
  \/ (outcome (invoke_at entry env CreateCampaign args remote) = Err TypeError
      /\ exists request,
           requests (invoke_at entry env CreateCampaign args remote) = [request]
           /\ Http.method request = "POST").
Proof.
  intros K U D N.
  destruct entry; unfold invoke_at; enter_tool; verdicts;
    try (left; eexists; reflexivity);
    right; enter_handler.
  - erewrite call_then_project by (apply (client_delivered env remote data K D); exact U).
    cbn [outcome snd requests fst bindR]. split.
    + clear - N. no_settings N.
    + eexists. split; reflexivity.
  - match goal with |- context [Api.mc env ?m ?p ?b ?ps] =>
      pose proof (mc_set env m p b ps remote K U) as Mc end.
    cbv zeta in Mc. rewrite (settle_delivered remote data D) in Mc.
    erewrite call_then_project by exact Mc.
    cbn [outcome snd requests fst bindR]. split.
    + clear - N. no_settings N.
    + eexists. split; reflexivity.
Qed.

Lemma X20_witness :
  refused (invoke_at (H := example_builtins) Standalone (Some "abc123-us14") CreateCampaign
             [("list_id", JStr "l1"); ("subject", JStr "Hello"); ("from_name", JStr "Team");
              ("reply_to", JStr "a@b.co")] (always 204 None))
  \/ (outcome (invoke_at (H := example_builtins) Standalone (Some "abc123-us14")
                 CreateCampaign
                 [("list_id", JStr "l1"); ("subject", JStr "Hello");
                  ("from_name", JStr "Team"); ("reply_to", JStr "a@b.co")]
                 (always 204 None)) = Err TypeError
      /\ exists request,
           requests (invoke_at (H := example_builtins) Standalone (Some "abc123-us14")
                       CreateCampaign
                       [("list_id", JStr "l1"); ("subject", JStr "Hello");
                        ("from_name", JStr "Team"); ("reply_to", JStr "a@b.co")]
                       (always 204 None)) = [request]
           /\ Http.method request = "POST").
Proof.
  apply (X20_create_needs_settings (H := example_builtins) Standalone (Some "abc123-us14")
           (always 204 None)
           [("list_id", JStr "l1"); ("subject", JStr "Hello"); ("from_name", JStr "Team");
            ("reply_to", JStr "a@b.co")] (JObj [])).
  - discriminate.
  - exact example_resolves.
  - intros request. eexists. split; [reflexivity|]. left. split; reflexivity.
  - reflexivity.
Defined.
(* ================================================================== *)
(** * Rates that are not there *)


(* ================================================================== *)
(** * The report, on any answer *)

Section ReportTotal.
Context `{Builtins}.

Lemma report_summary_defined campaign_id data :
  nullish data = false ->
  exists fields fields',
    Index.report_summary campaign_id data
    = Ok (JObj (("campaign_id", JStr campaign_id) :: fields))
    /\ Api.report_summary campaign_id data
       = Ok (JObj (("campaign_id", JStr campaign_id) :: fields')).
Proof.
  intros N. unfold Index.report_summary, Api.report_summary.
  destruct data; try discriminate N; cbn [Js.prop bindR];
    repeat (rewrite opt_prop_field_of; cbn [bindR]);
    do 2 eexists; split; reflexivity.
Qed.

Lemma report_summary_null campaign_id data :
  nullish data = true ->
  Index.report_summary campaign_id data = Err TypeError
  /\ Api.report_summary campaign_id data = Err TypeError.
Proof. destruct data; try discriminate; split; reflexivity. Qed.

End ReportTotal.

(** X22: the report reads its sections through optional chaining: on
    every success whose body is not null, an empty object and a 204
    among them, an invocation that is not refused returns, and what it
    returns names the campaign_id of the arguments, not one of the
    answer; on a body that is null it fails with a TypeError.  The
    answer is the one to the request sent, with a credential whose
    endpoint [new URL] takes for a URL. *)
Theorem X22_report_on_any_answer `{Builtins} (entry : EntryPoint) (env : Env)
  (remote : Remote) (args : Args) (data : JsValue) :
  Client.API_KEY env <> "" -> resolves env -> delivers remote data ->
  refused (invoke_at entry env GetReport args remote)
  \/ (if nullish data
      then outcome (invoke_at entry env GetReport args remote) = Err TypeError
      else exists out,
             outcome (invoke_at entry env GetReport args remote) = Ok out
             /\ field_of out "campaign_id" = arg args "campaign_id").
Proof.
  intros K U D.
  destruct entry; unfold invoke_at; enter_tool; verdicts;
    try (left; eexists; reflexivity);
    right; enter_handler; arguments_read.
  - erewrite call_then_project by (apply (client_delivered env remote data K D); exact U).
    cbn [outcome snd bindR].
    destruct (nullish data) eqn:N.
    + destruct (report_summary_null s data N) as [-> _]. reflexivity.
    + destruct (report_summary_defined s data N) as (fields & _ & -> & _).
      cbn [bindR]. eexists. split; [reflexivity|]. reflexivity.
  - match goal with |- context [Api.mc env ?m ?p ?b ?ps] =>
      pose proof (mc_set env m p b ps remote K U) as Mc end.
    cbv zeta in Mc. rewrite (settle_delivered remote data D) in Mc.
    erewrite call_then_project by exact Mc.
    cbn [outcome snd bindR].
    destruct (nullish data) eqn:N.
    + destruct (report_summary_null s data N) as [_ ->]. reflexivity.
    + destruct (report_summary_defined s data N) as (_ & fields & _ & ->).
      cbn [bindR]. eexists. split; [reflexivity|]. reflexivity.
Qed.

Lemma X22_witness :
  refused (invoke_at (H := example_builtins) Standalone (Some "abc123-us14") GetReport
             [("campaign_id", JStr "c1")]
             (always 200 (Some (JObj [("campaign_id", JStr "other")]))))
  \/ (if nullish (JObj [("campaign_id", JStr "other")])
      then outcome (invoke_at (H := example_builtins) Standalone (Some "abc123-us14")
                      GetReport [("campaign_id", JStr "c1")]
                      (always 200 (Some (JObj [("campaign_id", JStr "other")]))))
           = Err TypeError
      else exists out,
             outcome (invoke_at (H := example_builtins) Standalone (Some "abc123-us14")
                        GetReport [("campaign_id", JStr "c1")]
                        (always 200 (Some (JObj [("campaign_id", JStr "other")]))))
             = Ok out
             /\ field_of out "campaign_id" = arg [("campaign_id", JStr "c1")] "campaign_id").
Proof.
  apply (X22_report_on_any_answer (H := example_builtins) Standalone (Some "abc123-us14")
           (always 200 (Some (JObj [("campaign_id", JStr "other")])))
           [("campaign_id", JStr "c1")] (JObj [("campaign_id", JStr "other")])).
  - discriminate.
  - exact example_resolves.
  - intros request. eexists. split; [reflexivity|]. right.
    split; [discriminate|]. split; reflexivity.
Defined.
